(** * Intent router, transfer guard and conversation memory of the wallet assistant

    A shallow embedding of [parseUserIntent], the [OPERATIONS] catalog with
    its handlers, and [updateConversationContext] (the natural-language
    processor of the wallet assistant), together with the ECMAScript
    primitives they rely on: strings, binary64 numbers, [parseFloat],
    [Number.prototype.toFixed], number-to-string conversion and the
    backtracking regular-expression matcher behind [String.prototype.match].

    Conventions.
    - A JavaScript string is a [string]; its characters stand for the code
      units U+0000..U+00FF. Literals of the source that hold other
      characters are written as their UTF-8 bytes; they occur in messages
      only.
    - A JavaScript number is a binary64 value: [spec_float] at precision 53
      and maximal exponent 1024, with round-to-nearest-even arithmetic.
    - A value that may be [null] or [undefined] is an [option].
    - An [async] handler is run to completion at each [await]; a rejected
      promise is an abrupt completion [Throw].
    - The module-level variables ([conversationContext],
      [cachedTokenPrices]) are threaded as a state; the imported
      collaborators, the clock and [Math.random] are fields of an
      environment record. *)

From Stdlib Require Import ZArith QArith Lia Lqa List String Ascii Bool.
From Stdlib Require Import QArith.Qround QArith.Qabs Floats.SpecFloat.
Import ListNotations.

Set Implicit Arguments.

(* ===================================================================== *)
(** * Completions: normal results and thrown exceptions *)

Inductive JsError := TypeError (what : string) | ExternalError (what : string).

Inductive Completion (A : Type) :=
| Normal (a : A)
| Throw (e : JsError).

Arguments Normal {A} a.
Arguments Throw {A} e.

(* ===================================================================== *)
(** * Strings *)

Module JsString.
Local Open Scope string_scope.

Definition code (c : ascii) : nat := nat_of_ascii c.

Definition between (lo hi : nat) (c : ascii) : bool :=
  (lo <=? code c)%nat && (code c <=? hi)%nat.

Definition is_digit (c : ascii) : bool := between 48 57 c.
Definition is_upper (c : ascii) : bool := between 65 90 c.
Definition is_lower (c : ascii) : bool := between 97 122 c.

(** [\w] without the [u] flag: [A-Za-z0-9_]. *)
Definition is_word (c : ascii) : bool :=
  is_digit c || is_upper c || is_lower c || (code c =? 95)%nat.

(** LineTerminator: LF, CR (U+2028 and U+2029 lie outside the alphabet). *)
Definition is_line_terminator (c : ascii) : bool :=
  (code c =? 10)%nat || (code c =? 13)%nat.

(** WhiteSpace and LineTerminator, the class [\s]: TAB, LF, VT, FF, CR,
    SP and NBSP. *)
Definition is_space (c : ascii) : bool :=
  between 9 13 c || (code c =? 32)%nat || (code c =? 160)%nat.

(** Simple lower-case mapping: A-Z, and U+00C0..U+00DE except U+00D7. *)
Definition lower_char (c : ascii) : ascii :=
  if is_upper c || (between 192 222 c && negb (code c =? 215)%nat)
  then ascii_of_nat (code c + 32) else c.

(** Simple upper-case mapping: a-z, and U+00E0..U+00FE except U+00F7.
    (U+00B5 and U+00FF, whose images fall outside the alphabet, and U+00DF
    are left in place; the source upper-cases only [\w+] captures.) *)
Definition upper_char (c : ascii) : ascii :=
  if is_lower c || (between 224 254 c && negb (code c =? 247)%nat)
  then ascii_of_nat (code c - 32) else c.

Fixpoint map_chars (f : ascii -> ascii) (s : string) : string :=
  match s with
  | EmptyString => EmptyString
  | String c s' => String (f c) (map_chars f s')
  end.

Definition toLowerCase : string -> string := map_chars lower_char.
Definition toUpperCase : string -> string := map_chars upper_char.

Definition startsWith (s p : string) : bool := String.prefix p s.

Fixpoint includes (s sub : string) : bool :=
  String.prefix sub s ||
  match s with
  | EmptyString => false
  | String _ s' => includes s' sub
  end.

(** [s.slice(0, n)] for [n >= 0]. *)
Definition slice_to (n : nat) (s : string) : string := String.substring 0 n s.

(** [s.slice(-n)] for [n > 0]. *)
Definition slice_last (n : nat) (s : string) : string :=
  String.substring (String.length s - n) n s.

(** [xs.join(sep)] *)
Fixpoint join (sep : string) (xs : list string) : string :=
  match xs with
  | [] => ""
  | [x] => x
  | x :: rest => x ++ sep ++ join sep rest
  end.

(** A JavaScript string is truthy unless it is empty. *)
Definition truthy (s : string) : bool := negb (String.eqb s "").

(** The characters that a pattern or a message needs but a literal cannot
    hold. *)
Definition dq : string := String (ascii_of_nat 34) "".
Definition nl : string := String (ascii_of_nat 10) "".

End JsString.

(* ===================================================================== *)
(** * Numbers: binary64 *)

Module JsNumber.
Local Open Scope Z_scope.
Import JsString.

Definition number := spec_float.

Definition prec : Z := 53.
Definition emax : Z := 1024.

Definition NaN : number := S754_nan.
Definition Infinity : number := S754_infinity false.
Definition zero : number := S754_zero false.

Definition add : number -> number -> number := SFadd prec emax.
Definition sub : number -> number -> number := SFsub prec emax.
Definition mul : number -> number -> number := SFmul prec emax.
Definition div : number -> number -> number := SFdiv prec emax.

(** [x < y], [x <= y], [x > y], [x >= y]: all false on NaN. *)
Definition lt (x y : number) : bool := SFltb x y.
Definition le (x y : number) : bool := SFleb x y.
Definition gt (x y : number) : bool := SFltb y x.
Definition ge (x y : number) : bool := SFleb y x.

Definition isNaN (x : number) : bool :=
  match x with S754_nan => true | _ => false end.

(** ToBoolean on a number: false for +0, -0 and NaN. *)
Definition truthy (x : number) : bool :=
  match x with S754_zero _ | S754_nan => false | _ => true end.

(** The number nearest to the integer [z]. *)
Definition of_Z (z : Z) : number := binary_normalize prec emax z 0 false.

(** The number nearest to [m * 10^e], for a digit string read as the natural
    [m]: the value of a decimal literal. *)
Definition of_decimal (neg : bool) (m : Z) (e : Z) : number :=
  match m with
  | Zpos p =>
      if 0 <=? e then binary_normalize prec emax (if neg then - (m * 10 ^ e) else m * 10 ^ e) 0 false
      else match 10 ^ (- e) with
           | Zpos d => div (S754_finite neg p 0) (S754_finite false d 0)
           | _ => NaN
           end
  | _ => S754_zero neg
  end.

(** The exact value of a finite number. *)
Definition to_Q (x : number) : Q :=
  match x with
  | S754_finite s m e =>
      let v := if 0 <=? e then inject_Z (Zpos m * 2 ^ e)
               else Qmake (Zpos m) (Z.to_pos (2 ^ (- e))) in
      if s then Qopp v else v
  | _ => 0%Q
  end.

Definition pow10 (e : Z) : Q :=
  if 0 <=? e then inject_Z (10 ^ e) else Qmake 1 (Z.to_pos (10 ^ (- e))).

(** [Math.max(x, y)] *)
Definition Math_max (x y : number) : number :=
  if isNaN x || isNaN y then NaN
  else if lt x y then y
  else if lt y x then x
  else match x, y with
       | S754_zero true, S754_zero false => y
       | _, _ => x
       end.

(** ** Decimal digits *)

Definition digit_char (d : Z) : ascii := ascii_of_nat (48 + Z.to_nat d).

Fixpoint digits_aux (fuel : nat) (n : Z) (acc : string) : string :=
  match fuel with
  | O => acc
  | S f =>
      let acc' := String (digit_char (n mod 10)) acc in
      if n / 10 =? 0 then acc' else digits_aux f (n / 10) acc'
  end.

(** The decimal representation of a natural number. *)
Definition string_of_nat_Z (n : Z) : string :=
  digits_aux (S (Z.to_nat (Z.log2 n))) n EmptyString.

Fixpoint zeros (n : nat) : string :=
  match n with
  | O => EmptyString
  | S n' => String "0" (zeros n')
  end.

(** ** Number::toString *)

(** Candidates [(s, n)] with [k] digits for the positive finite [x]: the
    integers [s] next to [x / 10^(n-k)] with [10^(k-1) <= s < 10^k] whose
    value [s * 10^(n-k)] rounds to [x]. *)
Definition candidates (x : number) (k n : Z) : list (Z * Z) :=
  let s0 := Qfloor (Qdiv (to_Q x) (pow10 (n - k))) in
  filter (fun sn : Z * Z =>
            let s := fst sn in
            (10 ^ (k - 1) <=? s) && (s <? 10 ^ k) &&
            SFeqb (of_decimal false s (n - k)) x)
         [(s0, n); (s0 + 1, n)].

(** Distance from [s * 10^(n-k)] to [x]. *)
Definition distance (x : number) (k : Z) (sn : Z * Z) : Q :=
  Qabs (Qminus (Qmult (inject_Z (fst sn)) (pow10 (snd sn - k))) (to_Q x)).

(** The closest candidate, the even one on a tie. *)
Fixpoint closest (x : number) (k : Z) (best : Z * Z) (cs : list (Z * Z)) : Z * Z :=
  match cs with
  | [] => best
  | c :: cs' =>
      let better :=
        match Qcompare (distance x k c) (distance x k best) with
        | Lt => true
        | Eq => Z.even (fst c)
        | Gt => false
        end in
      closest x k (if better then c else best) cs'
  end.

(** The [n0] with [10^(n0-1) <= x < 10^n0], searched upwards from [n]. *)
Fixpoint decade (fuel : nat) (x : Q) (n : Z) : Z :=
  match fuel with
  | O => n
  | S f => if Qlt_le_dec x (pow10 n) then n else decade f x (n + 1)
  end.

(** A lower bound of that [n0] from the binary exponent: [x >= 2^(d+e-1)]
    for a mantissa of [d] bits, and [log10 2 < 30103 / 100000]. *)
Definition decade_below (x : number) : Z :=
  match x with
  | S754_finite _ m e => ((Zpos (digits2_pos m) + e - 1) * 30103) / 100000 - 1
  | _ => 0
  end.

(** The least [k] with a candidate, then the digits [s], their number [k]
    and the exponent [n]: the triple of Number::toString. *)
Fixpoint shortest (fuel : nat) (x : number) (n0 k : Z) : Z * Z * Z :=
  let cs := candidates x k n0 ++ candidates x k (n0 + 1) in
  match fuel, cs with
  | S f, [] => shortest f x n0 (k + 1)
  | _, c :: cs' => let '(s, n) := closest x k c cs' in (s, k, n)
  | O, [] => (Qfloor (Qdiv (to_Q x) (pow10 (n0 - k))), k, n0)
  end.

Definition exponent_part (n : Z) : string :=
  String.append (if 0 <=? n - 1 then "e+"%string else "e-"%string)
                (string_of_nat_Z (Z.abs (n - 1))).

(** Number::toString for a positive finite number. *)
Definition toString_pos (x : number) : string :=
  let n0 := decade 640 (to_Q x) (decade_below x) in
  let '(s, k, n) := shortest 16 x n0 1 in
  let digits := string_of_nat_Z s in
  if (k <=? n) && (n <=? 21) then
    (digits ++ zeros (Z.to_nat (n - k)))%string
  else if (0 <? n) && (n <=? 21) then
    (substring 0 (Z.to_nat n) digits ++ "." ++
     substring (Z.to_nat n) (Z.to_nat (k - n)) digits)%string
  else if (-6 <? n) && (n <=? 0) then
    ("0." ++ zeros (Z.to_nat (- n)) ++ digits)%string
  else if k =? 1 then
    (digits ++ exponent_part n)%string
  else
    (substring 0 1 digits ++ "." ++ substring 1 (Z.to_nat (k - 1)) digits ++
     exponent_part n)%string.

(** Number::toString, the conversion behind [`${x}`]. *)
Definition toString (x : number) : string :=
  match x with
  | S754_nan => "NaN"
  | S754_zero _ => "0"
  | S754_infinity false => "Infinity"
  | S754_infinity true => "-Infinity"
  | S754_finite false _ _ => toString_pos x
  | S754_finite true m e => ("-" ++ toString_pos (S754_finite false m e))%string
  end.

(** ** Number.prototype.toFixed *)

(** The integer [n] with [n / 10^f - x] closest to zero, the larger on a tie,
    for [x >= 0]. *)
Definition nearest_scaled (x : number) (f : Z) : Z :=
  Qfloor (Qplus (Qmult (to_Q x) (inject_Z (10 ^ f))) (Qmake 1 2)).

(** The digits of [n] with a point before the last [f], padded on the left
    with zeros up to [f + 1] digits. *)
Definition fixed_digits (n : Z) (f : nat) : string :=
  let m := string_of_nat_Z n in
  let k := String.length m in
  let m' := if (k <=? f)%nat then (zeros (f + 1 - k) ++ m)%string else m in
  let k' := String.length m' in
  match f with
  | O => m'
  | _ => (substring 0 (k' - f) m' ++ "." ++ substring (k' - f) f m')%string
  end.

(** [x.toFixed(f)] for [0 <= f <= 100]. *)
Definition toFixed (x : number) (f : nat) : string :=
  match x with
  | S754_nan | S754_infinity _ => toString x
  | S754_zero _ => fixed_digits 0 f
  | S754_finite s m e =>
      let a := S754_finite false m e in
      let body := if ge a (of_decimal false 1 21) then toString a
                  else fixed_digits (nearest_scaled a (Z.of_nat f)) f in
      if s then ("-" ++ body)%string else body
  end.

(** The numbers that [toFixed] prints digit by digit: the finite ones from
    0 up to [10^21], excluded. *)
Definition in_fixed_range (x : number) : bool :=
  match x with
  | S754_zero _ => true
  | S754_finite false _ _ => negb (ge x (of_decimal false 1 21))
  | _ => false
  end.

(** ** parseFloat *)

Fixpoint skip_space (s : string) : string :=
  match s with
  | String c s' => if is_space c then skip_space s' else s
  | EmptyString => s
  end.

(** The longest run of decimal digits at the head of [s]: its value [acc],
    the number of digits read, and the rest. *)
Fixpoint read_digits (s : string) (acc : Z) (count : Z) : Z * Z * string :=
  match s with
  | String c s' =>
      if is_digit c then read_digits s' (10 * acc + (Z.of_nat (code c) - 48)) (count + 1)
      else (acc, count, s)
  | EmptyString => (acc, count, s)
  end.

(** ExponentPart: [e] or [E], an optional sign, at least one digit; 0 when
    it is absent or malformed. *)
Definition read_exponent (s : string) : Z :=
  match s with
  | String c s' =>
      if (code c =? 101)%nat || (code c =? 69)%nat then
        let '(neg, s'') :=
          match s' with
          | String "-" t => (true, t)
          | String "+" t => (false, t)
          | _ => (false, s')
          end in
        let '(v, count, _) := read_digits s'' 0 0 in
        if count =? 0 then 0 else if neg then - v else v
      else 0
  | EmptyString => 0
  end.

(** [parseFloat(s)]: the value of the longest prefix of the trimmed [s]
    that is a StrDecimalLiteral, NaN when there is none. *)
Definition parseFloat (s : string) : number :=
  let t := skip_space s in
  let '(neg, t) :=
    match t with
    | String "-" t' => (true, t')
    | String "+" t' => (false, t')
    | _ => (false, t)
    end in
  if prefix "Infinity" t then S754_infinity neg
  else
    let '(ip, icount, t1) := read_digits t 0 0 in
    let '(fp, fcount, t2) :=
      match t1 with
      | String "." t' => read_digits t' ip 0
      | _ => (ip, 0, t1)
      end in
    if (icount =? 0) && (fcount =? 0) then NaN
    else of_decimal neg fp (read_exponent t2 - fcount).

End JsNumber.

(* ===================================================================== *)
(** * Regular expressions *)

Module RegExp.
Import JsString.
Local Open Scope string_scope.

Inductive class := Digit | Word | Space | Dot.

Inductive regex :=
| Empty
| Chr (c : ascii)
| Cls (k : class)
| Seq (r1 r2 : regex)
| Alt (r1 r2 : regex)
| Star (greedy : bool) (r : regex)
| Group (i : nat) (r : regex)
| Bol
| Eol
| WordBoundary
| Never.

(** ** Pattern syntax

    The subset of pattern syntax that the catalog uses: literal characters,
    [\s \d \w \b], escaped punctuation, [.], [^], [$], [(...)], [(?:...)],
    [|], and the quantifiers [* + ?] with their lazy forms. *)

Definition mk_seq (rs : list regex) : regex :=
  match rs with
  | [] => Empty
  | r :: rs' => fold_left Seq rs' r
  end.

Fixpoint mk_alt (rs : list regex) : regex :=
  match rs with
  | [] => Never
  | [r] => r
  | r :: rs' => Alt r (mk_alt rs')
  end.

(** A quantifier after the atom [a]: the quantified term and the rest. *)
Definition quantified (a : regex) (s : string) : regex * string :=
  match s with
  | String "*" (String "?" s') => (Star false a, s')
  | String "*" s' => (Star true a, s')
  | String "+" (String "?" s') => (Seq a (Star false a), s')
  | String "+" s' => (Seq a (Star true a), s')
  | String "?" (String "?" s') => (Alt Empty a, s')
  | String "?" s' => (Alt a Empty, s')
  | _ => (a, s)
  end.

Definition escape (c : ascii) : option regex :=
  if (c =? "s")%char then Some (Cls Space)
  else if (c =? "d")%char then Some (Cls Digit)
  else if (c =? "w")%char then Some (Cls Word)
  else if (c =? "b")%char then Some WordBoundary
  else if is_word c then None
  else Some (Chr c).

(** A disjunction, read up to the end of the pattern or to an unmatched
    closing parenthesis. [g] is the number of capturing groups opened so
    far, [alts] the alternatives and [terms] the terms of the current
    alternative read so far, both latest first. *)
Fixpoint parse (fuel : nat) (s : string) (g : nat) (alts terms : list regex)
  : option (regex * string * nat) :=
  match fuel with
  | O => None
  | S f =>
      let finish := mk_alt (rev (mk_seq (rev terms) :: alts)) in
      let continue (a : regex) (rest : string) (g' : nat) :=
        let '(t, rest') := quantified a rest in
        parse f rest' g' alts (t :: terms) in
      match s with
      | EmptyString => Some (finish, s, g)
      | String ")" _ => Some (finish, s, g)
      | String "|" s' => parse f s' g (mk_seq (rev terms) :: alts) []
      | String "(" (String "?" (String ":" s')) =>
          match parse f s' g [] [] with
          | Some (r, String ")" rest, g') => continue r rest g'
          | _ => None
          end
      | String "(" s' =>
          match parse f s' (S g) [] [] with
          | Some (r, String ")" rest, g') => continue (Group (S g) r) rest g'
          | _ => None
          end
      | String "\" (String c s') =>
          match escape c with
          | Some a => continue a s' g
          | None => None
          end
      | String "." s' => continue (Cls Dot) s' g
      | String "^" s' => continue Bol s' g
      | String "$" s' => continue Eol s' g
      | String c s' =>
          if existsb (Ascii.eqb c) ["*"; "+"; "?"; "["; "]"; "{"; "}"; "\"]%char
          then None
          else continue (Chr c) s' g
      end
  end.

(** A compiled pattern: its expression, its number of capturing groups and
    its flags. *)
Record RegExp := {
  source : string;
  expr : regex;
  ngroups : nat;
  ignoreCase : bool;
  global : bool
}.

Definition compile (src : string) (i g : bool) : RegExp :=
  match parse (2 * String.length src + 2) src 0 [] [] with
  | Some (r, EmptyString, n) =>
      {| source := src; expr := r; ngroups := n; ignoreCase := i; global := g |}
  | _ =>
      {| source := src; expr := Never; ngroups := 0; ignoreCase := i; global := g |}
  end.

(** The pattern is in the supported syntax. *)
Definition well_formed (src : string) : bool :=
  match parse (2 * String.length src + 2) src 0 [] [] with
  | Some (_, EmptyString, _) => true
  | _ => false
  end.

(** [/src/i] and [/src/gi] *)
Definition re_i (src : string) : RegExp := compile src true false.
Definition re_gi (src : string) : RegExp := compile src true true.

(** ** Matching *)

(** The matcher's state: the character before the current position, the
    input from the current position on, the position, and the captures
    (group [i] at index [i]; index 0 is not used). *)
Record mstate := {
  prev : option ascii;
  rest : string;
  pos : nat;
  caps : list (option string)
}.

Definition in_class (k : class) (c : ascii) : bool :=
  match k with
  | Digit => is_digit c
  | Word => is_word c
  | Space => is_space c
  | Dot => negb (is_line_terminator c)
  end.

(** Canonicalize, for the [i] flag. *)
Definition canonicalize (icase : bool) (c : ascii) : ascii :=
  if icase then upper_char c else c.

Definition step (p : ascii -> bool) (st : mstate) (k : mstate -> option mstate)
  : option mstate :=
  match rest st with
  | String c s' =>
      if p c then k {| prev := Some c; rest := s'; pos := S (pos st); caps := caps st |}
      else None
  | EmptyString => None
  end.

Definition is_word_opt (c : option ascii) : bool :=
  match c with Some c => is_word c | None => false end.

Definition head (s : string) : option ascii :=
  match s with String c _ => Some c | EmptyString => None end.

Fixpoint set_nth {A} (i : nat) (x : A) (l : list A) : list A :=
  match i, l with
  | O, _ :: l' => x :: l'
  | S i', y :: l' => y :: set_nth i' x l'
  | _, [] => []
  end.

Definition or_else {A} (a : option A) (b : option A) : option A :=
  match a with Some _ => a | None => b end.

(** The capturing groups inside an expression. *)
Fixpoint groups_of (r : regex) : list nat :=
  match r with
  | Seq r1 r2 | Alt r1 r2 => groups_of r1 ++ groups_of r2
  | Star _ r1 => groups_of r1
  | Group i r1 => i :: groups_of r1
  | _ => []
  end.

(** The state with the captures of the groups [gs] undefined again. *)
Definition reset_groups (gs : list nat) (st : mstate) : mstate :=
  {| prev := prev st; rest := rest st; pos := pos st;
     caps := fold_left (fun cs i => set_nth i None cs) gs (caps st) |}.

(** The iterations of a star over the matcher [mr] of its body, whose
    groups are [gs]: another iteration, which starts with those groups
    undefined and must consume something, and the continuation [k], in the
    order of the quantifier's greed. The fuel bounds the iterations by the
    length of the input that is left. *)
Fixpoint star_loop (mr : mstate -> (mstate -> option mstate) -> option mstate)
  (gs : list nat) (greedy : bool) (k : mstate -> option mstate) (fuel : nat)
  (st : mstate) {struct fuel} : option mstate :=
  match fuel with
  | O => k st
  | S f =>
      let again :=
        mr (reset_groups gs st) (fun st' =>
          if (pos st <? pos st')%nat then star_loop mr gs greedy k f st' else None) in
      if greedy then or_else again (k st) else or_else (k st) again
  end.

(** The state at the end of group [i], opened at [st] and closed at [st']. *)
Definition close_group (i : nat) (st st' : mstate) : mstate :=
  {| prev := prev st'; rest := rest st'; pos := pos st';
     caps := set_nth i (Some (substring 0 (pos st' - pos st) (rest st)))
                     (caps st') |}.

(** The backtracking matcher, in continuation-passing style: [m r st k]
    matches [r] at [st] and passes each end state to [k] in priority
    order, until [k] succeeds. *)
Fixpoint m (icase : bool) (r : regex) (st : mstate) (k : mstate -> option mstate)
  {struct r} : option mstate :=
  match r with
  | Empty => k st
  | Never => None
  | Chr c => step (fun d => Ascii.eqb (canonicalize icase c) (canonicalize icase d)) st k
  | Cls cl => step (in_class cl) st k
  | Seq r1 r2 => m icase r1 st (fun st' => m icase r2 st' k)
  | Alt r1 r2 => or_else (m icase r1 st k) (m icase r2 st k)
  | Group i r1 => m icase r1 st (fun st' => k (close_group i st st'))
  | Star greedy r1 =>
      star_loop (m icase r1) (groups_of r1) greedy k (S (String.length (rest st))) st
  | Bol => if (pos st =? 0)%nat then k st else None
  | Eol => match rest st with EmptyString => k st | _ => None end
  | WordBoundary =>
      if xorb (is_word_opt (prev st)) (is_word_opt (head (rest st)))
      then k st else None
  end.

(** The result of a successful match: [match.index], [match.input] and the
    elements [match[0]], [match[1]], ... *)
Record RegExpMatchArray := {
  index : nat;
  input : string;
  elements : list (option string)
}.

(** [match[i]]; [None] is [undefined]. *)
Definition get (mt : RegExpMatchArray) (i : nat) : option string :=
  nth i (elements mt) None.

(** The leftmost match of [r] in [s] (the part of the input from [p] on). *)
Fixpoint search (r : RegExp) (whole : string) (pr : option ascii) (s : string) (p : nat)
  : option RegExpMatchArray :=
  let st := {| prev := pr; rest := s; pos := p; caps := repeat None (S (ngroups r)) |} in
  match m (ignoreCase r) (expr r) st Some with
  | Some st' =>
      Some {| index := p; input := whole;
              elements := Some (substring 0 (pos st' - p) s) :: tl (caps st') |}
  | None =>
      match s with
      | String c s' => search r whole (Some c) s' (S p)
      | EmptyString => None
      end
  end.

(** [s.match(r)] for a pattern without the [g] flag; [None] is [null]. *)
Definition exec (r : RegExp) (s : string) : option RegExpMatchArray :=
  search r s None s 0.

(** [s.match(r)] for a pattern with the [g] flag: the texts of the
    successive matches, or [null]. *)
Fixpoint all_matches (fuel : nat) (r : RegExp) (whole : string) (pr : option ascii)
  (s : string) (p : nat) : list string :=
  match fuel with
  | O => []
  | S f =>
      match search r whole pr s p with
      | Some mt =>
          let text := match get mt 0 with Some t => t | None => "" end in
          let skip := (index mt - p + Nat.max 1 (String.length text))%nat in
          let pr' := match skip with
                     | O => pr
                     | S i => or_else (String.get i s) pr
                     end in
          if (String.length s <? skip)%nat then [text]
          else text :: all_matches f r whole pr' (substring skip (String.length s) s) (p + skip)
      | None => []
      end
  end.

Definition match_global (r : RegExp) (s : string) : option (list string) :=
  match all_matches (S (String.length s)) r s None s 0 with
  | [] => None
  | l => Some l
  end.

(** ** Vocabulary of the properties *)

(** From [st] to [st1] the captures keep their number, and change only at
    the groups [gs]. *)
Definition framed (gs : list nat) (st st1 : mstate) : Prop :=
  List.length (caps st1) = List.length (caps st) /\
  forall i, ~ In i gs -> nth_error (caps st1) i = nth_error (caps st) i.

(** Group [i] is defined in [st]. *)
Definition captured (i : nat) (st : mstate) : Prop :=
  exists t, nth_error (caps st) i = Some (Some t).

(** Every match of [r] defines group [i]. *)
Fixpoint sets (i : nat) (r : regex) : bool :=
  match r with
  | Seq r1 r2 =>
      (sets i r1 && negb (existsb (Nat.eqb i) (groups_of r2))) || sets i r2
  | Alt r1 r2 => sets i r1 && sets i r2
  | Group j r1 => Nat.eqb i j || sets i r1
  | _ => false
  end.

(** What a match of [r] from [st] to [st1] does to the captures. *)
Definition reach (r : regex) (st st1 : mstate) : Prop :=
  framed (groups_of r) st st1 /\
  forall i, (i < List.length (caps st))%nat -> sets i r = true -> captured i st1.

(** A matcher whose result is the continuation's, at a state it reaches. *)
Definition sound (R : mstate -> mstate -> Prop)
  (mr : mstate -> (mstate -> option mstate) -> option mstate) : Prop :=
  forall st k res, mr st k = Some res -> exists st1, k st1 = Some res /\ R st st1.

End RegExp.

(* ===================================================================== *)
(** * The natural-language processor *)

Import JsString JsNumber RegExp.
Local Open Scope string_scope.

(** ** Token registry *)

Record TokenInfo := {
  name : string;
  decimals : Z;
  description : string;
  useCases : string;
  price_range : string;
  trend_indicators : list string;
  category : string;
  year_launched : Z;
  market_sentiment : string;
  issuer : string
}.

Definition TOKEN_INFO : list (string * TokenInfo) := [
  ("SOL", {| name := "Solana"; decimals := 9;
     description := "Native token of the Solana blockchain, known for high throughput and low fees";
     useCases := "Transaction fees, staking, governance, DeFi collateral";
     price_range := "$20-$100 historically";
     trend_indicators := ["Ecosystem growth"; "Developer activity"; "DeFi TVL"];
     category := "L1 blockchain"; year_launched := 2020;
     market_sentiment := "Bullish after 2023 recovery";
     issuer := "Solana Foundation" |});
  ("USDC", {| name := "USD Coin"; decimals := 6;
     description := "A regulated stablecoin pegged to the US dollar issued by Circle";
     useCases := "Store of value, trading pairs, cross-border payments, yield farming";
     price_range := "~$1.00 (stablecoin)";
     trend_indicators := ["Regulatory compliance"; "Corporate adoption"];
     category := "Stablecoin"; year_launched := 2018;
     market_sentiment := "Stable";
     issuer := "Circle" |});
  ("USDT", {| name := "Tether"; decimals := 6;
     description := "The largest stablecoin by market cap, pegged to the US dollar";
     useCases := "Trading pairs, store of value, global payments";
     price_range := "~$1.00 (stablecoin)";
     trend_indicators := ["Exchange reserves"; "Regulatory scrutiny"];
     category := "Stablecoin"; year_launched := 2014;
     market_sentiment := "Stable";
     issuer := "Tether Limited" |});
  ("BONK", {| name := "Bonk"; decimals := 5;
     description := "A community-focused Solana meme coin with the Shiba Inu dog mascot";
     useCases := "Community engagement, tipping, NFT purchases on Solana";
     price_range := "High volatility meme token";
     trend_indicators := ["Social media mentions"; "Community engagement"; "Whale movements"];
     category := "Meme coin"; year_launched := 2022;
     market_sentiment := "Cyclical hype patterns";
     issuer := "Bonk Community" |});
  ("JUP", {| name := "Jupiter"; decimals := 6;
     description := "Governance token for Jupiter, Solana's leading DEX aggregator";
     useCases := "Governance, fee sharing, liquidity provision incentives";
     price_range := "Trending upward since 2024 launch";
     trend_indicators := ["Trading volume"; "TVL growth"; "Protocol revenue"];
     category := "DEX token"; year_launched := 2024;
     market_sentiment := "Strong as leading Solana DEX";
     issuer := "Jupiter Community" |});
  ("JTO", {| name := "Jito"; decimals := 9;
     description := "Governance token for Jito's MEV infrastructure on Solana";
     useCases := "Governance, staking, revenue sharing";
     price_range := "Stable with growth potential";
     trend_indicators := ["Validator adoption"; "Solana block production stats"];
     category := "Infrastructure token"; year_launched := 2023;
     market_sentiment := "Technical adoption focus";
     issuer := "Jito Network" |});
  ("RAY", {| name := "Raydium"; decimals := 6;
     description := "AMM and liquidity provider on Solana with concentrated liquidity features";
     useCases := "Trading, liquidity provision, yield farming";
     price_range := "DeFi token with moderate volatility";
     trend_indicators := ["TVL"; "Trading fees generated"; "New pool launches"];
     category := "DEX token"; year_launched := 2021;
     market_sentiment := "Recovering alongside Solana DeFi ecosystem";
     issuer := "Raydium Community" |});
  ("PYTH", {| name := "Pyth Network"; decimals := 6;
     description := "Oracle protocol providing real-time market data across blockchains";
     useCases := "Governance, staking for data validation";
     price_range := "Varies with market conditions";
     trend_indicators := ["Growing adoption"; "Strong community"];
     category := "Oracle token"; year_launched := 2023;
     market_sentiment := "Positive";
     issuer := "Pyth Network" |});
  ("MEME", {| name := "Memecoin"; decimals := 6;
     description := "Multi-chain meme token focused on internet culture and humor";
     useCases := "Community engagement, memetic value";
     price_range := "Highly volatile, follows meme cycles";
     trend_indicators := ["Social media virality"; "Celebrity mentions"; "New exchange listings"];
     category := "Meme coin"; year_launched := 2023;
     market_sentiment := "Follows broader meme coin trends";
     issuer := "Memecoin Community" |});
  ("WIF", {| name := "Dogwifhat"; decimals := 6;
     description := "Solana meme coin featuring a dog wearing a pink hat, went viral in 2023";
     useCases := "Community status, NFT integration";
     price_range := "Extremely volatile, reached major peaks in 2023-2024";
     trend_indicators := ["Twitter mentions"; "Influencer activity"; "New listings"];
     category := "Meme coin"; year_launched := 2023;
     market_sentiment := "One of Solana's most successful meme coins";
     issuer := "Dogwifhat Community" |});
  ("AKT", {| name := "Akash Network Token"; decimals := 6;
     description := "Decentralized cloud computing token";
     useCases := "Decentralized cloud computing";
     price_range := "Varies with market conditions";
     trend_indicators := ["Growing adoption"; "Strong community"];
     category := "Infrastructure"; year_launched := 2020;
     market_sentiment := "Positive";
     issuer := "Akash Network" |})
].

(** [obj[key]] on a record of own string keys *)
Fixpoint lookup {A} (key : string) (obj : list (string * A)) : option A :=
  match obj with
  | [] => None
  | (k, v) :: rest => if String.eqb k key then Some v else lookup key rest
  end.

(** [obj[key] = v] *)
Fixpoint assign {A} (key : string) (v : A) (obj : list (string * A)) : list (string * A) :=
  match obj with
  | [] => [(key, v)]
  | (k, w) :: rest =>
      if String.eqb k key then (k, v) :: rest else (k, w) :: assign key v rest
  end.

(** [Object.keys(obj)] *)
Definition keys {A} (obj : list (string * A)) : list string := map fst obj.

Definition SUPPORTED_TOKENS : list string := keys TOKEN_INFO.

(** ** General conversation *)

Definition GENERAL_KNOWLEDGE : list (string * list string) := [
  ("greetings", [
     "Hello! How can I help with your Web3 journey today?";
     "Hi there! I'm your AI assistant for Web3 and crypto. What can I do for you?";
     "Hey! Ready to explore the blockchain world together?"]);
  ("thanks", [
     "You're welcome! Happy to assist with your crypto needs.";
     "Anytime! Let me know if you need anything else related to blockchain.";
     "Glad I could help! Feel free to ask more about Web3."]);
  ("identity", [
     "I'm an AI assistant specialized in Web3 and cryptocurrency. While I can chat about general topics, I'm most knowledgeable about blockchain technology, Solana, and token swaps.";
     "I'm your Web3 AI Wallet assistant. I can help with token swaps, provide crypto information, and chat about various topics, though my expertise is in blockchain."]);
  ("capabilities", [
     "I can help you swap tokens on Solana, check token prices and balances, provide information about cryptocurrencies, and chat about various topics. Try asking me to 'Swap 1 SOL to USDC' or 'Tell me about NFTs'."])
].

Definition CONVERSATION_PATTERNS : list (string * list RegExp) := [
  ("greeting", [
     re_i "^(?:hi|hello|hey|howdy|greetings|good\s+(?:morning|afternoon|evening)|what'?s\s+up)"]);
  ("farewell", [
     re_i "^(?:bye|goodbye|see\s+you|farewell|later|have\s+a\s+(?:good|nice|great)\s+(?:day|night|evening))"]);
  ("thanks", [
     re_i "^(?:thanks|thank\s+you|thx|ty|appreciate\s+(?:it|you))"]);
  ("identity", [
     re_i "(?:who|what)\s+are\s+you";
     re_i "tell\s+(?:me\s+)?about\s+yourself"]);
  ("capabilities", [
     re_i "what\s+can\s+you\s+do";
     re_i "help\s+me\s+with";
     re_i "how\s+does\s+this\s+(?:work|app\s+work)"]);
  ("joke", [
     re_i "tell\s+(?:me\s+)?a\s+(?:joke|crypto\s+joke)"])
].

Definition CRYPTO_JOKES : list string := [
  "Why don't programmers like nature? It has too many bugs and no debugging tools!";
  "Why did the blockchain go to therapy? It had too many trust issues!";
  "How many Bitcoin miners does it take to change a lightbulb? 21 million, but only one gets the reward!";
  "Why did the crypto investor go to the dentist? Because of the tooth decay... just like their portfolio in a bear market!";
  "What do you call a cryptocurrency investor who finally breaks even? A miracle!"
].

(** ** Requests, responses and state *)

Section Processor.

(** The transaction and date types of the transaction-history service. *)
Variables Transaction Date : Type.

Record Context := {
  walletConnected : bool;
  walletAddress : option string;
  balance : number;
  tokenBalances : list (string * number);
  expertiseLevel : option string;
  originalPrompt : option string
}.

Record DateRange := {
  startDate : option Date;
  endDate : option Date
}.

Record Query := {
  limit : Z;
  dateRange : option DateRange;
  queryToken : option string;
  queryType : option string
}.

(** The [intent] payloads, one constructor per shape; [IntentNull] is
    [intent: null]. *)
Inductive Intent :=
| IntentNull
| SwapIntent (token : option string) (price : number)
| BalanceIntent (address : option string)
| TokenInfoIntent (token : string)
| PriceIntent (token : option string)
| HistoryIntent (success : bool) (transactions : option (list Transaction))
| MarketTrendsIntent
| HelpIntent
| TransferIntent (recipient : string) (amount : number) (token : string)
| CryptoKnowledgeIntent (topic : string)
| MarketAnalysisIntent (level : string)
| InvestmentEducationIntent (topic : string).

(** [intent.action] *)
Definition action (i : Intent) : option string :=
  match i with
  | IntentNull => None
  | SwapIntent _ _ => Some "swap"
  | BalanceIntent _ => Some "balance"
  | TokenInfoIntent _ => Some "tokenInfo"
  | PriceIntent _ => Some "price"
  | HistoryIntent _ _ => Some "history"
  | MarketTrendsIntent => Some "marketTrends"
  | HelpIntent => Some "help"
  | TransferIntent _ _ _ => Some "transfer"
  | CryptoKnowledgeIntent _ => Some "crypto_knowledge"
  | MarketAnalysisIntent _ => Some "marketAnalysis"
  | InvestmentEducationIntent _ => Some "investment_education"
  end.

(** A response; [None] for a property that the object does not have. *)
Record Response := {
  message : string;
  intent : option Intent;
  suggestions : option (list string)
}.

Record TokenPriceData := {
  cachedPrice : number;
  timestamp : Z
}.

Record UserPreferences := {
  favoriteTokens : list string;
  swapHistory : list (string * string * string);
  preferredActions : list string;
  interactionStyle : string
}.

Record ConversationContext := {
  recentTopics : list string;
  recentTokens : list string;
  userPreferences : UserPreferences;
  sessionStartTime : Z;
  suggestedNextActions : list string
}.

(** The module-level variables, and the number of [Math.random()] calls
    made so far. *)
Record State := {
  conversationContext : ConversationContext;
  cachedTokenPrices : list (string * TokenPriceData);
  randomCalls : nat
}.

(** The imported collaborators and the host: address detection, the price
    feed, the transaction-history and knowledge services, the clock and the
    successive results of [Math.random()]. *)
Record Env := {
  detectSolanaAddress : string -> option string;
  fetchTokenPrice : string -> Completion (option number);
  parseDateQuery : string -> Completion DateRange;
  getTransactionsForDateRange :
    option string -> Query -> Completion (option (list Transaction));
  formatTransactionsForDisplay : list Transaction -> Completion string;
  getMarketAnalysis : string -> Completion unit;
  Date_now : Z;
  Math_random : nat -> number
}.

Variable env : Env.

(** ** Computations over the state that may throw *)

Definition M (A : Type) : Type := State -> Completion A * State.

Definition ret {A} (a : A) : M A := fun s => (Normal a, s).

Definition bind {A B} (c : M A) (k : A -> M B) : M B :=
  fun s =>
    match c s with
    | (Normal a, s') => k a s'
    | (Throw e, s') => (Throw e, s')
    end.

Definition throw {A} (e : JsError) : M A := fun s => (Throw e, s).

Definition lift {A} (c : Completion A) : M A := fun s => (c, s).

Definition get_state : M State := fun s => (Normal s, s).

(** [try { c } catch (error) { h }] *)
Definition catch {A} (c : M A) (h : JsError -> M A) : M A :=
  fun s =>
    match c s with
    | (Normal a, s') => (Normal a, s')
    | (Throw e, s') => h e s'
    end.

Notation "x <- c ;; k" := (bind c (fun x => k))
  (at level 61, c at next level, right associativity).
Notation "c ;;; k" := (bind c (fun _ => k))
  (at level 61, right associativity).

(** Reading a property of [undefined] throws a TypeError. *)
Definition defined {A} (o : option A) (what : string) : M A :=
  match o with
  | Some a => ret a
  | None => throw (TypeError what)
  end.

(** [Math.random()] *)
Definition random : M number :=
  fun s =>
    (Normal (Math_random env (randomCalls s)),
     {| conversationContext := conversationContext s;
        cachedTokenPrices := cachedTokenPrices s;
        randomCalls := S (randomCalls s) |}).

Definition set_conversationContext (c : ConversationContext) : M unit :=
  fun s =>
    (Normal tt,
     {| conversationContext := c;
        cachedTokenPrices := cachedTokenPrices s;
        randomCalls := randomCalls s |}).

Definition set_cachedTokenPrices (c : list (string * TokenPriceData)) : M unit :=
  fun s =>
    (Normal tt,
     {| conversationContext := conversationContext s;
        cachedTokenPrices := c;
        randomCalls := randomCalls s |}).

(** ** Conversation memory *)

(** [xs.includes(x)] *)
Definition array_includes (xs : list string) (x : string) : bool :=
  existsb (String.eqb x) xs.

(** [xs.unshift(x); if (xs.length > cap) xs.pop();] *)
Definition unshift_capped (cap : nat) (x : string) (xs : list string) : list string :=
  let xs' := x :: xs in
  if (cap <? List.length xs')%nat then removelast xs' else xs'.

(** [xs[0]] when it is truthy *)
Definition first_truthy (xs : list string) : option string :=
  match xs with
  | x :: _ => if JsString.truthy x then Some x else None
  | [] => None
  end.

Definition or_default (o : option string) (d : string) : string :=
  match o with Some x => x | None => d end.

Definition generateSuggestions (c : ConversationContext) : ConversationContext :=
  let topic := List.hd_error (recentTopics c) in
  let topic_is (t : string) :=
    match topic with Some t' => String.eqb t' t | None => false end in
  let s1 :=
    if topic_is "balance"
    then ["Swap 1 SOL to USDC"; "Show my transaction history"] else [] in
  let s2 :=
    match topic_is "tokenInfo", first_truthy (recentTokens c) with
    | true, Some token =>
        [ if negb (String.eqb token "SOL")
          then "Swap 10 " ++ token ++ " to SOL"
          else "Swap 1 SOL to " ++
               or_default (first_truthy (favoriteTokens (userPreferences c))) "USDC";
          "What are the market trends?" ]
    | _, _ => []
    end in
  let s3 :=
    if topic_is "marketTrends"
    then ["Tell me about " ++ or_default (first_truthy (recentTokens c)) "JUP";
          "Check my balance"]
    else [] in
  let s4 :=
    if topic_is "history"
    then ["Check my balance"; "What are the market trends?"] else [] in
  let s5 :=
    if topic_is "swap"
    then ["Check my balance"; "Show my transaction history"] else [] in
  let collected := (s1 ++ s2 ++ s3 ++ s4 ++ s5)%list in
  let all :=
    match collected with
    | [] => ["What tokens do you support?"; "Check my balance";
             "What are the market trends?"]
    | _ => collected
    end in
  {| recentTopics := recentTopics c;
     recentTokens := recentTokens c;
     userPreferences := userPreferences c;
     sessionStartTime := sessionStartTime c;
     suggestedNextActions := firstn 3 all |}.

(** The first block of [updateConversationContext]: a truthy
    [matchedOperation] enters [recentTopics] and, when new,
    [preferredActions]. *)
Definition record_operation (matchedOperation : option string)
  (c : ConversationContext) : ConversationContext :=
  match matchedOperation with
  | Some op =>
      if JsString.truthy op then
        let p := userPreferences c in
        {| recentTopics := unshift_capped 8 op (recentTopics c);
           recentTokens := recentTokens c;
           userPreferences :=
             {| favoriteTokens := favoriteTokens p;
                swapHistory := swapHistory p;
                preferredActions :=
                  if negb (array_includes (preferredActions p) op)
                  then unshift_capped 3 op (preferredActions p)
                  else preferredActions p;
                interactionStyle := interactionStyle p |};
           sessionStartTime := sessionStartTime c;
           suggestedNextActions := suggestedNextActions c |}
      else c
  | None => c
  end.

(** One turn of the loop over [tokensMentioned]. *)
Definition record_token (c : ConversationContext) (token : string)
  : ConversationContext :=
  let p := userPreferences c in
  {| recentTopics := recentTopics c;
     recentTokens := unshift_capped 10 token (recentTokens c);
     userPreferences :=
       {| favoriteTokens :=
            if negb (array_includes (favoriteTokens p) token)
            then unshift_capped 5 token (favoriteTokens p)
            else favoriteTokens p;
          swapHistory := swapHistory p;
          preferredActions := preferredActions p;
          interactionStyle := interactionStyle p |};
     sessionStartTime := sessionStartTime c;
     suggestedNextActions := suggestedNextActions c |}.

Definition technicalTerms : list string :=
  ["tvl"; "liquidity"; "amm"; "slippage"; "liquidity pool"; "apy"; "yield"].
Definition casualTerms : list string :=
  ["moon"; "dump"; "pump"; "wen"; "lambo"; "fomo"; "yolo"].

Definition infer_style (userInput : string) (c : ConversationContext)
  : ConversationContext :=
  let lowerInput := toLowerCase userInput in
  let hasTechnical := existsb (fun term => includes lowerInput term) technicalTerms in
  let hasCasual := existsb (fun term => includes lowerInput term) casualTerms in
  let p := userPreferences c in
  let style :=
    if hasTechnical && negb hasCasual then "technical"
    else if hasCasual && negb hasTechnical then "casual"
    else interactionStyle p in
  {| recentTopics := recentTopics c;
     recentTokens := recentTokens c;
     userPreferences :=
       {| favoriteTokens := favoriteTokens p;
          swapHistory := swapHistory p;
          preferredActions := preferredActions p;
          interactionStyle := style |};
     sessionStartTime := sessionStartTime c;
     suggestedNextActions := suggestedNextActions c |}.

Definition updateConversationContext (userInput : string)
  (matchedOperation : option string) (tokensMentioned : list string)
  (c : ConversationContext) : ConversationContext :=
  generateSuggestions
    (infer_style userInput
       (fold_left record_token tokensMentioned
          (record_operation matchedOperation c))).

(** A call of [updateConversationContext]. *)
Record UpdateCall := {
  call_input : string;
  call_operation : option string;
  call_tokens : list string
}.

(** A sequence of calls, the first call first. *)
Definition run_updates (calls : list UpdateCall) (c : ConversationContext)
  : ConversationContext :=
  fold_left
    (fun c call =>
       updateConversationContext (call_input call) (call_operation call)
                                 (call_tokens call) c)
    calls c.

(** The tokens that the calls insert, in order of insertion. *)
Definition inserted_tokens (calls : list UpdateCall) : list string :=
  flat_map call_tokens calls.

(** The four buffers within their caps. *)
Definition within_caps (c : ConversationContext) : Prop :=
  (List.length (recentTopics c) <= 8)%nat /\
  (List.length (recentTokens c) <= 10)%nat /\
  (List.length (preferredActions (userPreferences c)) <= 3)%nat /\
  (List.length (favoriteTokens (userPreferences c)) <= 5)%nat.

(** The conversation context at module load. *)
Definition initialConversationContext (now : Z) : ConversationContext :=
  {| recentTopics := [];
     recentTokens := [];
     userPreferences :=
       {| favoriteTokens := []; swapHistory := []; preferredActions := [];
          interactionStyle := "neutral" |};
     sessionStartTime := now;
     suggestedNextActions := [] |}.

Definition initialState (now : Z) : State :=
  {| conversationContext := initialConversationContext now;
     cachedTokenPrices := [];
     randomCalls := 0 |}.

(** [cond && Math.random() > threshold]: the draw is made only when [cond]
    holds. *)
Definition and_random_above (cond : bool) (threshold : number) : M bool :=
  if cond then r <- random ;; ret (gt r threshold) else ret false.

Definition getPersonalizedTips (context : Context) : M (option string) :=
  s <- get_state ;;
  let c := conversationContext s in
  let topics := recentTopics c in
  t1 <- and_random_above
          (array_includes topics "balance" && negb (array_includes topics "swap"))
          (of_decimal false 6 (-1)) ;;
  if t1 then
    ret (Some "Tip: You can swap your SOL for other tokens by typing 'Swap 1 SOL to USDC'.")
  else
  t2 <- and_random_above
          (array_includes topics "swap" && negb (array_includes topics "tokenInfo"))
          (of_decimal false 6 (-1)) ;;
  match (if t2 then
           match first_truthy (favoriteTokens (userPreferences c)) with
           | Some t => Some t
           | None => first_truthy (recentTokens c)
           end
         else None) with
  | Some favoriteToken =>
      ret (Some ("Tip: You can learn more about " ++ favoriteToken ++
                 " by asking " ++ dq ++ "Tell me about " ++ favoriteToken ++ dq ++ "."))
  | None =>
  if walletConnected context && lt (balance context) (of_decimal false 5 (-2)) then
    ret (Some "Tip: Your SOL balance is low. You'll need SOL to pay for transaction fees when swapping tokens.")
  else
  t4 <- and_random_above
          (negb (array_includes topics "marketTrends") &&
           (0 <? List.length (recentTokens c))%nat)
          (of_decimal false 7 (-1)) ;;
  if t4 then
    ret (Some "Tip: Ask 'What are the market trends?' to get insights on current token performance.")
  else
  t5 <- and_random_above
          (walletConnected context && (2 <? List.length topics)%nat &&
           negb (array_includes topics "history"))
          (of_decimal false 7 (-1)) ;;
  if t5 then
    ret (Some "Tip: You can view your recent transactions by asking 'Show my transaction history'.")
  else ret None
  end.

(** ** General chat *)

(** [Math.floor(x)] as an array index; [None] when it is not one. *)
Definition floor_index (x : number) : option nat :=
  match x with
  | S754_zero _ => Some O
  | S754_finite false _ _ => Some (Z.to_nat (Qfloor (to_Q x)))
  | _ => None
  end.

(** [xs[Math.floor(Math.random() * xs.length)]]. [Math.random()] lies in
    [0, 1), which keeps the index in range; the text of [undefined] stands
    for an element out of range. *)
Definition pick (xs : list string) : M string :=
  r <- random ;;
  match floor_index (mul r (of_Z (Z.of_nat (List.length xs)))) with
  | Some i => ret (nth i xs "undefined")
  | None => ret "undefined"
  end.

Definition or_default_list (o : option (list string)) : list string :=
  match o with Some xs => xs | None => [] end.

Definition only_message (msg : string) : Response :=
  {| message := msg; intent := None; suggestions := None |}.

Definition matches_any (patterns : list RegExp) (s : string) : bool :=
  existsb (fun p => match exec p s with Some _ => true | None => false end) patterns.

(** The reply to a prompt that matched a pattern of [type]; [None] when no
    branch of the chain is for [type]. *)
Definition general_reply (type : string) : option (M Response) :=
  if String.eqb type "greeting" then
    Some (msg <- pick (or_default_list (lookup "greetings" GENERAL_KNOWLEDGE)) ;;
          ret (only_message msg))
  else if String.eqb type "farewell" then
    Some (ret (only_message "Goodbye! Feel free to return whenever you have Web3 questions or want to make transactions."))
  else if String.eqb type "thanks" then
    Some (msg <- pick (or_default_list (lookup "thanks" GENERAL_KNOWLEDGE)) ;;
          ret (only_message msg))
  else if String.eqb type "identity" then
    Some (msg <- pick (or_default_list (lookup "identity" GENERAL_KNOWLEDGE)) ;;
          ret (only_message msg))
  else if String.eqb type "capabilities" then
    Some (msg <- pick (or_default_list (lookup "capabilities" GENERAL_KNOWLEDGE)) ;;
          ret (only_message msg))
  else if String.eqb type "joke" then
    Some (msg <- pick CRYPTO_JOKES ;;
          ret (only_message msg))
  else None.

Fixpoint chat_loop (entries : list (string * list RegExp)) (prompt : string)
  : M Response :=
  match entries with
  | (type, patterns) :: rest =>
      match (if matches_any patterns prompt then general_reply type else None) with
      | Some reply => reply
      | None => chat_loop rest prompt
      end
  | [] =>
      ret (only_message "I'm here to help with Web3 and blockchain topics primarily! You can ask me to swap tokens, check prices, or learn about crypto concepts. I can also chat about other topics, but my expertise is in the blockchain space.")
  end.

Definition handleGeneralChat (prompt : string) : M Response :=
  chat_loop CONVERSATION_PATTERNS prompt.

(** ** Operations *)

Record Operation := {
  op_description : string;
  patterns : list RegExp;
  handler : RegExpMatchArray -> Context -> M Response
}.

(** [parseFloat(x)] where [x] may be [undefined] *)
Definition parseFloat_arg (x : option string) : number :=
  match x with
  | Some s => parseFloat s
  | None => NaN
  end.

(** [`${x}`] for a string or [null] *)
Definition show_nullable (x : option string) : string := or_default x "null".

(** [`${x?.slice(0, 4)}...${x?.slice(-4)}`] *)
Definition abbreviate (x : option string) : string :=
  match x with
  | Some a => slice_to 4 a ++ "..." ++ slice_last 4 a
  | None => "undefined...undefined"
  end.

(** The price lookup inside the [try] blocks of the balance and token-info
    handlers: the cached price while it is younger than 60 seconds,
    otherwise a fetched one, which enters the cache when it is truthy. *)
Definition current_price (symbol : string) : M (option number) :=
  s <- get_state ;;
  let now := Date_now env in
  let isCacheValid :=
    match lookup symbol (cachedTokenPrices s) with
    | Some entry => (now - timestamp entry <? 60000)%Z
    | None => false
    end in
  if negb isCacheValid then
    fetched <- lift (fetchTokenPrice env symbol) ;;
    match fetched with
    | Some price =>
        if JsNumber.truthy price then
          set_cachedTokenPrices
            (assign symbol {| cachedPrice := price; timestamp := now |}
                    (cachedTokenPrices s)) ;;;
          ret fetched
        else ret fetched
    | None => ret None
    end
  else
    ret (option_map cachedPrice (lookup symbol (cachedTokenPrices s))).

Definition truthy_price (p : option number) : option number :=
  match p with
  | Some x => if JsNumber.truthy x then Some x else None
  | None => None
  end.

Definition swap_handler (mt : RegExpMatchArray) (context : Context) : M Response :=
  ret {| message := "Swap operation initiated";
         intent := Some (SwapIntent (get mt 2) (parseFloat_arg (get mt 1)));
         suggestions := None |}.

Definition balance_handler (_ : RegExpMatchArray) (context : Context) : M Response :=
  if negb (walletConnected context) then
    ret {| message := "Please connect your wallet first to check your balance.";
           intent := Some IntentNull;
           suggestions := None |}
  else
    priceInfo <-
      catch (solPrice <- current_price "SOL" ;;
             match truthy_price solPrice with
             | Some price =>
                 let dollarValue := mul (balance context) price in
                 ret (" (≈$" ++ toFixed dollarValue 2 ++ ")")
             | None => ret ""
             end)
            (fun _ => ret "") ;;
    ret {| message :=
             "Your current wallet balance is " ++ toFixed (balance context) 4 ++
             " SOL" ++ priceInfo ++ " (" ++ abbreviate (walletAddress context) ++
             "). You can use this balance to swap tokens or perform other operations.";
           intent := Some (BalanceIntent (walletAddress context));
           suggestions := None |}.

Definition tokenInfo_handler (mt : RegExpMatchArray) (_ : Context) : M Response :=
  captured <- defined (get mt 1) "toUpperCase" ;;
  let tokenSymbol := toUpperCase captured in
  match lookup tokenSymbol TOKEN_INFO with
  | None =>
      ret {| message :=
               "I don't have information about " ++ captured ++
               ". Currently I have data on: " ++ join ", " (keys TOKEN_INFO);
             intent := Some IntentNull;
             suggestions := None |}
  | Some tokenInfo =>
      priceInfo <-
        catch (tokenPrice <- current_price tokenSymbol ;;
               match truthy_price tokenPrice with
               | Some price =>
                   let digits :=
                     if String.eqb tokenSymbol "BONK" || String.eqb tokenSymbol "WIF"
                     then 8%nat else 2%nat in
                   ret (nl ++ nl ++ "Current price: $" ++ toFixed price digits)
               | None => ret ""
               end)
              (fun _ => ret "") ;;
      let message0 :=
        tokenSymbol ++ " (" ++ name tokenInfo ++ "): " ++ description tokenInfo ++
        ". It has " ++ toString (of_Z (decimals tokenInfo)) ++
        " decimals and is commonly used for " ++ useCases tokenInfo ++ "." in
      let message1 := message0 ++ nl ++ nl ++ "Category: " ++ category tokenInfo in
      let message2 :=
        if JsNumber.truthy (of_Z (year_launched tokenInfo))
        then message1 ++ ", Launched: " ++ toString (of_Z (year_launched tokenInfo))
        else message1 in
      let message3 := message2 ++ nl ++ "Price history: " ++ price_range tokenInfo in
      let message4 :=
        if JsString.truthy (market_sentiment tokenInfo)
        then message3 ++ nl ++ "Market sentiment: " ++ market_sentiment tokenInfo
        else message3 in
      let message5 := message4 ++ priceInfo in
      let message6 :=
        if (0 <? List.length (trend_indicators tokenInfo))%nat
        then message5 ++ nl ++ nl ++ "Key trend indicators: " ++
             join ", " (trend_indicators tokenInfo)
        else message5 in
      ret {| message := message6;
             intent := Some (TokenInfoIntent tokenSymbol);
             suggestions := None |}
  end.

Definition price_handler (mt : RegExpMatchArray) (context : Context) : M Response :=
  ret {| message := "Fetching price information";
         intent := Some (PriceIntent (get mt 1));
         suggestions := None |}.

(** [s.trim()] *)
Fixpoint trim_end (s : string) : string :=
  match s with
  | EmptyString => EmptyString
  | String c s' =>
      let t := trim_end s' in
      if is_space c && String.eqb t "" then "" else String c t
  end.

Definition trim (s : string) : string := trim_end (skip_space s).

Definition datePatterns : list RegExp := [
  re_i "(?:on|from|for|during|in)\s+(.+?)(?:\s|$)";
  re_i "(.+?)\s+transactions"
].

Definition tokenPatterns : list RegExp := [
  re_gi "\b(sol|usdc|bonk|jup|usdt|wif|meme|jto)\b"
].

Definition typePatterns : list RegExp := [
  re_i "\b(swap|transfer|send|receive)\b"
].

(** The first pattern whose match has a truthy element [i], with that
    element. *)
Fixpoint first_capture (patterns : list RegExp) (i : nat) (text : string)
  : option string :=
  match patterns with
  | [] => None
  | p :: rest =>
      match exec p text with
      | Some mt =>
          match get mt i with
          | Some t => if JsString.truthy t then Some t else first_capture rest i text
          | None => first_capture rest i text
          end
      | None => first_capture rest i text
      end
  end.

(** The same for patterns with the [g] flag, whose match is the array of
    the matched texts. *)
Fixpoint first_global (patterns : list RegExp) (text : string) : option string :=
  match patterns with
  | [] => None
  | p :: rest =>
      match match_global p text with
      | Some (t :: _) => if JsString.truthy t then Some t else first_global rest text
      | _ => first_global rest text
      end
  end.

Definition history_handler (matches : RegExpMatchArray) (context : Context)
  : M Response :=
  if negb (walletConnected context) then
    ret {| message := "Please connect your wallet first to view your transaction history.";
           intent := Some IntentNull;
           suggestions := None |}
  else
    catch
      (let dateText := option_map trim (first_capture datePatterns 1 (input matches)) in
       range <-
         match dateText with
         | Some text =>
             dr <- lift (parseDateQuery env text) ;;
             match startDate dr, endDate dr with
             | None, None => ret None
             | _, _ => ret (Some dr)
             end
         | None => ret None
         end ;;
       let token := option_map toUpperCase (first_global tokenPatterns (input matches)) in
       let type :=
         option_map
           (fun t => let type := toLowerCase t in
                     if String.eqb type "send" || String.eqb type "receive"
                     then "transfer" else type)
           (first_capture typePatterns 0 (input matches)) in
       let query :=
         {| limit := 10; dateRange := range; queryToken := token; queryType := type |} in
       let details :=
         match token with Some t => " involving " ++ t | None => "" end ++
         match type with Some t => " of type " ++ t | None => "" end in
       transactions <-
         lift (getTransactionsForDateRange env (walletAddress context) query) ;;
       match transactions with
       | Some (tx :: txs) =>
           formattedHistory <- lift (formatTransactionsForDisplay env (tx :: txs)) ;;
           ret {| message :=
                    "Here are " ++
                    match dateText with
                    | Some text => "your transactions for " ++ text
                    | None => "your recent transactions"
                    end ++ details ++ ":" ++ nl ++ nl ++ formattedHistory ++ nl ++ nl ++
                    "You can see your full transaction history on Solana Explorer: https://explorer.solana.com/address/" ++
                    show_nullable (walletAddress context);
                  intent := Some (HistoryIntent true (Some (tx :: txs)));
                  suggestions := None |}
       | _ =>
           ret {| message :=
                    "I couldn't find any transactions" ++
                    match dateText with
                    | Some text => " for " ++ text
                    | None => ""
                    end ++ details ++
                    ". This could be because there was no activity during this period, or the transaction history is not available through the API.";
                  intent := Some (HistoryIntent false None);
                  suggestions := None |}
       end)
      (fun _ =>
         ret {| message := "I encountered an error while trying to fetch your transaction history. Please try again later.";
                intent := Some (HistoryIntent false None);
                suggestions := None |}).

Definition marketTrends_handler (_ : RegExpMatchArray) (context : Context)
  : M Response :=
  let overall := "The crypto market is showing a bullish pattern in the last 24 hours with most major assets gaining value." in
  let topGainers := ["SOL (+8.2%)"; "JUP (+15.4%)"; "WIF (+23.1%)"] in
  let topLosers := ["Some Token (-3.2%)"; "Another Token (-2.1%)"] in
  let solanaEcosystem := "The Solana ecosystem is outperforming the broader market with increased DeFi activity." in
  ret {| message :=
           nl ++ "## Current Market Trends" ++ nl ++ nl ++ overall ++ nl ++ nl ++
           "**Top gainers:**" ++ nl ++ join ", " topGainers ++ nl ++ nl ++
           "**Top losers:**" ++ nl ++ join ", " topLosers ++ nl ++ nl ++
           "**Solana ecosystem:**" ++ nl ++ solanaEcosystem ++ nl ++ nl ++
           (if walletConnected context
            then "Based on your wallet holdings, you might be interested in keeping an eye on SOL price movements."
            else "Connect your wallet for personalized market insights based on your holdings.") ++
           nl;
         intent := Some MarketTrendsIntent;
         suggestions := None |}.

Definition help_handler (_ : RegExpMatchArray) (context : Context) : M Response :=
  let connectionStatus :=
    if walletConnected context
    then "Your wallet (" ++ abbreviate (walletAddress context) ++
         ") is connected with " ++ toFixed (balance context) 4 ++ " SOL."
    else "Please connect your wallet to access all features." in
  ret {| message :=
           "I'm your advanced Web3 AI assistant. " ++ connectionStatus ++
           nl ++ nl ++ "Here's what I can help you with:" ++ nl ++ nl ++
           "1. **Token Swaps** - Example: " ++ dq ++ "Swap 1 SOL to USDC" ++ dq ++ nl ++
           "2. **Balance Check** - Example: " ++ dq ++ "Check my balance" ++ dq ++ nl ++
           "3. **Transaction History** - Example: " ++ dq ++ "Show my recent transactions" ++ dq ++ nl ++
           "4. **Token Information** - Example: " ++ dq ++ "Tell me about SOL" ++ dq ++ nl ++
           "5. **Market Trends** - Example: " ++ dq ++ "What are the market trends?" ++ dq ++ nl ++
           "6. **Help** - Example: " ++ dq ++ "What can you do?" ++ dq ++ nl ++ nl ++
           "I support many tokens including SOL, USDC, BONK, USDT, JUP, JTO, RAY, PYTH, MEME, and WIF. I can also provide real-time price estimates when performing swaps.";
         intent := Some HelpIntent;
         suggestions := None |}.

(** A value that is a string or [null], when it is truthy. *)
Definition truthy_string (x : option string) : option string :=
  match x with
  | Some a => if JsString.truthy a then Some a else None
  | None => None
  end.

(** The fixed network fee of the transfer handler, the literal [0.000005]. *)
Definition transactionFee : number := of_decimal false 5 (-6).

(** [context.originalPrompt || match.input || ""] *)
Definition transfer_message (mt : RegExpMatchArray) (context : Context) : string :=
  match truthy_string (originalPrompt context) with
  | Some p => p
  | None => input mt
  end.

(** The responses of the transfer handler, for the balance [B], the amount
    [A], the [recipient] and the [token]. *)

Definition connect_wallet_response : Response :=
  {| message := "Please connect your wallet first to make a transfer.";
     intent := Some IntentNull;
     suggestions := Some ["How do I connect my wallet?"; "What is a wallet?"] |}.

Definition no_address_response : Response :=
  {| message := "I couldn't find a valid Solana wallet address in your message. Please provide a complete Solana address.";
     intent := Some IntentNull;
     suggestions := Some ["What does a Solana address look like?";
                          "How do I copy a wallet address?"] |}.

Definition invalid_amount_response : Response :=
  {| message := "The amount to transfer must be a positive number.";
     intent := Some IntentNull;
     suggestions := Some ["Send 0.001 SOL"; "How much SOL should I transfer?"] |}.

Definition insufficient_balance_response (B A : number) : Response :=
  {| message :=
       "You don't have enough SOL for this transfer. Your current balance is " ++
       toFixed B 4 ++ " SOL, but you're trying to send " ++ toString A ++ " SOL.";
     intent := Some IntentNull;
     suggestions := Some ["Check my balance"; "How do I get more SOL?"] |}.

Definition insufficient_for_fees_response (B A : number) : Response :=
  {| message :=
       "You need to keep some SOL for transaction fees. Your balance is " ++
       toFixed B 4 ++ " SOL, and this transaction requires " ++
       toString (add A transactionFee) ++ " SOL (including fees).";
     intent := Some IntentNull;
     suggestions :=
       Some ["Send " ++ toFixed (Math_max zero (sub B transactionFee)) 4 ++ " SOL";
             "Check my balance"] |}.

Definition insufficient_fee_balance_response (B : number) : Response :=
  {| message :=
       "You don't have enough SOL to cover the transaction fee. Your current SOL balance is " ++
       toFixed B 6 ++ " SOL, but you need at least " ++ toString transactionFee ++
       " SOL for fees.";
     intent := Some IntentNull;
     suggestions := Some ["Check my balance"; "How do I get more SOL?"] |}.

Definition confirmation_response (recipient : string) (A : number) (token : string)
  : Response :=
  {| message :=
       "I'll help you send " ++ toString A ++ " " ++ token ++ " to " ++
       slice_to 4 recipient ++ "..." ++ slice_last 4 recipient ++
       ". Please confirm this transaction.";
     intent := Some (TransferIntent recipient A token);
     suggestions := Some ["Confirm"; "Cancel"; "Check my balance"] |}.

Definition transfer_handler (mt : RegExpMatchArray) (context : Context) : M Response :=
  if negb (walletConnected context) then ret connect_wallet_response
  else
    let fullMessage := transfer_message mt context in
    let amount := get mt 1 in
    captured <- defined (get mt 2) "toUpperCase" ;;
    let token := toUpperCase captured in
    match truthy_string (detectSolanaAddress env fullMessage) with
    | None => ret no_address_response
    | Some recipient =>
        let numericAmount := parseFloat_arg amount in
        if isNaN numericAmount || le numericAmount zero then
          ret invalid_amount_response
        else if String.eqb token "SOL" then
          let requiredAmount := add numericAmount transactionFee in
          if gt numericAmount (balance context) then
            ret (insufficient_balance_response (balance context) numericAmount)
          else if gt requiredAmount (balance context) then
            ret (insufficient_for_fees_response (balance context) numericAmount)
          else ret (confirmation_response recipient numericAmount token)
        else
          if lt (balance context) transactionFee then
            ret (insufficient_fee_balance_response (balance context))
          else ret (confirmation_response recipient numericAmount token)
    end.

(** [{ ...context, tokenBalances }] *)
Definition with_tokenBalances (context : Context) (balances : list (string * number))
  : Context :=
  {| walletConnected := walletConnected context;
     walletAddress := walletAddress context;
     balance := balance context;
     tokenBalances := balances;
     expertiseLevel := expertiseLevel context;
     originalPrompt := originalPrompt context |}.

Definition cryptoKnowledge_handler (mt : RegExpMatchArray) (context : Context)
  : M Response :=
  captured <- defined (get mt 1) "toLowerCase" ;;
  let topic := toLowerCase captured in
  ret {| message := "Crypto knowledge response";
         intent := Some (CryptoKnowledgeIntent topic);
         suggestions := None |}.

Definition analysis_advanced : string :=
  "# Comprehensive Market Analysis" ++ nl ++ nl ++
  "## Current Market Structure" ++ nl ++
  "The crypto market is showing characteristics consistent with " ++
  "the early accumulation phase following a bear market, with select assets beginning to show strength while overall sentiment remains cautious." ++ nl ++ nl ++
  "## On-Chain Indicators" ++ nl ++
  "- Exchange outflows have increased 15% month-over-month, suggesting accumulation" ++ nl ++
  "- Long-term holder supply is near all-time highs at 78% of circulating supply" ++ nl ++
  "- Realized cap has stabilized, indicating absorption of selling pressure" ++ nl ++
  "- Stablecoin market cap ratio suggests significant dry powder waiting on sidelines" ++ nl ++ nl ++
  "## Macro Correlations" ++ nl ++
  "- Reduced correlation with equities (0.65, down from 0.82)" ++ nl ++
  "- Increased sensitivity to liquidity conditions and Fed policy" ++ nl ++
  "- Dollar strength remains a headwind for risk assets" ++ nl ++ nl ++
  "## Technical Structure" ++ nl ++
  "- Higher lows forming on weekly timeframes" ++ nl ++
  "- 200-week moving average providing support" ++ nl ++
  "- Decreased volatility typically preceding expansion phase" ++ nl ++ nl.

Definition analysis_intermediate : string :=
  "# Current Market Analysis" ++ nl ++ nl ++
  "The crypto market is currently showing signs of recovery with several key indicators suggesting accumulation:" ++ nl ++ nl ++
  "- Prices have stabilized and are forming higher lows" ++ nl ++
  "- Trading volume has increased on positive price movements" ++ nl ++
  "- Long-term holders are no longer selling and have begun accumulating" ++ nl ++
  "- Market sentiment has shifted from extreme fear toward neutral" ++ nl ++ nl ++
  "Key levels to watch include the 200-day moving average and previous support/resistance zones. Market structure appears to be improving, but remains vulnerable to macro factors including central bank policy and traditional market movements." ++ nl ++ nl ++
  "For Solana specifically, ecosystem activity metrics have improved significantly, with daily active addresses and transaction count trending upward.".

Definition analysis_beginner : string :=
  "# Simple Market Update" ++ nl ++ nl ++
  "The crypto market has been recovering after a difficult period. Here's what you should know:" ++ nl ++ nl ++
  "- Prices have been gradually increasing over recent months" ++ nl ++
  "- More people are getting interested in crypto again" ++ nl ++
  "- The overall mood has improved from fearful to cautiously optimistic" ++ nl ++
  "- New projects and developments continue despite earlier price drops" ++ nl ++ nl ++
  "Remember that crypto markets can be very unpredictable and volatile. It's important to only invest what you can afford to lose and to take a long-term perspective if you decide to invest." ++ nl ++ nl ++
  "For Solana, things have been looking positive with more people using the network and new projects launching.".

Definition marketAnalysis_handler (_ : RegExpMatchArray) (context : Context)
  : M Response :=
  lift (getMarketAnalysis env "market cycles") ;;;
  lift (getMarketAnalysis env "sentiment") ;;;
  let level :=
    match expertiseLevel context with
    | Some l => if JsString.truthy l then l else "beginner"
    | None => "beginner"
    end in
  let response :=
    if String.eqb level "advanced" then analysis_advanced
    else if String.eqb level "intermediate" then analysis_intermediate
    else analysis_beginner in
  ret {| message := response;
         intent := Some (MarketAnalysisIntent level);
         suggestions := None |}.

Record InvestmentStrategy := {
  strategy_description : string;
  implementation : string;
  advantages : list string;
  disadvantages : option (list string);
  benefits : option (list string);
  methodology : option (list string);
  riskLevel : option string
}.

(** The data of [getInvestmentData]. *)
Definition mockData : list (string * InvestmentStrategy) := [
  ("portfolio",
   {| strategy_description := "Portfolio management strategies";
      implementation := "Diversified asset allocation";
      advantages := ["Risk reduction"; "Stable returns"];
      disadvantages := None; benefits := None; methodology := None;
      riskLevel := Some "Medium" |});
  ("risk",
   {| strategy_description := "Risk management strategies";
      implementation := "Stop-loss and position sizing";
      advantages := ["Capital preservation"; "Emotional control"];
      disadvantages := None; benefits := None; methodology := None;
      riskLevel := Some "Low" |})
].

(** [`Label: ${xs.join(", ")}\n`] when [xs?.length] is truthy *)
Definition optional_list_line (label : string) (xs : option (list string)) : string :=
  match xs with
  | Some (x :: rest) => label ++ ": " ++ join ", " (x :: rest) ++ nl
  | _ => ""
  end.

Definition investmentEducation_handler (mt : RegExpMatchArray) (context : Context)
  : M Response :=
  captured <- defined (get mt 1) "toLowerCase" ;;
  let investmentType := toLowerCase captured in
  response <-
    match lookup investmentType mockData with
    | Some strategy =>
        ret ("Investment Strategy for " ++ investmentType ++ ":" ++ nl ++
             "Description: " ++ strategy_description strategy ++ nl ++
             "Implementation: " ++ implementation strategy ++ nl ++
             "Advantages: " ++ join ", " (advantages strategy) ++ nl ++
             optional_list_line "Disadvantages" (disadvantages strategy) ++
             optional_list_line "Benefits" (benefits strategy) ++
             optional_list_line "Methodology" (methodology strategy) ++
             match riskLevel strategy with
             | Some level =>
                 if JsString.truthy level then "Risk Level: " ++ level ++ nl else ""
             | None => ""
             end)
    | None =>
        (* the inherited properties of the data object are truthy and
           have no [advantages] *)
        if String.eqb investmentType "constructor" ||
           String.eqb investmentType "__proto__"
        then throw (TypeError "join")
        else ret ""
    end ;;
  ret {| message := if JsString.truthy response then response
                    else "No investment data found";
         intent := Some (InvestmentEducationIntent investmentType);
         suggestions := None |}.

(** The patterns of each operation, in listed order. *)

(** The sixth swap pattern, which names no verb. *)
Definition generic_swap_pattern : RegExp :=
  re_i "(\d+\.?\d*)\s+(\w+)\s+(?:to|into|for)\s+(\w+)".

Definition swap_patterns : list RegExp := [
  re_i "swap\s+(\d+\.?\d*)\s+(\w+)\s+(?:to|for)\s+(\w+)";
  re_i "convert\s+(\d+\.?\d*)\s+(\w+)\s+(?:to|into)\s+(\w+)";
  re_i "exchange\s+(\d+\.?\d*)\s+(\w+)\s+(?:to|for)\s+(\w+)";
  re_i "trade\s+(\d+\.?\d*)\s+(\w+)\s+(?:to|for)\s+(\w+)";
  re_i "change\s+(\d+\.?\d*)\s+(\w+)\s+(?:to|into|for)\s+(\w+)";
  generic_swap_pattern;
  re_i "swap\s+(?:all|everything|all\s+my)\s+(\w+)\s+(?:to|for)\s+(\w+)";
  re_i "convert\s+(?:all|everything|all\s+my)\s+(\w+)\s+(?:to|into)\s+(\w+)";
  re_i "exchange\s+(?:all|everything|all\s+my)\s+(\w+)\s+(?:to|for)\s+(\w+)";
  re_i "trade\s+(?:all|everything|all\s+my)\s+(\w+)\s+(?:to|for)\s+(\w+)"
].

Definition balance_patterns : list RegExp := [
  re_i "(?:check|show|what(?:'|i)?s\s+(?:my|the))\s+balance";
  re_i "how\s+much\s+(?:\w+\s+)?(?:do\s+i\s+have|is\s+in\s+my\s+wallet)";
  re_i "balance\s+(?:of|for)\s+my\s+(?:wallet|account)";
  re_i "my\s+balance";
  re_i "wallet\s+balance"
].

Definition tokenInfo_patterns : list RegExp := [
  re_i "(?:tell|what|info|information)\s+(?:me|about|is)\s+(?:the\s+)?(?:token\s+)?(\w+)";
  re_i "what\s+is\s+(\w+)(?:\s+token)?";
  re_i "explain\s+(\w+)(?:\s+token)?";
  re_i "(\w+)\s+info(?:rmation)?";
  re_i "info\s+on\s+(\w+)"
].

Definition price_patterns : list RegExp := [
  re_i "price\s+of\s+(\w+)";
  re_i "what's\s+the\s+price\s+of\s+(\w+)"
].

Definition history_patterns : list RegExp := [
  re_i "(?:show|view|get|check)\s+(?:my\s+)?(?:transaction|tx)\s+history";
  re_i "(?:what|show)\s+(?:are|were)\s+my\s+(?:recent|last|previous)\s+transactions";
  re_i "(?:my|wallet)\s+(?:transaction|tx)\s+history";
  re_i "(?:recent|last|previous)\s+transactions";
  re_i "what\s+(?:did|have)\s+i\s+(?:do|done|transact)";
  re_i "transactions\s+(?:on|from|for|during|in)\s+(.+?)(?:\s|$)";
  re_i "what\s+(?:happened|occurred|took place)\s+(?:on|from|for|during|in)\s+(.+?)(?:\s|$)";
  re_i "show\s+me\s+(?:transactions|activity)\s+(?:on|from|for|during|in)\s+(.+?)(?:\s|$)"
].

Definition marketTrends_patterns : list RegExp := [
  re_i "(?:what|how)(?:'s| is| are)\s+(?:the\s+)?(?:market|markets)(?:\s+doing)?";
  re_i "market\s+(?:trend|trends|overview|update|sentiment)";
  re_i "(?:what|which)\s+(?:token|tokens|coin|coins)(?:\s+are|\s+is)?\s+(?:trending|hot|popular)";
  re_i "what\s+should\s+i\s+(?:buy|invest|trade)";
  re_i "(?:crypto|token|coin)\s+recommendations"
].

Definition help_patterns : list RegExp := [
  re_i "(?:help|assist|guide|tutorial|how\s+to\s+use)";
  re_i "what\s+can\s+you\s+do";
  re_i "(?:list|show)\s+(?:commands|features|abilities)";
  re_i "help\s+me"
].

Definition transfer_patterns : list RegExp := [
  re_i "(?:send|transfer|pay|give)\s+(\d+\.?\d*)\s+(sol|usdc|usdt|bonk|jup|jto|ray|pyth|meme|wif)(?:\s+(?:to|for|into))?";
  re_i "(?:send|transfer|pay|give)\s+(\d+\.?\d*)\s+(sol|usdc|usdt|bonk|jup|jto|ray|pyth|meme|wif)(?:\s+(?:to|for|into)\s+)?.*"
].

Definition cryptoKnowledge_patterns : list RegExp := [
  re_i "(?:explain|what\s+is|tell\s+me\s+about|how\s+does)\s+(.+)\s+(?:work|mean|function)";
  re_i "(?:explain|what\s+is|tell\s+me\s+about)\s+(.+)";
  re_i "(?:how\s+does|how\s+do)\s+(.+)\s+(?:work|function)";
  re_i "(?:what|why|when|how)\s+(?:are|is|should|do|does)\s+(.+)"
].

Definition marketAnalysis_patterns : list RegExp := [
  re_i "(?:market|price)\s+(?:analysis|outlook|prediction|forecast|trend)";
  re_i "(?:what|how)(?:'s| is| are)\s+(?:the\s+)?(?:market|prices)(?:\s+doing)?";
  re_i "(?:bull|bear)\s+(?:market|cycle|phase)";
  re_i "(?:crypto|market)\s+(?:sentiment|feeling|outlook)"
].

Definition investmentEducation_patterns : list RegExp := [
  re_i "(?:how|what)\s+(?:to|should\s+I)\s+(?:invest|investing)";
  re_i "(?:investment|investing)\s+(?:strategy|strategies|advice|tips)";
  re_i "(?:portfolio|risk)\s+(?:management|allocation|diversification)";
  re_i "(?:teach|explain|educate)\s+(?:me|about)\s+(?:investing|investment)"
].

(** The catalog, in declared order. *)
Definition OPERATIONS : list (string * Operation) := [
  ("swap",
   {| op_description := "Exchange one token for another";
      patterns := swap_patterns;
      handler := swap_handler |});
  ("balance",
   {| op_description := "Check token balances";
      patterns := balance_patterns;
      handler := balance_handler |});
  ("tokenInfo",
   {| op_description := "Get information about tokens";
      patterns := tokenInfo_patterns;
      handler := tokenInfo_handler |});
  ("price",
   {| op_description := "Get current price of a token";
      patterns := price_patterns;
      handler := price_handler |});
  ("history",
   {| op_description := "View transaction history";
      patterns := history_patterns;
      handler := history_handler |});
  ("marketTrends",
   {| op_description := "Get market trends and insights";
      patterns := marketTrends_patterns;
      handler := marketTrends_handler |});
  ("help",
   {| op_description := "Get help on using the assistant";
      patterns := help_patterns;
      handler := help_handler |});
  ("transfer",
   {| op_description := "Transfer SOL or tokens to a wallet";
      patterns := transfer_patterns;
      handler := transfer_handler |});
  ("cryptoKnowledge",
   {| op_description := "Provide in-depth crypto knowledge on various topics";
      patterns := cryptoKnowledge_patterns;
      handler := cryptoKnowledge_handler |});
  ("marketAnalysis",
   {| op_description := "Provide market analysis and insights";
      patterns := marketAnalysis_patterns;
      handler := marketAnalysis_handler |});
  ("investmentEducation",
   {| op_description := "Provide investment education and strategies";
      patterns := investmentEducation_patterns;
      handler := investmentEducation_handler |})
].

(** ** The router *)

(** The first pattern of the list that matches, with its match. *)
Fixpoint first_match (ps : list RegExp) (prompt : string) : option RegExpMatchArray :=
  match ps with
  | [] => None
  | p :: rest =>
      match exec p prompt with
      | Some mt => Some mt
      | None => first_match rest prompt
      end
  end.

(** The first operation, in catalog order, one of whose patterns matches. *)
Fixpoint find_operation (ops : list (string * Operation)) (prompt : string)
  : option (string * Operation * RegExpMatchArray) :=
  match ops with
  | [] => None
  | (opName, operation) :: rest =>
      match first_match (patterns operation) prompt with
      | Some mt => Some (opName, operation, mt)
      | None => find_operation rest prompt
      end
  end.

Definition transfer_fast_pattern : RegExp :=
  re_i "^(?:send|transfer|pay|give)\s+(\d+\.?\d*)\s+(sol|usdc|usdt|bonk|jup|jto|ray|pyth|meme|wif)".

Definition starts_with_transfer_verb (lowerPrompt : string) : bool :=
  startsWith lowerPrompt "send" || startsWith lowerPrompt "transfer" ||
  startsWith lowerPrompt "pay" || startsWith lowerPrompt "give".

(** [{ ...context, originalPrompt: prompt }] *)
Definition enhance (context : Context) (prompt : string) : Context :=
  {| walletConnected := walletConnected context;
     walletAddress := walletAddress context;
     balance := balance context;
     tokenBalances := tokenBalances context;
     expertiseLevel := expertiseLevel context;
     originalPrompt := Some prompt |}.

(** The transfer match of the fast path, when it is taken. *)
Definition fast_path (prompt : string) : option RegExpMatchArray :=
  let lowerPrompt := toLowerCase prompt in
  if starts_with_transfer_verb lowerPrompt
  then exec transfer_fast_pattern lowerPrompt
  else None.

(** The walk through the catalog, and what follows it when nothing
    matches. *)
Definition general_path (prompt : string) (context : Context) : M Response :=
  match find_operation OPERATIONS prompt with
  | Some (opName, operation, mt) =>
      s <- get_state ;;
      set_conversationContext
        (updateConversationContext prompt (Some opName) [] (conversationContext s)) ;;;
      result <- handler operation mt context ;;
      tip <- getPersonalizedTips context ;;
      s' <- get_state ;;
      ret {| message :=
               match tip with
               | Some t => message result ++ nl ++ nl ++ t
               | None => message result
               end;
             intent := intent result;
             suggestions := Some (suggestedNextActions (conversationContext s')) |}
  | None =>
      match truthy_string (detectSolanaAddress env prompt) with
      | Some address =>
          ret {| message :=
                   "I've detected a Solana wallet address: " ++ slice_to 4 address ++
                   "..." ++ slice_last 4 address ++
                   ". If you'd like to send funds to this address, please let me know the amount and token (e.g., " ++
                   dq ++ "Send 0.1 SOL to this address" ++ dq ++ ").";
                 intent := Some IntentNull;
                 suggestions := Some ["Send 0.1 SOL to this address";
                                      "Send 5 USDC to this address";
                                      "What is this wallet?"] |}
      | None => handleGeneralChat prompt
      end
  end.

(** The [try] block of [parseUserIntent]. *)
Definition parseUserIntent_try (prompt : string) (context : Context) : M Response :=
  let enhancedContext := enhance context prompt in
  match fast_path prompt with
  | Some transferMatch =>
      operation <- defined (lookup "transfer" OPERATIONS) "handler" ;;
      handler operation transferMatch enhancedContext
  | None => general_path prompt context
  end.

(** The response of the [catch] block. *)
Definition fallback_response : Response :=
  {| message := "Sorry, I couldn't understand that command. Please try something like 'Send 0.001 SOL to [wallet address]'.";
     intent := Some IntentNull;
     suggestions := Some ["Check my balance"; "What can you help me with?"] |}.

(** [parseUserIntent(prompt, context)]: the response and the state it
    leaves. *)
Definition parseUserIntent (prompt : string) (context : Context) (s : State)
  : Response * State :=
  match parseUserIntent_try prompt context s with
  | (Normal response, s') => (response, s')
  | (Throw _, s') => (fallback_response, s')
  end.

(** ** Vocabulary of the properties *)

(** [c] returns normally from every state, and leaves the conversation
    context and the price cache as they were. *)
Definition quiet {A} (c : M A) : Prop :=
  forall s, exists a s',
    c s = (Normal a, s') /\
    conversationContext s' = conversationContext s /\
    cachedTokenPrices s' = cachedTokenPrices s.

(** The state after [updateConversationContext(prompt, opName, [])]. *)
Definition noted (prompt opName : string) (s : State) : State :=
  {| conversationContext :=
       updateConversationContext prompt (Some opName) [] (conversationContext s);
     cachedTokenPrices := cachedTokenPrices s;
     randomCalls := randomCalls s |}.

(** The response of the general path for the handler's [result] and the
    [tip]. *)
Definition decorated (result : Response) (tip : option string) (s : State)
  : Response :=
  {| message :=
       match tip with
       | Some t => message result ++ nl ++ nl ++ t
       | None => message result
       end;
     intent := intent result;
     suggestions := Some (suggestedNextActions (conversationContext s)) |}.

(** What the transfer handler can return: an exception when the match has
    no second capture, one of the clarifications, whose intent is null, or
    the confirmation for the detected address. *)
Inductive transfer_result (mt : RegExpMatchArray) (context : Context)
  : Completion Response -> Prop :=
| result_throw e : get mt 2 = None -> transfer_result mt context (Throw e)
| result_clarification r :
    intent r = Some IntentNull -> transfer_result mt context (Normal r)
| result_confirmation recipient A token :
    detectSolanaAddress env (transfer_message mt context) = Some recipient ->
    transfer_result mt context (Normal (confirmation_response recipient A token)).

End Processor.

Arguments IntentNull {Transaction}.
Arguments SwapIntent {Transaction} token price.
Arguments BalanceIntent {Transaction} address.
Arguments TokenInfoIntent {Transaction} token.
Arguments PriceIntent {Transaction} token.
Arguments MarketTrendsIntent {Transaction}.
Arguments HelpIntent {Transaction}.
Arguments TransferIntent {Transaction} recipient amount token.
Arguments CryptoKnowledgeIntent {Transaction} topic.
Arguments MarketAnalysisIntent {Transaction} level.
Arguments InvestmentEducationIntent {Transaction} topic.
Arguments connect_wallet_response {Transaction}.
Arguments no_address_response {Transaction}.
Arguments invalid_amount_response {Transaction}.
Arguments insufficient_balance_response {Transaction} B A.
Arguments insufficient_for_fees_response {Transaction} B A.
Arguments insufficient_fee_balance_response {Transaction} B.
Arguments confirmation_response {Transaction} recipient A token.
Arguments fallback_response {Transaction}.
Arguments decorated {Transaction} result tip s.

(** Every pattern of the processor. *)
Definition all_patterns : list RegExp :=
  (transfer_fast_pattern ::
   swap_patterns ++ balance_patterns ++ tokenInfo_patterns ++ price_patterns ++
   history_patterns ++ marketTrends_patterns ++ help_patterns ++ transfer_patterns ++
   cryptoKnowledge_patterns ++ marketAnalysis_patterns ++
   investmentEducation_patterns ++
   datePatterns ++ tokenPatterns ++ typePatterns ++
   flat_map snd CONVERSATION_PATTERNS)%list.

(** ** A sample environment

    A host whose services are all unreachable, whose random draws are all
    0, and whose address detector knows one address. *)

Definition sample_address : string := "7xKXtg2CW87d97TXJSDpbD5jBkheTqA83TZRuJosgAsU".

Definition sample_env : Env unit unit :=
  {| detectSolanaAddress :=
       fun text => if includes text sample_address then Some sample_address else None;
     fetchTokenPrice := fun _ => Throw (ExternalError "unreachable");
     parseDateQuery := fun _ => Throw (ExternalError "unreachable");
     getTransactionsForDateRange := fun _ _ => Throw (ExternalError "unreachable");
     formatTransactionsForDisplay := fun _ => Throw (ExternalError "unreachable");
     getMarketAnalysis := fun _ => Throw (ExternalError "unreachable");
     Date_now := 0;
     Math_random := fun _ => zero |}.

(** A connected wallet holding [sol] SOL. *)
Definition sample_context (sol : string) : Context :=
  {| walletConnected := true;
     walletAddress := Some "4Nd1mYQvFkq3hG9yT5cX2bZ8wR7uJ6pLeKsAoDfHgVtB";
     balance := parseFloat sol;
     tokenBalances := [];
     expertiseLevel := None;
     originalPrompt := None |}.

(** The match of the fast path on [prompt]. *)
Definition sample_transfer_match (prompt : string) : RegExpMatchArray :=
  match fast_path prompt with
  | Some mt => mt
  | None => {| index := 0; input := prompt; elements := [] |}
  end.

(** The state at module load, at time 0. *)
Definition sample_state : State := initialState 0.

(** Prompts for the fast path. *)
Definition prompt_without_address : string := "Send 5 SOL to nobody".
Definition prompt_send (amount token : string) : string :=
  "Send " ++ amount ++ " " ++ token ++ " to " ++ sample_address.

(** Eleven insertions, in three calls. *)
Definition sample_calls : list UpdateCall := [
  {| call_input := "tell me about sol"; call_operation := Some "tokenInfo";
     call_tokens := ["SOL"; "USDC"; "USDT"; "BONK"] |};
  {| call_input := "wen moon"; call_operation := None;
     call_tokens := ["JUP"; "JTO"; "RAY"; "PYTH"] |};
  {| call_input := "swap"; call_operation := Some "swap";
     call_tokens := ["MEME"; "WIF"; "AKT"] |}
].

(** ** Vocabulary of the handlers' properties *)

Section Effects.

Variables Transaction Date : Type.
Variable env : Env Transaction Date.

(** [c] leaves the part [view] of the state as it was, whether it returns
    or throws, and a value that it returns satisfies [Q]. *)
Definition preserves {X A} (view : State -> X) (Q : A -> Prop) (c : M A) : Prop :=
  forall s,
    view (snd (c s)) = view s /\
    match fst (c s) with
    | Normal a => Q a
    | Throw _ => True
    end.

(** [c] moreover returns normally from every state. *)
Definition completes {X A} (view : State -> X) (Q : A -> Prop) (c : M A) : Prop :=
  forall s, exists a s',
    c s = (Normal a, s') /\ view s' = view s /\ Q a.

(** The intents that a request may carry in [context]: a balance or a
    history intent needs a connected wallet; a transfer intent moreover a
    non-empty recipient, an amount above zero and, for SOL, a balance that
    covers amount and fee, for another token a balance that covers the
    fee. *)
Definition guarded (context : Context) (i : Intent Transaction) : Prop :=
  match i with
  | BalanceIntent _ | HistoryIntent _ _ => walletConnected context = true
  | TransferIntent recipient amount token =>
      walletConnected context = true /\
      JsString.truthy recipient = true /\
      gt amount zero = true /\
      if String.eqb token "SOL"
      then gt (add amount transactionFee) (balance context) = false
      else lt (balance context) transactionFee = false
  | _ => True
  end.

(** A response whose intent is present and guarded. *)
Definition answers (context : Context) (r : Response Transaction) : Prop :=
  exists i, intent r = Some i /\ guarded context i.

(** A reply of the general chat: no intent and no suggestions. *)
Definition plain (r : Response Transaction) : Prop :=
  intent r = None /\ suggestions r = None.

(** The conversation context with the price cache: all of the state but
    the count of random draws. *)
Definition memory (s : State) : ConversationContext * list (string * TokenPriceData) :=
  (conversationContext s, cachedTokenPrices s).

(** The response of the general path to a prompt that no operation
    matches and in which [address] is detected. *)
Definition address_response (address : string) : Response Transaction :=
  {| message :=
       "I've detected a Solana wallet address: " ++ slice_to 4 address ++
       "..." ++ slice_last 4 address ++
       ". If you'd like to send funds to this address, please let me know the amount and token (e.g., " ++
       dq ++ "Send 0.1 SOL to this address" ++ dq ++ ").";
     intent := Some IntentNull;
     suggestions := Some ["Send 0.1 SOL to this address";
                          "Send 5 USDC to this address";
                          "What is this wallet?"] |}.

(** What the general path does with a prompt: the four outcomes. *)
Inductive general_outcome (prompt : string) (context : Context) (s : State)
  : Completion (Response Transaction) * State -> Prop :=
| outcome_answered opName operation mt result tip s2 :
    find_operation (OPERATIONS env) prompt = Some (opName, operation, mt) ->
    answers context result ->
    conversationContext s2 = conversationContext (noted prompt opName s) ->
    general_outcome prompt context s (Normal (decorated result tip s2), s2)
| outcome_thrown opName operation mt e s1 :
    find_operation (OPERATIONS env) prompt = Some (opName, operation, mt) ->
    handler operation mt context (noted prompt opName s) = (Throw e, s1) ->
    opName = "marketAnalysis" \/ opName = "investmentEducation" ->
    conversationContext s1 = conversationContext (noted prompt opName s) ->
    general_outcome prompt context s (Throw e, s1)
| outcome_address address :
    find_operation (OPERATIONS env) prompt = None ->
    truthy_string (detectSolanaAddress env prompt) = Some address ->
    general_outcome prompt context s (Normal (address_response address), s)
| outcome_chat r s1 :
    find_operation (OPERATIONS env) prompt = None ->
    truthy_string (detectSolanaAddress env prompt) = None ->
    plain r ->
    memory s1 = memory s ->
    general_outcome prompt context s (Normal r, s1).

(** The promise that [parseUserIntent(prompt, context)] returns, as a
    computation: it is fulfilled with the response of the [try] block, or
    with that of the [catch] block when the [try] block throws, and an
    exception that escaped both would reject it. *)
Definition parseUserIntent_promise (prompt : string) (context : Context)
  : M (Response Transaction) :=
  catch (parseUserIntent_try env prompt context) (fun _ => ret fallback_response).

(** A turn of a session: a prompt with the context that the caller passes;
    a session runs its turns in order. *)
Record Turn := {
  turn_prompt : string;
  turn_context : Context
}.

(** The operation that a turn records in the conversation memory: the one
    that the catalog finds, off the fast path. *)
Definition recorded_operation (t : Turn) : option string :=
  match fast_path (turn_prompt t), find_operation (OPERATIONS env) (turn_prompt t) with
  | None, Some (opName, _, _) => Some opName
  | _, _ => None
  end.

Definition run_session (turns : list Turn) (s : State) : State :=
  fold_left
    (fun s t => snd (parseUserIntent env (turn_prompt t) (turn_context t) s))
    turns s.

End Effects.

Arguments plain {Transaction} r.
Arguments address_response {Transaction} address.

(** The views of the state: the conversation context, and all of it. *)
Abbreviation keeps := (preserves conversationContext).
Abbreviation returns := (completes conversationContext).
Abbreviation settles := (completes (fun s : State => s)).

(** The operations that the calls record, in order of recording: the
    truthy ones. *)
Definition recorded_operations (calls : list UpdateCall) : list string :=
  flat_map (fun call => match truthy_string (call_operation call) with
                        | Some op => [op]
                        | None => []
                        end) calls.

(** The suggestions offered when no branch of [generateSuggestions]
    applies. *)
Definition default_suggestions : list string :=
  ["What tokens do you support?"; "Check my balance"; "What are the market trends?"].

(** The two preference lists without duplicates. *)
Definition distinct (c : ConversationContext) : Prop :=
  NoDup (preferredActions (userPreferences c)) /\
  NoDup (favoriteTokens (userPreferences c)).

(** The parts of the conversation context that only mentioned tokens and
    the session start determine. *)
Definition token_memory (c : ConversationContext)
  : list string * list string * list (string * string * string) * Z :=
  (recentTokens c, favoriteTokens (userPreferences c),
   swapHistory (userPreferences c), sessionStartTime c).

(** The test [isCacheValid] of the price lookups at the time [now]. *)
Definition fresh (now : Z) (cache : list (string * TokenPriceData)) (symbol : string)
  : bool :=
  match lookup symbol cache with
  | Some entry => (now - timestamp entry <? 60000)%Z
  | None => false
  end.

(** * Utilities *)

(** [s.slice(start, stop)] for integral indices, [stop] absent for
    [s.slice(start)]: a negative index counts from the end, and both are
    clamped to the string. *)
Definition slice (s : string) (start : Z) (stop : option Z) : string :=
  let len := Z.of_nat (String.length s) in
  let clamp (i : Z) := if (i <? 0)%Z then Z.max (len + i) 0 else Z.min i len in
  let from := clamp start in
  let to := match stop with Some e => clamp e | None => len end in
  String.substring (Z.to_nat from) (Z.to_nat (Z.max (to - from) 0)) s.

(** [formatWalletAddress(address, startChars, endChars)] for integral
    counts; both default to 4. *)
Definition formatWalletAddress (address : string) (startChars endChars : Z) : string :=
  if negb (JsString.truthy address) then ""
  else if (Z.of_nat (String.length address) <=? startChars + endChars)%Z then address
  else slice address 0 (Some startChars) ++ "..." ++ slice address (- endChars) None.

(** * Knowledge texts *)

(** The values that a knowledge object holds: [undefined], [null],
    booleans, numbers, strings, arrays and plain objects, whose properties
    are listed in the order of [Object.entries]. *)
#[warnings="-register-all"] Inductive Value :=
| VUndefined
| VNull
| VBoolean (b : bool)
| VNumber (x : number)
| VString (s : string)
| VArray (elements : list Value)
| VObject (entries : list (string * Value)).

(** [`${v}`]: a plain object prints as [[object Object]], and an array as
    its elements separated by commas, where [undefined] and [null] print
    as nothing. *)
Fixpoint to_text (v : Value) : string :=
  match v with
  | VUndefined => "undefined"
  | VNull => "null"
  | VBoolean b => if b then "true" else "false"
  | VNumber x => toString x
  | VString s => s
  | VArray elements =>
      join ","
        (map (fun element =>
                match element with
                | VUndefined | VNull => EmptyString
                | _ => to_text element
                end) elements)
  | VObject _ => "[object Object]"
  end.

(** [formatKnowledgeToText(knowledge)]; [None] for [null]. *)
Definition formatKnowledgeToText (knowledge : option (list (string * Value))) : string :=
  match knowledge with
  | None => "No knowledge available"
  | Some entries =>
      join nl (map (fun entry => fst entry ++ ": " ++ to_text (snd entry)) entries)
  end.

Definition getCryptoKnowledge : list (string * Value) := [
  ("categories",
   VObject [
     ("Layer 1", VString "Base blockchain networks like Bitcoin and Ethereum that provide the foundation for other applications");
     ("Layer 2", VString "Scaling solutions built on top of Layer 1 blockchains to improve transaction speed and reduce costs");
     ("DeFi", VString "Decentralized Finance applications that provide financial services without intermediaries");
     ("NFT", VString "Non-Fungible Tokens representing unique digital assets");
     ("Gaming", VString "Blockchain-based gaming platforms and in-game assets");
     ("Privacy", VString "Cryptocurrencies focused on transaction privacy and anonymity");
     ("Stablecoins", VString "Cryptocurrencies pegged to stable assets like fiat currencies");
     ("Meme", VString "Cryptocurrencies that gained popularity through social media and community engagement")
   ]);
  ("trends",
   VObject [
     ("current", VString "DeFi and Layer 2 solutions are seeing significant growth");
     ("emerging", VString "NFT gaming and metaverse projects are gaining traction");
     ("risks", VString "Regulatory uncertainty remains a key concern for the industry")
   ])
].

(** The response of [cryptoKnowledgeHandler]: the text and the intent
    [{ action: 'showKnowledge', data }]. *)
Record KnowledgeResponse := {
  knowledge_message : string;
  knowledge_action : string;
  knowledge_data : list (string * Value)
}.

Definition cryptoKnowledgeHandler (_ : RegExpMatchArray) (_ : Context)
  : KnowledgeResponse :=
  let knowledge := getCryptoKnowledge in
  {| knowledge_message := formatKnowledgeToText (Some knowledge);
     knowledge_action := "showKnowledge";
     knowledge_data := knowledge |}.

(** The strings at the leaves of a value. *)
Fixpoint leaves (v : Value) : list string :=
  match v with
  | VString s => [s]
  | VArray elements => flat_map leaves elements
  | VObject entries => flat_map (fun entry => leaves (snd entry)) entries
  | _ => []
  end.

(** * Tokens mentioned in a message *)

Module AdvancedAISystem.

Record TokenInfo := {
  name : string;
  symbol : string;
  decimals : Z;
  description : string;
  useCases : string;
  price_range : string;
  trend_indicators : list string;
  category : string
}.

Definition ENHANCED_TOKEN_INFO : list (string * TokenInfo) := [
  ("SOL",
   {| name := "Solana";
      symbol := "SOL";
      decimals := 9;
      description := "Native token of the Solana blockchain";
      useCases := "Transaction fees, staking, governance";
      price_range := "$20-$100";
      trend_indicators := ["Network activity"; "DeFi growth"];
      category := "Layer 1" |});
  ("USDC",
   {| name := "USD Coin";
      symbol := "USDC";
      decimals := 6;
      description := "Stablecoin pegged to USD";
      useCases := "Stable value transfer, trading";
      price_range := "~$1.00";
      trend_indicators := ["Market adoption"; "Regulatory compliance"];
      category := "Stablecoin" |})
].

(** The first loop of [extractTokensFromMessage], over the symbols of
    [table]. *)
Definition symbols_mentioned (table : list (string * TokenInfo))
  (normalizedMessage : string) : list string :=
  filter (fun token => includes normalizedMessage (toLowerCase token)) (keys table).

(** The second loop, over the entries of [table], which extends
    [tokens]. *)
Definition names_mentioned (table : list (string * TokenInfo))
  (normalizedMessage : string) (tokens : list string) : list string :=
  fold_left
    (fun tokens entry =>
       if includes normalizedMessage (toLowerCase (name (snd entry))) &&
          negb (array_includes tokens (fst entry))
       then (tokens ++ [fst entry])%list
       else tokens)
    table tokens.

Definition extractTokensFromMessage (message : string) : list string :=
  let normalizedMessage := toLowerCase message in
  names_mentioned ENHANCED_TOKEN_INFO normalizedMessage
    (symbols_mentioned ENHANCED_TOKEN_INFO normalizedMessage).

End AdvancedAISystem.

(** ** More samples *)

(** The operation and the match that the catalog finds for [prompt]. *)
Definition sample_route (prompt : string) : string * Operation unit * RegExpMatchArray :=
  match find_operation (OPERATIONS sample_env) prompt with
  | Some found => found
  | None =>
      ("", {| op_description := ""; patterns := []; handler := @swap_handler unit |},
       {| index := 0; input := prompt; elements := [] |})
  end.

(** A host like the sample one whose price feed answers 150. *)
Definition priced_env : Env unit unit :=
  {| detectSolanaAddress := detectSolanaAddress sample_env;
     fetchTokenPrice := fun _ => Normal (Some (of_Z 150));
     parseDateQuery := parseDateQuery sample_env;
     getTransactionsForDateRange := getTransactionsForDateRange sample_env;
     formatTransactionsForDisplay := formatTransactionsForDisplay sample_env;
     getMarketAnalysis := getMarketAnalysis sample_env;
     Date_now := 0;
     Math_random := Math_random sample_env |}.

(** A session of four turns. *)
Definition sample_turns : list Turn := [
  {| turn_prompt := "Check my balance"; turn_context := sample_context "10" |};
  {| turn_prompt := "explain sol"; turn_context := sample_context "10" |};
  {| turn_prompt := prompt_send "5" "SOL"; turn_context := sample_context "10" |};
  {| turn_prompt := "hello there"; turn_context := sample_context "10" |}
].

(* ===================================================================== *)
(** * Properties *)

Unset Implicit Arguments.

(** ** Order of binary64 numbers *)

Module NumberFacts.
Import JsNumber.

Lemma compare_antisym (x y : number) :
  SFcompare y x = option_map CompOpp (SFcompare x y).
Proof.
  destruct x as [sx | sx | | sx mx ex], y as [sy | sy | | sy my ey]; simpl;
    try reflexivity;
    try (destruct sx; reflexivity);
    try (destruct sy; reflexivity);
    try (destruct sx, sy; reflexivity).
  destruct sx, sy; try reflexivity;
    rewrite (Z.compare_antisym ex ey);
    destruct (ex ?= ey)%Z; simpl; try reflexivity;
    change (Pos.compare_cont Eq my mx) with (Pos.compare my mx);
    change (Pos.compare_cont Eq mx my) with (Pos.compare mx my);
    rewrite (Pos.compare_antisym mx my);
    destruct (mx ?= my)%positive; reflexivity.
Qed.

(** [x <= y] excludes [x > y]. *)
Lemma le_not_gt (x y : number) : le x y = true -> gt x y = false.
Proof.
  unfold le, gt, SFleb, SFltb. rewrite (compare_antisym x y).
  destruct (SFcompare x y) as [[ | | ] | ]; simpl; congruence.
Qed.

(** [x >= y] excludes [x < y]. *)
Lemma ge_not_lt (x y : number) : ge x y = true -> lt x y = false.
Proof.
  unfold ge, lt, SFleb, SFltb. rewrite (compare_antisym y x).
  destruct (SFcompare y x) as [[ | | ] | ]; simpl; congruence.
Qed.

(** A number above zero is not NaN and fails the test [x <= 0]. *)
Lemma gt_zero_positive (x : number) :
  gt x zero = true -> isNaN x = false /\ le x zero = false.
Proof.
  destruct x as [s | s | | s m e]; simpl; try discriminate;
    destruct s; simpl; try discriminate; split; reflexivity.
Qed.

(** Above a non-negative number is above zero. *)
Lemma gt_nonneg_gt_zero (x b : number) :
  le zero b = true -> gt x b = true -> gt x zero = true.
Proof.
  destruct b as [sb | sb | | sb mb eb], x as [sx | sx | | sx mx ex];
    try destruct sb; try destruct sx; simpl; try discriminate; try reflexivity.
Qed.

End NumberFacts.

(** ** Rounding of [toFixed] *)

Module FixedFacts.
Import JsNumber.

(** In its digit-by-digit range, [toFixed] prints the nearest scaled
    integer. *)
Lemma toFixed_in_range (x : number) (f : nat) :
  in_fixed_range x = true ->
  toFixed x f = fixed_digits (nearest_scaled x (Z.of_nat f)) f.
Proof.
  destruct x as [sx | sx | | sx m e]; cbn [in_fixed_range]; try discriminate.
  - intros _. unfold toFixed, nearest_scaled. cbn [to_Q].
    replace (Qfloor (0 * inject_Z (10 ^ Z.of_nat f) + (1 # 2))) with 0%Z;
      [reflexivity | ].
    unfold Qfloor, Qplus, Qmult, inject_Z. cbn. reflexivity.
  - destruct sx; [discriminate | ]. intros H.
    apply negb_true_iff in H. unfold toFixed. rewrite H. reflexivity.
Qed.

(** The nearest scaled integer, the larger on a tie. *)
Lemma nearest_scaled_bounds (x : number) (f : Z) :
  (inject_Z (nearest_scaled x f) - (1 # 2) <= to_Q x * inject_Z (10 ^ f) /\
   to_Q x * inject_Z (10 ^ f) < inject_Z (nearest_scaled x f) + (1 # 2))%Q.
Proof.
  unfold nearest_scaled.
  set (v := (to_Q x * inject_Z (10 ^ f))%Q).
  pose proof (Qfloor_le (v + (1 # 2))) as Hle.
  pose proof (Qlt_floor (v + (1 # 2))) as Hlt.
  rewrite inject_Z_plus in Hlt.
  change (inject_Z 1) with 1%Q in Hlt.
  set (n := inject_Z (Qfloor (v + (1 # 2)))) in *.
  split; lra.
Qed.

End FixedFacts.

(** ** Captures of the matcher *)

Module RegExpFacts.
Import RegExp.

Lemma set_nth_length {A} (i : nat) (x : A) (l : list A) :
  List.length (set_nth i x l) = List.length l.
Proof.
  revert i. induction l as [ | y l IH]; intros [ | i]; cbn; try reflexivity.
  rewrite IH. reflexivity.
Qed.

Lemma set_nth_same {A} (i : nat) (x : A) (l : list A) :
  (i < List.length l)%nat -> nth_error (set_nth i x l) i = Some x.
Proof.
  revert i. induction l as [ | y l IH]; intros [ | i] H; cbn in *; try lia.
  - reflexivity.
  - apply IH. lia.
Qed.

Lemma set_nth_other {A} (i j : nat) (x : A) (l : list A) :
  i <> j -> nth_error (set_nth j x l) i = nth_error l i.
Proof.
  revert i j. induction l as [ | y l IH]; intros [ | i] [ | j] H; cbn;
    try reflexivity; try congruence.
  apply IH. congruence.
Qed.

Lemma reset_length (gs : list nat) (st : mstate) :
  List.length (caps (reset_groups gs st)) = List.length (caps st).
Proof.
  unfold reset_groups. cbn [caps]. generalize (caps st).
  induction gs as [ | g gs IH]; intros cs; [reflexivity | ].
  cbn [fold_left]. rewrite IH. apply set_nth_length.
Qed.

Lemma reset_frame (gs : list nat) (st : mstate) (i : nat) :
  ~ In i gs -> nth_error (caps (reset_groups gs st)) i = nth_error (caps st) i.
Proof.
  unfold reset_groups. cbn [caps]. generalize (caps st).
  induction gs as [ | g gs IH]; intros cs H; [reflexivity | ].
  cbn [fold_left]. rewrite IH.
  - apply set_nth_other. intros ->. apply H. left. reflexivity.
  - intros Hin. apply H. right. exact Hin.
Qed.

Lemma framed_refl gs st : framed gs st st.
Proof. split; [reflexivity | intros; reflexivity]. Qed.

Lemma framed_trans gs1 gs2 gs st st1 st2 :
  incl gs1 gs -> incl gs2 gs ->
  framed gs1 st st1 -> framed gs2 st1 st2 -> framed gs st st2.
Proof.
  intros I1 I2 [L1 F1] [L2 F2]. split; [congruence | ].
  intros i Hi. rewrite F2, F1; [reflexivity | | ];
    intros Hin; apply Hi; [apply I1 | apply I2]; exact Hin.
Qed.

Lemma or_else_some {A} (a b : option A) (x : A) :
  or_else a b = Some x -> a = Some x \/ b = Some x.
Proof. destruct a; cbn; auto. Qed.

Lemma star_loop_sound mr gs greedy k :
  sound (framed gs) mr ->
  forall fuel st res,
    star_loop mr gs greedy k fuel st = Some res ->
    exists st1, k st1 = Some res /\ framed gs st st1.
Proof.
  intros Hmr. induction fuel as [ | f IH]; intros st res H; cbn [star_loop] in H.
  - exists st. split; [exact H | apply framed_refl].
  - assert (Hcases :
      mr (reset_groups gs st)
         (fun st' => if (pos st <? pos st')%nat
                     then star_loop mr gs greedy k f st' else None) = Some res \/
      k st = Some res).
    { destruct greedy; apply or_else_some in H; tauto. }
    destruct Hcases as [Hagain | Hk].
    + apply Hmr in Hagain. destruct Hagain as (st' & Hloop & Hframe).
      destruct (pos st <? pos st')%nat; [ | discriminate].
      apply IH in Hloop. destruct Hloop as (st1 & Hk & Hframe').
      exists st1. split; [exact Hk | ].
      apply (framed_trans gs gs gs st st' st1); try apply incl_refl; [ | exact Hframe'].
      apply (framed_trans gs gs gs st (reset_groups gs st) st');
        try apply incl_refl; [ | exact Hframe].
      split; [apply reset_length | intros i Hi; apply reset_frame; exact Hi].
    + exists st. split; [exact Hk | apply framed_refl].
Qed.

Lemma step_sound (p : ascii -> bool) st k res :
  step p st k = Some res ->
  exists st1, k st1 = Some res /\ caps st1 = caps st.
Proof.
  unfold step. destruct (rest st) as [ | c s']; [discriminate | ].
  destruct (p c); [ | discriminate]. intros H. eexists. split; [exact H | reflexivity].
Qed.

Lemma reach_same r st st1 :
  caps st1 = caps st -> (forall i, sets i r = false) -> reach r st st1.
Proof.
  intros E Hs. split.
  - split; [rewrite E; reflexivity | intros; rewrite E; reflexivity].
  - intros i _ H. rewrite Hs in H. discriminate.
Qed.

Lemma existsb_eqb_false (i : nat) (gs : list nat) :
  existsb (Nat.eqb i) gs = false -> ~ In i gs.
Proof.
  intros H Hin. assert (existsb (Nat.eqb i) gs = true); [ | congruence].
  apply existsb_exists. exists i. split; [exact Hin | apply Nat.eqb_refl].
Qed.

(** The matcher passes to its continuation a state that it reaches. *)
Lemma m_sound (icase : bool) (r : regex) : sound (reach r) (m icase r).
Proof.
  induction r as [ | c | cl | r1 IH1 r2 IH2 | r1 IH1 r2 IH2 | g r1 IH1
                 | j r1 IH1 | | | | ];
    intros st k res H; cbn [m] in H.
  - exists st. split; [exact H | apply reach_same; reflexivity].
  - apply step_sound in H. destruct H as (st1 & Hk & E).
    exists st1. split; [exact Hk | apply reach_same; [exact E | reflexivity]].
  - apply step_sound in H. destruct H as (st1 & Hk & E).
    exists st1. split; [exact Hk | apply reach_same; [exact E | reflexivity]].
  - apply IH1 in H. destruct H as (st1 & H & [F1 S1]).
    apply IH2 in H. destruct H as (st2 & Hk & [F2 S2]).
    exists st2. split; [exact Hk | ]. split.
    + apply (framed_trans (groups_of r1) (groups_of r2) _ st st1 st2);
        cbn [groups_of]; [apply incl_appl | apply incl_appr | | ];
        try apply incl_refl; assumption.
    + intros i Hi Hs. cbn [sets] in Hs. apply orb_true_iff in Hs.
      destruct Hs as [Hs | Hs].
      * apply andb_true_iff in Hs. destruct Hs as [Hs Hn].
        apply negb_true_iff, existsb_eqb_false in Hn.
        destruct (S1 i Hi Hs) as [t Ht]. exists t.
        rewrite (proj2 F2 i Hn). exact Ht.
      * apply S2; [rewrite (proj1 F1); exact Hi | exact Hs].
  - apply or_else_some in H. destruct H as [H | H].
    + apply IH1 in H. destruct H as (st1 & Hk & [F1 S1]).
      exists st1. split; [exact Hk | ]. split.
      * apply (framed_trans (groups_of r1) [] _ st st1 st1);
          cbn [groups_of]; [apply incl_appl, incl_refl | intros x [] | exact F1
                           | apply framed_refl].
      * intros i Hi Hs. cbn [sets] in Hs. apply andb_true_iff in Hs.
        apply S1; tauto.
    + apply IH2 in H. destruct H as (st1 & Hk & [F2 S2]).
      exists st1. split; [exact Hk | ]. split.
      * apply (framed_trans (groups_of r2) [] _ st st1 st1);
          cbn [groups_of]; [apply incl_appr, incl_refl | intros x [] | exact F2
                           | apply framed_refl].
      * intros i Hi Hs. cbn [sets] in Hs. apply andb_true_iff in Hs.
        apply S2; tauto.
  - apply (star_loop_sound (m icase r1) (groups_of r1) g k) in H.
    + destruct H as (st1 & Hk & F). exists st1. split; [exact Hk | ].
      split; [exact F | intros i _ Hs; discriminate Hs].
    + intros st' k' res' H'. apply IH1 in H'.
      destruct H' as (st1 & Hk & [F _]). exists st1. split; assumption.
  - apply IH1 in H. destruct H as (st1 & Hk & [[L1 F1] S1]).
    exists (close_group j st st1). split; [exact Hk | ]. split.
    + split.
      * cbn [close_group caps]. rewrite set_nth_length. exact L1.
      * intros i Hi. cbn [close_group caps groups_of] in *.
        rewrite set_nth_other.
        -- apply F1. intros Hin. apply Hi. right. exact Hin.
        -- intros ->. apply Hi. left. reflexivity.
    + intros i Hi Hs. cbn [sets] in Hs. unfold captured. cbn [close_group caps].
      destruct (Nat.eqb_spec i j) as [-> | Hne].
      * eexists. apply set_nth_same. rewrite L1. exact Hi.
      * cbn [orb] in Hs. rewrite set_nth_other by exact Hne. apply S1; assumption.
  - destruct (pos st =? 0)%nat; [ | discriminate].
    exists st. split; [exact H | apply reach_same; reflexivity].
  - destruct (rest st); [ | discriminate].
    exists st. split; [exact H | apply reach_same; reflexivity].
  - destruct (xorb _ _); [ | discriminate].
    exists st. split; [exact H | apply reach_same; reflexivity].
  - discriminate.
Qed.

(** A group that every match of the pattern defines is defined in the
    match array. *)
Lemma search_captured (r : RegExp) (whole : string) (i : nat) :
  sets i (expr r) = true -> (0 < i <= ngroups r)%nat ->
  forall s pr p mt,
    search r whole pr s p = Some mt -> exists t, get mt i = Some t.
Proof.
  intros Hs Hi. induction s as [ | c s IH]; intros pr p mt H; cbn [search] in H.
  all: match type of H with
       | match m ?ic ?e ?st0 Some with _ => _ end = _ =>
           destruct (m ic e st0 Some) as [st' | ] eqn:Hm
       end.
  all: try discriminate.
  all: try (apply (IH _ _ _ H)).
  all: injection H as <-; apply m_sound in Hm;
    destruct Hm as (st1 & [= ->] & [[L F] S1]);
    cbn [caps] in *; rewrite List.repeat_length in *;
    destruct (S1 i ltac:(lia) Hs) as [t Ht]; exists t;
    unfold get; cbn [elements];
    destruct i as [ | i]; [lia | ];
    destruct (caps st') as [ | c0 cs]; [discriminate | ];
    cbn [tl nth nth_error] in *;
    apply nth_error_nth with (d := None) in Ht; exact Ht.
Qed.

Lemma exec_captured (r : RegExp) (s : string) (mt : RegExpMatchArray) (i : nat) :
  sets i (expr r) = true -> (0 < i <= ngroups r)%nat ->
  exec r s = Some mt -> exists t, get mt i = Some t.
Proof. intros Hs Hi H. exact (search_captured r s i Hs Hi s None 0%nat mt H). Qed.

(** The match array has one element for the match and one per group. *)
Lemma search_elements (r : RegExp) (whole : string) :
  forall s pr p mt,
    search r whole pr s p = Some mt ->
    List.length (elements mt) = S (ngroups r).
Proof.
  induction s as [ | c s IH]; intros pr p mt H; cbn [search] in H.
  all: match type of H with
       | match m ?ic ?e ?st0 Some with _ => _ end = _ =>
           destruct (m ic e st0 Some) as [st' | ] eqn:Hm
       end.
  all: try discriminate.
  all: try (apply (IH _ _ _ H)).
  all: injection H as <-; apply m_sound in Hm;
    destruct Hm as (st1 & [= ->] & [[L F] S1]);
    cbn [caps elements List.length] in *; rewrite List.repeat_length in L;
    destruct (caps st') as [ | c0 cs]; [discriminate | ];
    cbn [tl List.length] in *; lia.
Qed.

(** A pattern without groups captures nothing. *)
Lemma exec_no_capture (r : RegExp) (s : string) (mt : RegExpMatchArray) (i : nat) :
  ngroups r = 0%nat -> (0 < i)%nat -> exec r s = Some mt -> get mt i = None.
Proof.
  intros Hn Hi H. apply search_elements in H. rewrite Hn in H.
  unfold get. destruct (elements mt) as [ | e [ | e' es]]; try discriminate.
  destruct i as [ | [ | i]]; [lia | reflexivity | reflexivity].
Qed.

(** Every pattern of the processor is in the supported syntax. *)
Lemma patterns_well_formed :
  forallb (fun p => well_formed (source p)) all_patterns = true.
Proof. vm_compute. reflexivity. Qed.

End RegExpFacts.

(** ** Unfolding the computations *)

Create HintDb processor.

#[export] Hint Unfold bind ret throw lift defined get_state catch
  set_conversationContext set_cachedTokenPrices random and_random_above : processor.

Ltac run := autounfold with processor; cbn beta iota.


Import NumberFacts FixedFacts RegExpFacts.

(** ** The transaction safety guard *)

Section TransferGuard.

Variables Transaction Date : Type.
Variable env : Env Transaction Date.

Implicit Types (mt : RegExpMatchArray) (context : Context) (s : State).

Lemma truthy_string_some (x : option string) (a : string) :
  truthy_string x = Some a -> x = Some a.
Proof.
  destruct x as [b | ]; cbn; [ | discriminate].
  destruct (JsString.truthy b); congruence.
Qed.

Lemma truthy_string_intro (x : option string) (a : string) :
  x = Some a -> JsString.truthy a = true -> truthy_string x = Some a.
Proof. intros -> H. cbn. rewrite H. reflexivity. Qed.

(** The branches of the handler, one equation each. *)

Lemma transfer_not_connected mt context s :
  walletConnected context = false ->
  transfer_handler env mt context s = (Normal connect_wallet_response, s).
Proof.
  intros Hc. unfold transfer_handler. rewrite Hc. reflexivity.
Qed.

Lemma transfer_no_token mt context s :
  walletConnected context = true ->
  get mt 2 = None ->
  transfer_handler env mt context s = (Throw (TypeError "toUpperCase"), s).
Proof.
  intros Hc H2. unfold transfer_handler. run. rewrite Hc, H2. reflexivity.
Qed.

Section Connected.

Variables (mt : RegExpMatchArray) (context : Context) (s : State) (tok : string).
Hypothesis Hconnected : walletConnected context = true.
Hypothesis Htoken : get mt 2 = Some tok.

Lemma transfer_no_address :
  truthy_string (detectSolanaAddress env (transfer_message mt context)) = None ->
  transfer_handler env mt context s = (Normal no_address_response, s).
Proof.
  intros Ha. unfold transfer_handler. run. rewrite Hconnected, Htoken, Ha.
  reflexivity.
Qed.

Variable recipient : string.
Hypothesis Haddress :
  truthy_string (detectSolanaAddress env (transfer_message mt context)) = Some recipient.

Let A : number := parseFloat_arg (get mt 1).
Let B : number := balance context.

Lemma transfer_invalid_amount :
  isNaN A || le A zero = true ->
  transfer_handler env mt context s = (Normal invalid_amount_response, s).
Proof.
  intros Hv. unfold transfer_handler. run.
  rewrite Hconnected, Htoken, Haddress. fold A. rewrite Hv. reflexivity.
Qed.

Hypothesis Hvalid : isNaN A || le A zero = false.

Lemma transfer_sol_insufficient :
  String.eqb (toUpperCase tok) "SOL" = true ->
  gt A B = true ->
  transfer_handler env mt context s = (Normal (insufficient_balance_response B A), s).
Proof.
  intros Hsol Hgt. unfold transfer_handler. run.
  rewrite Hconnected, Htoken, Haddress. fold A B. rewrite Hvalid, Hsol, Hgt.
  reflexivity.
Qed.

Lemma transfer_sol_fees :
  String.eqb (toUpperCase tok) "SOL" = true ->
  gt A B = false ->
  gt (add A transactionFee) B = true ->
  transfer_handler env mt context s = (Normal (insufficient_for_fees_response B A), s).
Proof.
  intros Hsol Hgt Hfee. unfold transfer_handler. run.
  rewrite Hconnected, Htoken, Haddress. fold A B. rewrite Hvalid, Hsol, Hgt, Hfee.
  reflexivity.
Qed.

Lemma transfer_sol_confirmed :
  String.eqb (toUpperCase tok) "SOL" = true ->
  gt A B = false ->
  gt (add A transactionFee) B = false ->
  transfer_handler env mt context s =
    (Normal (confirmation_response recipient A (toUpperCase tok)), s).
Proof.
  intros Hsol Hgt Hfee. unfold transfer_handler. run.
  rewrite Hconnected, Htoken, Haddress. fold A B. rewrite Hvalid, Hsol, Hgt, Hfee.
  reflexivity.
Qed.

Lemma transfer_token_no_fee :
  String.eqb (toUpperCase tok) "SOL" = false ->
  lt B transactionFee = true ->
  transfer_handler env mt context s = (Normal (insufficient_fee_balance_response B), s).
Proof.
  intros Hsol Hlt. unfold transfer_handler. run.
  rewrite Hconnected, Htoken, Haddress. fold A B. rewrite Hvalid, Hsol, Hlt.
  reflexivity.
Qed.

Lemma transfer_token_confirmed :
  String.eqb (toUpperCase tok) "SOL" = false ->
  lt B transactionFee = false ->
  transfer_handler env mt context s =
    (Normal (confirmation_response recipient A (toUpperCase tok)), s).
Proof.
  intros Hsol Hlt. unfold transfer_handler. run.
  rewrite Hconnected, Htoken, Haddress. fold A B. rewrite Hvalid, Hsol, Hlt.
  reflexivity.
Qed.

End Connected.

Lemma transfer_cases mt context s :
  transfer_result env mt context (fst (transfer_handler env mt context s)) /\
  snd (transfer_handler env mt context s) = s.
Proof.
  destruct (walletConnected context) eqn:Hc.
  2:{ rewrite transfer_not_connected by assumption. split; [ | reflexivity].
      now apply result_clarification. }
  destruct (get mt 2) as [tok | ] eqn:Ht.
  2:{ rewrite transfer_no_token by assumption. split; [ | reflexivity].
      apply result_throw. exact Ht. }
  destruct (truthy_string (detectSolanaAddress env (transfer_message mt context)))
    as [recipient | ] eqn:Ha.
  2:{ rewrite (transfer_no_address mt context s tok Hc Ht Ha). split; [ | reflexivity].
      now apply result_clarification. }
  destruct (isNaN (parseFloat_arg (get mt 1)) || le (parseFloat_arg (get mt 1)) zero)
    eqn:Hv.
  { rewrite (transfer_invalid_amount mt context s tok Hc Ht recipient Ha Hv). split; [ | reflexivity].
    now apply result_clarification. }
  pose proof (truthy_string_some _ _ Ha) as Hd.
  destruct (String.eqb (toUpperCase tok) "SOL") eqn:Hsol.
  - destruct (gt (parseFloat_arg (get mt 1)) (balance context)) eqn:Hgt.
    { rewrite (transfer_sol_insufficient mt context s tok Hc Ht recipient Ha Hv Hsol Hgt).
      split; [ | reflexivity]. now apply result_clarification. }
    destruct (gt (add (parseFloat_arg (get mt 1)) transactionFee) (balance context))
      eqn:Hfee.
    { rewrite (transfer_sol_fees mt context s tok Hc Ht recipient Ha Hv Hsol Hgt Hfee).
      split; [ | reflexivity]. now apply result_clarification. }
    rewrite (transfer_sol_confirmed mt context s tok Hc Ht recipient Ha Hv Hsol Hgt Hfee).
    split; [ | reflexivity]. now apply result_confirmation.
  - destruct (lt (balance context) transactionFee) eqn:Hlt.
    { rewrite (transfer_token_no_fee mt context s tok Hc Ht recipient Ha Hv Hsol Hlt).
      split; [ | reflexivity]. now apply result_clarification. }
    rewrite (transfer_token_confirmed mt context s tok Hc Ht recipient Ha Hv Hsol Hlt).
    split; [ | reflexivity]. now apply result_confirmation.
Qed.


(** The patterns whose matches the transfer handler is called with: the
    pattern of the fast path and the two of the catalog. *)
Lemma transfer_match_captures (pattern : RegExp) (text : string) mt :
  In pattern (transfer_fast_pattern :: transfer_patterns) ->
  exec pattern text = Some mt ->
  exists amt tok, get mt 1 = Some amt /\ get mt 2 = Some tok.
Proof.
  intros Hin Hexec.
  assert (H : forall i, (0 < i <= 2)%nat -> exists t, get mt i = Some t).
  { intros i Hi. cbn [In transfer_patterns] in Hin.
    assert (Hi' : i = 1%nat \/ i = 2%nat) by lia.
    destruct Hin as [<- | [<- | [<- | []]]];
      match type of Hexec with
      | exec ?p _ = _ => apply (exec_captured p text mt i); [ | | exact Hexec]
      end;
      destruct Hi' as [-> | ->]; vm_compute; try reflexivity; lia. }
  destruct (H 1%nat ltac:(lia)) as [amt Ha].
  destruct (H 2%nat ltac:(lia)) as [tok Ht].
  exists amt, tok. split; assumption.
Qed.

(** On a match of a transfer pattern the handler returns normally, and
    leaves the state as it was. *)
Lemma transfer_returns (pattern : RegExp) (text : string) mt context s :
  In pattern (transfer_fast_pattern :: transfer_patterns) ->
  exec pattern text = Some mt ->
  exists response,
    transfer_handler env mt context s = (Normal response, s) /\
    transfer_result env mt context (Normal response).
Proof.
  intros Hin Hexec.
  destruct (transfer_match_captures pattern text mt Hin Hexec)
    as (amt & tok & _ & Ht).
  destruct (transfer_cases mt context s) as [Hcases Hstate].
  destruct (transfer_handler env mt context s) as [[response | e] s1];
    cbn [fst snd] in *; subst s1.
  - exists response. split; [reflexivity | exact Hcases].
  - inversion Hcases as [e' Hnone | | ]. congruence.
Qed.

(** C1. On every match of a transfer pattern, with the wallet connected,
    when the address detector finds no address in the raw message the
    handler returns the clarification that asks for a valid Solana
    address, with a null intent; and whenever the handler returns a
    transfer intent, on whatever match, its recipient is the string that
    the address detector returned for the raw message. *)
Theorem transfer_requires_detected_address mt context s :
  (forall pattern text,
     In pattern (transfer_fast_pattern :: transfer_patterns) ->
     exec pattern text = Some mt ->
     walletConnected context = true ->
     detectSolanaAddress env (transfer_message mt context) = None ->
     transfer_handler env mt context s = (Normal no_address_response, s) /\
     intent (@no_address_response Transaction) = Some IntentNull) /\
  (forall response recipient amount token,
     fst (transfer_handler env mt context s) = Normal response ->
     intent response = Some (TransferIntent recipient amount token) ->
     detectSolanaAddress env (transfer_message mt context) = Some recipient).
Proof.
  split.
  - intros pattern text Hin Hexec Hc Hd. split; [ | reflexivity].
    destruct (transfer_match_captures pattern text mt Hin Hexec)
      as (amt & tok & _ & Ht).
    apply (transfer_no_address mt context s tok Hc Ht).
    rewrite Hd. reflexivity.
  - intros response recipient amount token Hr Hi.
    destruct (transfer_cases mt context s) as [Hcases _].
    rewrite Hr in Hcases.
    inversion Hcases as [ | r Hnull Heq | r A t Hd Heq]; subst.
    + rewrite Hnull in Hi. discriminate Hi.
    + cbn [intent confirmation_response] in Hi.
      injection Hi as -> _ _. exact Hd.
Qed.

Section SolTransfer.

Variables (mt : RegExpMatchArray) (context : Context) (s : State).
Variables (amt tok recipient : string).
Hypothesis Hconnected : walletConnected context = true.
Hypothesis Hamount : get mt 1 = Some amt.
Hypothesis Htoken : get mt 2 = Some tok.
Hypothesis Hdetected :
  detectSolanaAddress env (transfer_message mt context) = Some recipient.
Hypothesis Hnonempty : JsString.truthy recipient = true.

Let A : number := parseFloat amt.
Let B : number := balance context.

Lemma amount_parsed : parseFloat_arg (get mt 1) = A.
Proof. rewrite Hamount. reflexivity. Qed.

Lemma address_truthy :
  truthy_string (detectSolanaAddress env (transfer_message mt context)) =
  Some recipient.
Proof. apply truthy_string_intro; assumption. Qed.

Lemma positive_amount_valid :
  gt A zero = true ->
  isNaN (parseFloat_arg (get mt 1)) || le (parseFloat_arg (get mt 1)) zero = false.
Proof.
  intros Hpos. rewrite amount_parsed.
  destruct (gt_zero_positive A Hpos) as [-> ->]. reflexivity.
Qed.

(** The fee shortfall of a SOL transfer. *)
Lemma sol_fee_shortfall :
  toUpperCase tok = "SOL" ->
  gt A zero = true ->
  ge B A = true ->
  gt (add A transactionFee) B = true ->
  transfer_handler env mt context s =
    (Normal (insufficient_for_fees_response B A), s).
Proof.
  intros Hsol Hpos Hge Hfee.
  rewrite (transfer_sol_fees mt context s tok Hconnected Htoken recipient
             address_truthy (positive_amount_valid Hpos));
    rewrite ?amount_parsed; try reflexivity; try assumption.
  - rewrite Hsol. reflexivity.
  - apply le_not_gt. exact Hge.
Qed.

(** The balance shortfall of a SOL transfer. *)
Lemma sol_balance_shortfall :
  toUpperCase tok = "SOL" ->
  le zero B = true ->
  gt A B = true ->
  transfer_handler env mt context s =
    (Normal (insufficient_balance_response B A), s).
Proof.
  intros Hsol Hnonneg Hgt.
  pose proof (gt_nonneg_gt_zero A B Hnonneg Hgt) as Hpos.
  rewrite (transfer_sol_insufficient mt context s tok Hconnected Htoken recipient
             address_truthy (positive_amount_valid Hpos));
    rewrite ?amount_parsed; try reflexivity; try assumption.
  rewrite Hsol. reflexivity.
Qed.

(** A transfer of another token, by the test on the SOL balance. *)
Lemma token_fee_present :
  toUpperCase tok <> "SOL" ->
  gt A zero = true ->
  lt B transactionFee = false ->
  transfer_handler env mt context s =
    (Normal (confirmation_response recipient A (toUpperCase tok)), s).
Proof.
  intros Hsol Hpos Hlt.
  rewrite (transfer_token_confirmed mt context s tok Hconnected Htoken recipient
             address_truthy (positive_amount_valid Hpos));
    rewrite ?amount_parsed; try reflexivity; try assumption.
  apply String.eqb_neq. exact Hsol.
Qed.

Lemma token_fee_missing :
  toUpperCase tok <> "SOL" ->
  gt A zero = true ->
  lt B transactionFee = true ->
  transfer_handler env mt context s =
    (Normal (insufficient_fee_balance_response B), s).
Proof.
  intros Hsol Hpos Hlt.
  rewrite (transfer_token_no_fee mt context s tok Hconnected Htoken recipient
             address_truthy (positive_amount_valid Hpos));
    rewrite ?amount_parsed; try reflexivity; try assumption.
  apply String.eqb_neq. exact Hsol.
Qed.

End SolTransfer.

(** The fee-shortfall branch. For a SOL transfer with the wallet
    connected, a detected recipient, an amount [A > 0] and a balance [B]
    with [B >= A] and [A + 0.000005 > B], the handler returns the
    insufficient-for-fees response, with a null intent, whose suggested
    amount is [max(0, B - 0.000005)] printed by [toFixed(4)]: when that
    number is in the range that [toFixed] prints digit by digit, the digits
    are those of the integer [n] nearest to its ten-thousandfold, the
    larger on a tie. *)
Theorem transfer_fee_shortfall_suggestion mt context s amt tok recipient :
  walletConnected context = true ->
  get mt 1 = Some amt ->
  get mt 2 = Some tok ->
  toUpperCase tok = "SOL" ->
  detectSolanaAddress env (transfer_message mt context) = Some recipient ->
  JsString.truthy recipient = true ->
  gt (parseFloat amt) zero = true ->
  ge (balance context) (parseFloat amt) = true ->
  gt (add (parseFloat amt) transactionFee) (balance context) = true ->
  transfer_handler env mt context s =
    (Normal (insufficient_for_fees_response (balance context) (parseFloat amt)), s) /\
  intent (@insufficient_for_fees_response Transaction (balance context) (parseFloat amt)) =
    Some IntentNull /\
  suggestions
    (@insufficient_for_fees_response Transaction (balance context) (parseFloat amt)) =
    Some ["Send " ++
          toFixed (Math_max zero (sub (balance context) transactionFee)) 4 ++ " SOL";
          "Check my balance"] /\
  (in_fixed_range (Math_max zero (sub (balance context) transactionFee)) = true ->
   toFixed (Math_max zero (sub (balance context) transactionFee)) 4 =
     fixed_digits
       (nearest_scaled (Math_max zero (sub (balance context) transactionFee)) 4) 4 /\
   (inject_Z (nearest_scaled (Math_max zero (sub (balance context) transactionFee)) 4)
      - (1 # 2) <=
    to_Q (Math_max zero (sub (balance context) transactionFee)) * inject_Z 10000)%Q /\
   (to_Q (Math_max zero (sub (balance context) transactionFee)) * inject_Z 10000 <
    inject_Z (nearest_scaled (Math_max zero (sub (balance context) transactionFee)) 4)
      + (1 # 2))%Q).
Proof.
  intros Hc Ha Ht Hsol Hd Hn Hpos Hge Hfee.
  split; [ | split; [reflexivity | split; [reflexivity | ]]].
  - apply (sol_fee_shortfall mt context s amt tok recipient); assumption.
  - intros Hrange. split; [ | apply nearest_scaled_bounds].
    apply toFixed_in_range. exact Hrange.
Qed.

(** C4. For a transfer of a token other than SOL with the wallet
    connected, a detected recipient and an amount [A > 0], whatever the
    token balances of the context are, the response depends on the
    balances through the test [SOL balance < 0.000005] alone; the handler
    returns the transfer intent whenever the SOL balance is at least the
    fee. *)
Theorem transfer_token_checks_only_fee mt context s amt tok recipient :
  walletConnected context = true ->
  get mt 1 = Some amt ->
  get mt 2 = Some tok ->
  toUpperCase tok <> "SOL" ->
  detectSolanaAddress env (transfer_message mt context) = Some recipient ->
  JsString.truthy recipient = true ->
  gt (parseFloat amt) zero = true ->
  (forall balances,
     transfer_handler env mt (with_tokenBalances context balances) s =
       (Normal
          (if lt (balance context) transactionFee
           then insufficient_fee_balance_response (balance context)
           else confirmation_response recipient (parseFloat amt) (toUpperCase tok)),
        s)) /\
  (ge (balance context) transactionFee = true ->
   forall balances,
     transfer_handler env mt (with_tokenBalances context balances) s =
       (Normal (confirmation_response recipient (parseFloat amt) (toUpperCase tok)), s) /\
     intent (@confirmation_response Transaction recipient (parseFloat amt) (toUpperCase tok)) =
       Some (TransferIntent recipient (parseFloat amt) (toUpperCase tok))).
Proof.
  intros Hc Ha Ht Hsol Hd Hn Hpos. split.
  - intros balances.
    destruct (lt (balance context) transactionFee) eqn:Hlt.
    + apply (token_fee_missing mt (with_tokenBalances context balances) s amt tok
               recipient); assumption.
    + apply (token_fee_present mt (with_tokenBalances context balances) s amt tok
               recipient); assumption.
  - intros Hge balances. split; [ | reflexivity].
    apply (token_fee_present mt (with_tokenBalances context balances) s amt tok
             recipient); try assumption.
    apply ge_not_lt. exact Hge.
Qed.

(** C5. For a SOL transfer with the wallet connected, a detected recipient
    and an amount [A] above the (non-negative) balance [B], the handler
    returns the insufficient-balance clarification, with a null intent and
    the two fixed suggestions, whether or not [A + 0.000005 > B]. *)
Theorem transfer_sol_insufficient_balance mt context s amt tok recipient :
  walletConnected context = true ->
  get mt 1 = Some amt ->
  get mt 2 = Some tok ->
  toUpperCase tok = "SOL" ->
  detectSolanaAddress env (transfer_message mt context) = Some recipient ->
  JsString.truthy recipient = true ->
  le zero (balance context) = true ->
  gt (parseFloat amt) (balance context) = true ->
  transfer_handler env mt context s =
    (Normal (insufficient_balance_response (balance context) (parseFloat amt)), s) /\
  intent (@insufficient_balance_response Transaction (balance context) (parseFloat amt)) =
    Some IntentNull /\
  suggestions (@insufficient_balance_response Transaction (balance context) (parseFloat amt)) =
    Some ["Check my balance"; "How do I get more SOL?"].
Proof.
  intros Hc Ha Ht Hsol Hd Hn Hnonneg Hgt.
  split; [ | split; reflexivity].
  apply (sol_balance_shortfall mt context s amt tok recipient); assumption.
Qed.

End TransferGuard.

(** ** Computations that return normally *)

Section Safe.

Variables Transaction Date : Type.
Variable env : Env Transaction Date.

Lemma quiet_ret {A} (a : A) : quiet (ret a).
Proof. intros s. exists a, s. repeat split. Qed.

Lemma quiet_bind {A B} (c : M A) (k : A -> M B) :
  quiet c -> (forall a, quiet (k a)) -> quiet (bind c k).
Proof.
  intros Hc Hk s. destruct (Hc s) as (a & s1 & Hrun & Hcc & Hcache).
  destruct (Hk a s1) as (b & s2 & Hrun' & Hcc' & Hcache').
  exists b, s2. unfold bind. rewrite Hrun, Hrun'. repeat split; congruence.
Qed.

Lemma quiet_get_state : quiet get_state.
Proof. intros s. exists s, s. repeat split. Qed.

Lemma quiet_random : quiet (random env).
Proof. intros s. eexists _, _. repeat split. Qed.

Lemma quiet_and_random_above (cond : bool) (threshold : number) :
  quiet (and_random_above env cond threshold).
Proof.
  unfold and_random_above. destruct cond; [ | apply quiet_ret].
  apply quiet_bind; [apply quiet_random | intros r; apply quiet_ret].
Qed.

Lemma quiet_if {A} (b : bool) (c1 c2 : M A) :
  quiet c1 -> quiet c2 -> quiet (if b then c1 else c2).
Proof. destruct b; auto. Qed.

Lemma quiet_getPersonalizedTips (context : Context) :
  quiet (getPersonalizedTips env context).
Proof.
  unfold getPersonalizedTips.
  apply quiet_bind; [apply quiet_get_state | intros s0].
  apply quiet_bind; [apply quiet_and_random_above | intros t1].
  apply quiet_if; [apply quiet_ret | ].
  apply quiet_bind; [apply quiet_and_random_above | intros t2].
  match goal with
  | |- quiet (match ?o with Some _ => _ | None => _ end) => destruct o
  end; [apply quiet_ret | ].
  apply quiet_if; [apply quiet_ret | ].
  apply quiet_bind; [apply quiet_and_random_above | intros t4].
  apply quiet_if; [apply quiet_ret | ].
  apply quiet_bind; [apply quiet_and_random_above | intros t5].
  apply quiet_if; apply quiet_ret.
Qed.

End Safe.

(** ** The router *)

Section Router.

Variables Transaction Date : Type.
Variable env : Env Transaction Date.

Implicit Types (prompt : string) (context : Context) (s : State).

Lemma fast_path_skipped prompt :
  starts_with_transfer_verb (toLowerCase prompt) = false ->
  fast_path prompt = None.
Proof. intros H. unfold fast_path. rewrite H. reflexivity. Qed.

Lemma fast_path_taken prompt mt :
  starts_with_transfer_verb (toLowerCase prompt) = true ->
  exec transfer_fast_pattern (toLowerCase prompt) = Some mt ->
  fast_path prompt = Some mt.
Proof. intros H E. unfold fast_path. rewrite H. exact E. Qed.

(** A matched operation whose handler returns normally: the general path
    returns the handler's intent. *)
Lemma general_path_matched prompt context s opName operation mt result s1 :
  find_operation (OPERATIONS env) prompt = Some (opName, operation, mt) ->
  handler operation mt context (noted prompt opName s) = (Normal result, s1) ->
  exists tip s2,
    general_path env prompt context s = (Normal (decorated result tip s2), s2) /\
    conversationContext s2 = conversationContext s1.
Proof.
  intros Hfind Hrun.
  destruct (quiet_getPersonalizedTips _ _ env context s1)
    as (tip & s2 & Htip & Hcc & _).
  exists tip, s2. split; [ | exact Hcc].
  unfold general_path. rewrite Hfind. run.
  change {| conversationContext :=
              updateConversationContext prompt (Some opName) []
                (conversationContext s);
            cachedTokenPrices := cachedTokenPrices s;
            randomCalls := randomCalls s |} with (noted prompt opName s).
  rewrite Hrun, Htip. reflexivity.
Qed.

(** A matched operation whose handler throws: so does the general path. *)
Lemma general_path_thrown prompt context s opName operation mt e s1 :
  find_operation (OPERATIONS env) prompt = Some (opName, operation, mt) ->
  handler operation mt context (noted prompt opName s) = (Throw e, s1) ->
  general_path env prompt context s = (Throw e, s1).
Proof.
  intros Hfind Hrun. unfold general_path. rewrite Hfind. run.
  change {| conversationContext :=
              updateConversationContext prompt (Some opName) []
                (conversationContext s);
            cachedTokenPrices := cachedTokenPrices s;
            randomCalls := randomCalls s |} with (noted prompt opName s).
  rewrite Hrun. reflexivity.
Qed.

Lemma first_match_in (ps : list RegExp) (p : RegExp) prompt mt :
  In p ps -> exec p prompt = Some mt ->
  exists mt', first_match ps prompt = Some mt'.
Proof.
  induction ps as [ | q ps IH]; intros Hin Hexec; [destruct Hin | ].
  cbn [first_match]. destruct (exec q prompt) as [mq | ] eqn:Hq.
  - exists mq. reflexivity.
  - destruct Hin as [-> | Hin]; [congruence | ]. apply IH; assumption.
Qed.

(** The swap operation comes first in the catalog. *)
Lemma find_operation_swap prompt mt :
  first_match swap_patterns prompt = Some mt ->
  exists operation,
    find_operation (OPERATIONS env) prompt = Some ("swap", operation, mt) /\
    handler operation = @swap_handler Transaction.
Proof.
  intros H. eexists. unfold OPERATIONS. cbn [find_operation patterns].
  rewrite H. split; reflexivity.
Qed.

(** A prompt that a swap pattern matches, off the fast path. *)
Lemma swap_routed prompt context s mt :
  fast_path prompt = None ->
  first_match swap_patterns prompt = Some mt ->
  exists tip s',
    parseUserIntent env prompt context s =
      (decorated {| message := "Swap operation initiated";
                    intent := Some (SwapIntent (get mt 2) (parseFloat_arg (get mt 1)));
                    suggestions := None |} tip s', s').
Proof.
  intros Hfast Hswap.
  destruct (find_operation_swap prompt mt Hswap) as (operation & Hfind & Hh).
  destruct (general_path_matched prompt context s "swap" operation mt
              {| message := "Swap operation initiated";
                 intent := Some (SwapIntent (get mt 2) (parseFloat_arg (get mt 1)));
                 suggestions := None |}
              (noted prompt "swap" s) Hfind)
    as (tip & s2 & Hrun & _).
  { rewrite Hh. reflexivity. }
  exists tip, s2. unfold parseUserIntent, parseUserIntent_try.
  rewrite Hfast, Hrun. reflexivity.
Qed.


Lemma prefix_append (a b : string) : prefix a (a ++ b) = true.
Proof.
  induction a as [ | c a IH]; cbn.
  - destruct b; reflexivity.
  - destruct (ascii_dec c c); [exact IH | congruence].
Qed.

Lemma prefix_refl (a : string) : prefix a a = true.
Proof.
  induction a as [ | c a IH]; cbn; [reflexivity | ].
  destruct (ascii_dec c c); [exact IH | congruence].
Qed.

Lemma decorated_message_prefix (result : Response Transaction) tip s :
  prefix (message result) (message (decorated result tip s)) = true.
Proof.
  destruct tip as [t | ]; cbn [decorated message];
    [apply prefix_append | apply prefix_refl].
Qed.

Lemma lookup_transfer :
  exists operation,
    lookup "transfer" (OPERATIONS env) = Some operation /\
    handler operation = transfer_handler env.
Proof. eexists. split; reflexivity. Qed.

(** C3. A prompt whose lower-cased form starts with a transfer verb and
    matches the strict transfer pattern is answered by the transfer
    handler, run on that match and on the context extended with the
    prompt, before the catalog is consulted: the response is the one that
    the handler returns, the state is untouched, and the intent is never a
    swap intent. *)
Theorem transfer_fast_path_wins prompt context s mt :
  starts_with_transfer_verb (toLowerCase prompt) = true ->
  exec transfer_fast_pattern (toLowerCase prompt) = Some mt ->
  exists response,
    transfer_handler env mt (enhance context prompt) s = (Normal response, s) /\
    parseUserIntent env prompt context s = (response, s) /\
    forall token price, intent response <> Some (SwapIntent token price).
Proof.
  intros Hverb Hmatch.
  destruct lookup_transfer as (operation & Hlookup & Hhandler).
  destruct (transfer_returns _ _ env transfer_fast_pattern (toLowerCase prompt) mt
              (enhance context prompt) s (or_introl eq_refl) Hmatch)
    as (response & Hrun & Hcases).
  exists response. split; [exact Hrun | split].
  - unfold parseUserIntent, parseUserIntent_try.
    rewrite (fast_path_taken prompt mt Hverb Hmatch). run.
    rewrite Hlookup, Hhandler, Hrun. reflexivity.
  - intros token price.
    inversion Hcases as [ | r Hnull Heq | r A t Hd Heq].
    + rewrite Hnull. discriminate.
    + cbn [confirmation_response intent]. discriminate.
Qed.

(** C10. A prompt whose lower-cased form starts with none of the transfer
    verbs and that the verbless swap pattern matches is answered by the
    swap operation, the first of the catalog: the transfer handler is not
    run and the intent returned is a swap intent. *)
Theorem verbless_transfer_routed_to_swap prompt context s mt :
  starts_with_transfer_verb (toLowerCase prompt) = false ->
  exec generic_swap_pattern prompt = Some mt ->
  exists mt' operation,
    find_operation (OPERATIONS env) prompt = Some ("swap", operation, mt') /\
    handler operation = @swap_handler Transaction /\
    intent (fst (parseUserIntent env prompt context s)) =
      Some (SwapIntent (get mt' 2) (parseFloat_arg (get mt' 1))).
Proof.
  intros Hverb Hmatch.
  destruct (first_match_in swap_patterns generic_swap_pattern prompt mt)
    as [mt' Hfirst]; [ | exact Hmatch | ].
  { cbn. tauto. }
  destruct (find_operation_swap prompt mt' Hfirst) as (operation & Hfind & Hh).
  destruct (swap_routed prompt context s mt' (fast_path_skipped prompt Hverb) Hfirst)
    as (tip & s' & Hrun).
  exists mt', operation. repeat split; try assumption.
  rewrite Hrun. reflexivity.
Qed.

Lemma first_match_exec (ps : list RegExp) prompt mt :
  first_match ps prompt = Some mt -> exists p, In p ps /\ exec p prompt = Some mt.
Proof.
  induction ps as [ | q ps IH]; cbn [first_match]; [discriminate | ].
  destruct (exec q prompt) as [mq | ] eqn:Hq.
  - intros [= <-]. exists q. split; [left; reflexivity | exact Hq].
  - intros H. destruct (IH H) as (p & Hin & Hp).
    exists p. split; [right; exact Hin | exact Hp].
Qed.

(** The patterns of the investment operation have no group, and its
    handler reads the first capture: on every match of theirs it throws. *)
Lemma investmentEducation_throws prompt context s mt :
  first_match investmentEducation_patterns prompt = Some mt ->
  @investmentEducation_handler Transaction mt context s =
    (Throw (TypeError "toLowerCase"), s).
Proof.
  intros H. destruct (first_match_exec _ _ _ H) as (p & Hin & Hp).
  assert (Hnone : get mt 1 = None).
  { apply (exec_no_capture p prompt mt 1); [ | lia | exact Hp].
    cbn [In investmentEducation_patterns] in Hin.
    destruct Hin as [<- | [<- | [<- | [<- | []]]]]; vm_compute; reflexivity. }
  unfold investmentEducation_handler. run. rewrite Hnone. reflexivity.
Qed.

Lemma find_operation_in (ops : list (string * Operation Transaction)) prompt
  opName operation mt :
  find_operation ops prompt = Some (opName, operation, mt) ->
  In (opName, operation) ops /\ first_match (patterns operation) prompt = Some mt.
Proof.
  induction ops as [ | [name op] ops IH]; cbn [find_operation]; [discriminate | ].
  destruct (first_match (patterns op) prompt) as [mo | ] eqn:Hm.
  - intros [= <- <- <-]. split; [left; reflexivity | exact Hm].
  - intros H. destruct (IH H) as [Hin Hfirst]. split; [right; exact Hin | exact Hfirst].
Qed.

(** X2. Every prompt that the catalog routes to the investment education
    gets the fallback response, with the operation already recorded in the
    conversation memory: the patterns of the operation have no group, and
    its handler reads the first capture. *)
Lemma investment_prompts_fall_back prompt context s operation mt :
  fast_path prompt = None ->
  find_operation (OPERATIONS env) prompt = Some ("investmentEducation", operation, mt) ->
  parseUserIntent env prompt context s =
    (fallback_response, noted prompt "investmentEducation" s).
Proof.
  intros Hfast Hfind.
  destruct (find_operation_in _ _ _ _ _ Hfind) as [Hin Hfirst].
  assert (Hop : handler operation = @investmentEducation_handler Transaction /\
                patterns operation = investmentEducation_patterns).
  { unfold OPERATIONS in Hin. cbn [In] in Hin.
    repeat (destruct Hin as [Hin | Hin];
            [first [ discriminate Hin
                   | apply (f_equal snd) in Hin; cbn [snd] in Hin; subst operation;
                     split; reflexivity ] | ]).
    destruct Hin. }
  destruct Hop as [Hh Hp]. rewrite Hp in Hfirst.
  unfold parseUserIntent, parseUserIntent_try. rewrite Hfast.
  rewrite (general_path_thrown prompt context s "investmentEducation" operation mt
             (TypeError "toLowerCase") (noted prompt "investmentEducation" s) Hfind).
  - reflexivity.
  - rewrite Hh. apply (investmentEducation_throws prompt context _ mt Hfirst).
Qed.



(** *** Two prompts of the specification *)

Lemma swap_prompt_off_fast_path : fast_path "Swap 1 SOL to USDC" = None.
Proof. vm_compute. reflexivity. Qed.

Lemma swap_prompt_match :
  first_match swap_patterns "Swap 1 SOL to USDC" =
  Some {| index := 0; input := "Swap 1 SOL to USDC";
          elements := [Some "Swap 1 SOL to USDC"; Some "1"; Some "SOL"; Some "USDC"] |}.
Proof. vm_compute. reflexivity. Qed.

(** C6, amended. For the input "Swap 1 SOL to USDC", [parseUserIntent]
    matches the swap operation and the returned intent has action "swap",
    price 1.0 and, as its token, the second capture of the pattern: "SOL",
    the token that is given, not "USDC". *)
Theorem swap_prompt_intent context s :
  (exists operation mt,
     find_operation (OPERATIONS env) "Swap 1 SOL to USDC" =
       Some ("swap", operation, mt)) /\
  intent (fst (parseUserIntent env "Swap 1 SOL to USDC" context s)) =
    Some (SwapIntent (Some "SOL") (of_Z 1)) /\
  action (@SwapIntent Transaction (Some "SOL") (of_Z 1)) = Some "swap".
Proof.
  split; [ | split; [ | reflexivity]].
  - destruct (find_operation_swap _ _ swap_prompt_match) as (operation & Hfind & _).
    eexists _, _. exact Hfind.
  - destruct (swap_routed _ context s _ swap_prompt_off_fast_path swap_prompt_match)
      as (tip & s' & Hrun).
    rewrite Hrun. reflexivity.
Qed.

Lemma info_prompt_off_fast_path : fast_path "Tell me about JUP" = None.
Proof. vm_compute. reflexivity. Qed.

Lemma info_prompt_not_swap : first_match swap_patterns "Tell me about JUP" = None.
Proof. vm_compute. reflexivity. Qed.

Lemma info_prompt_not_balance : first_match balance_patterns "Tell me about JUP" = None.
Proof. vm_compute. reflexivity. Qed.

Lemma info_prompt_match :
  first_match tokenInfo_patterns "Tell me about JUP" =
  Some {| index := 0; input := "Tell me about JUP";
          elements := [Some "Tell me about"; Some "about"] |}.
Proof. vm_compute. reflexivity. Qed.

(** C7, on the code. For the input "Tell me about JUP" the token-info
    operation fires with the word "about" as its capture, so that the
    response has a null intent and the message of an unknown token. *)
Theorem info_prompt_captures_about context s :
  (exists operation mt,
     find_operation (OPERATIONS env) "Tell me about JUP" =
       Some ("tokenInfo", operation, mt) /\
     get mt 1 = Some "about") /\
  intent (fst (parseUserIntent env "Tell me about JUP" context s)) = Some IntentNull /\
  prefix "I don't have information about about. Currently I have data on: SOL, USDC, USDT, BONK, JUP, JTO, RAY, PYTH, MEME, WIF, AKT"
         (message (fst (parseUserIntent env "Tell me about JUP" context s))) = true.
Proof.
  assert (Hfind : exists operation,
             find_operation (OPERATIONS env) "Tell me about JUP" =
               Some ("tokenInfo", operation,
                     {| index := 0; input := "Tell me about JUP";
                        elements := [Some "Tell me about"; Some "about"] |}) /\
             handler operation = tokenInfo_handler env).
  { eexists. unfold OPERATIONS. cbn [find_operation patterns].
    rewrite info_prompt_not_swap, info_prompt_not_balance, info_prompt_match.
    split; reflexivity. }
  destruct Hfind as (operation & Hfind & Hh).
  split; [eexists _, _; split; [exact Hfind | reflexivity] | ].
  destruct (general_path_matched "Tell me about JUP" context s "tokenInfo" operation _
              {| message := "I don't have information about about. Currently I have data on: SOL, USDC, USDT, BONK, JUP, JTO, RAY, PYTH, MEME, WIF, AKT";
                 intent := Some IntentNull;
                 suggestions := None |}
              (noted "Tell me about JUP" "tokenInfo" s) Hfind)
    as (tip & s2 & Hrun & _).
  { rewrite Hh. vm_compute. reflexivity. }
  unfold parseUserIntent, parseUserIntent_try.
  rewrite info_prompt_off_fast_path, Hrun. cbn [fst].
  split; [reflexivity | ].
  exact (decorated_message_prefix _ tip s2).
Qed.

End Router.

(** ** Conversation memory *)

Section Memory.

Implicit Types (c : ConversationContext) (xs : list string).

Lemma removelast_length {A} (l : list A) : List.length (removelast l) = pred (List.length l).
Proof.
  rewrite removelast_firstn_len, List.length_firstn. lia.
Qed.

Lemma unshift_capped_length (cap : nat) (x : string) xs :
  (List.length xs <= cap)%nat -> (List.length (unshift_capped cap x xs) <= cap)%nat.
Proof.
  intros H. unfold unshift_capped.
  destruct (Nat.ltb_spec cap (List.length (x :: xs))) as [Hlt | Hge].
  - rewrite removelast_length. cbn [List.length]. lia.
  - exact Hge.
Qed.

(** Pushing onto the newest [cap] elements keeps the newest [cap]. *)
Lemma unshift_capped_firstn (cap : nat) (x : string) xs :
  (0 < cap)%nat ->
  unshift_capped cap x (firstn cap xs) = firstn cap (x :: xs).
Proof.
  intros Hcap. unfold unshift_capped.
  destruct cap as [ | n]; [lia | ].
  destruct (Nat.ltb_spec (S n) (List.length (x :: firstn (S n) xs))) as [Hlt | Hge].
  - cbn [List.length] in Hlt. rewrite List.length_firstn in Hlt.
    assert (Hlen : (n < List.length xs)%nat) by lia.
    change (x :: firstn (S n) xs) with ([x] ++ firstn (S n) xs)%list.
    rewrite removelast_app.
    + rewrite removelast_firstn by exact Hlen. reflexivity.
    + destruct xs; [cbn in Hlen; lia | discriminate].
  - cbn [List.length] in Hge. rewrite List.length_firstn in Hge.
    assert (Hlen : (List.length xs <= n)%nat) by lia.
    rewrite (firstn_all2 (n := S n) xs) by lia.
    cbn [firstn]. rewrite firstn_all2 by exact Hlen. reflexivity.
Qed.

Lemma record_operation_caps op c : within_caps c -> within_caps (record_operation op c).
Proof.
  intros (H1 & H2 & H3 & H4). unfold record_operation.
  destruct op as [o | ]; [ | repeat split; assumption].
  destruct (JsString.truthy o); [ | repeat split; assumption].
  repeat split; cbn [recentTopics recentTokens userPreferences preferredActions
                     favoriteTokens]; try assumption.
  - apply unshift_capped_length. exact H1.
  - destruct (negb (array_includes (preferredActions (userPreferences c)) o));
      [apply unshift_capped_length | ]; exact H3.
Qed.

Lemma record_token_caps c token : within_caps c -> within_caps (record_token c token).
Proof.
  intros (H1 & H2 & H3 & H4). unfold record_token.
  repeat split; cbn [recentTopics recentTokens userPreferences preferredActions
                     favoriteTokens]; try assumption.
  - apply unshift_capped_length. exact H2.
  - destruct (negb (array_includes (favoriteTokens (userPreferences c)) token));
      [apply unshift_capped_length | ]; exact H4.
Qed.

Lemma record_tokens_caps tokens c :
  within_caps c -> within_caps (fold_left record_token tokens c).
Proof.
  revert c. induction tokens as [ | t tokens IH]; intros c H; [exact H | ].
  cbn [fold_left]. apply IH, record_token_caps, H.
Qed.

Lemma updateConversationContext_caps userInput op tokens c :
  within_caps c -> within_caps (updateConversationContext userInput op tokens c).
Proof.
  intros H. unfold updateConversationContext.
  pose proof (record_tokens_caps tokens _ (record_operation_caps op c H)) as H'.
  exact H'.
Qed.

Lemma record_tokens_recent tokens c :
  recentTokens (fold_left record_token tokens c) =
  fold_left (fun xs t => unshift_capped 10 t xs) tokens (recentTokens c).
Proof.
  revert c. induction tokens as [ | t tokens IH]; intros c; [reflexivity | ].
  cbn [fold_left]. rewrite IH. reflexivity.
Qed.

Lemma updateConversationContext_recent userInput op tokens c :
  recentTokens (updateConversationContext userInput op tokens c) =
  fold_left (fun xs t => unshift_capped 10 t xs) tokens (recentTokens c).
Proof.
  unfold updateConversationContext.
  change (recentTokens (generateSuggestions ?x)) with (recentTokens x).
  cbn [generateSuggestions infer_style recentTokens].
  rewrite record_tokens_recent.
  destruct op as [o | ]; [ | reflexivity].
  unfold record_operation. destruct (JsString.truthy o); reflexivity.
Qed.

(** Most recent first, the tail evicted: after the tokens [older], pushing
    [tokens] leaves the ten newest. *)
Lemma pushes_keep_newest tokens older :
  fold_left (fun xs t => unshift_capped 10 t xs) tokens (firstn 10 (rev older)) =
  firstn 10 (rev (older ++ tokens)).
Proof.
  revert older. induction tokens as [ | t tokens IH]; intros older.
  - rewrite app_nil_r. reflexivity.
  - cbn [fold_left]. rewrite unshift_capped_firstn by lia.
    change (t :: rev older) with (rev [t] ++ rev older)%list.
    rewrite <- rev_app_distr, IH, <- app_assoc. reflexivity.
Qed.

Lemma run_updates_caps calls c : within_caps c -> within_caps (run_updates calls c).
Proof.
  revert c. induction calls as [ | call calls IH]; intros c H; [exact H | ].
  cbn [run_updates fold_left]. apply IH, updateConversationContext_caps, H.
Qed.

Lemma run_updates_recent calls c older :
  recentTokens c = firstn 10 (rev older) ->
  recentTokens (run_updates calls c) =
  firstn 10 (rev (older ++ inserted_tokens calls)).
Proof.
  revert c older. induction calls as [ | call calls IH]; intros c older H.
  - cbn. rewrite app_nil_r. exact H.
  - cbn [run_updates fold_left inserted_tokens flat_map].
    rewrite app_assoc. apply IH.
    rewrite updateConversationContext_recent, H. apply pushes_keep_newest.
Qed.

Lemma hd_rev_last (xs : list string) (d : string) : hd d (rev xs) = last xs d.
Proof.
  induction xs as [ | x xs IH] using rev_ind; [reflexivity | ].
  rewrite rev_app_distr, last_last. reflexivity.
Qed.

(** C9. After any sequence of calls of [updateConversationContext] from
    the context at module load, [recentTopics] holds at most 8 entries,
    [recentTokens] at most 10, [preferredActions] at most 3 and
    [favoriteTokens] at most 5; [recentTokens] is the list of the ten most
    recently inserted tokens, the most recent first, so that after more
    than 10 insertions its length is exactly 10 and its head is the token
    inserted last. *)
Theorem ring_buffers_bounded (now : Z) (calls : list UpdateCall) :
  ((List.length (recentTopics (run_updates calls (initialConversationContext now))) <= 8)%nat /\
   (List.length (recentTokens (run_updates calls (initialConversationContext now))) <= 10)%nat /\
   (List.length (preferredActions (userPreferences
      (run_updates calls (initialConversationContext now)))) <= 3)%nat /\
   (List.length (favoriteTokens (userPreferences
      (run_updates calls (initialConversationContext now)))) <= 5)%nat) /\
  recentTokens (run_updates calls (initialConversationContext now)) =
    firstn 10 (rev (inserted_tokens calls)) /\
  ((10 < List.length (inserted_tokens calls))%nat ->
   List.length (recentTokens (run_updates calls (initialConversationContext now))) = 10%nat /\
   forall d,
     hd d (recentTokens (run_updates calls (initialConversationContext now))) =
     last (inserted_tokens calls) d).
Proof.
  assert (Hrecent :
            recentTokens (run_updates calls (initialConversationContext now)) =
            firstn 10 (rev (inserted_tokens calls))).
  { apply (run_updates_recent calls (initialConversationContext now) []). reflexivity. }
  split; [ | split; [exact Hrecent | ]].
  - apply (run_updates_caps calls (initialConversationContext now)).
    repeat split; cbn; lia.
  - intros Hmany. rewrite Hrecent. split.
    + rewrite List.length_firstn, List.length_rev. lia.
    + intros d. rewrite <- hd_rev_last.
      destruct (rev (inserted_tokens calls)) as [ | x xs] eqn:E; [ | reflexivity].
      apply (f_equal (@List.length string)) in E.
      rewrite List.length_rev in E. cbn in E. lia.
Qed.

End Memory.

(** ** Effects and answers of the handlers *)

Section Preserving.

Context {X : Type} {view : State -> X}.

Lemma completes_preserves {A} (Q : A -> Prop) (c : M A) : completes view Q c -> preserves view Q c.
Proof.
  intros H s. destruct (H s) as (a & s' & Hrun & Hcc & Hq).
  rewrite Hrun. split; assumption.
Qed.

Lemma completes_ret {A} (Q : A -> Prop) (a : A) : Q a -> completes view Q (ret a).
Proof. intros H s. exists a, s. repeat split. exact H. Qed.

Lemma preserves_ret {A} (Q : A -> Prop) (a : A) : Q a -> preserves view Q (ret a).
Proof. intros H. apply completes_preserves, completes_ret, H. Qed.

Lemma preserves_throw {A} (Q : A -> Prop) (e : JsError) : preserves view Q (throw e).
Proof. intros s. split; exact I || reflexivity. Qed.

Lemma preserves_lift {A} (Q : A -> Prop) (c : Completion A) :
  (forall a, c = Normal a -> Q a) -> preserves view Q (lift c).
Proof.
  intros H s. split; [reflexivity | ]. cbn. destruct c as [a | e]; [ | exact I].
  apply H. reflexivity.
Qed.

Lemma preserves_defined {A} (Q : A -> Prop) (o : option A) (what : string) :
  (forall a, o = Some a -> Q a) -> preserves view Q (defined o what).
Proof.
  intros H. destruct o as [a | ]; cbn [defined];
    [apply preserves_ret, H; reflexivity | apply preserves_throw].
Qed.

Lemma preserves_bind {A B} (P : A -> Prop) (Q : B -> Prop) (c : M A) (k : A -> M B) :
  preserves view P c -> (forall a, P a -> preserves view Q (k a)) -> preserves view Q (bind c k).
Proof.
  intros Hc Hk s. unfold bind. destruct (Hc s) as [Hcc Hp].
  destruct (c s) as [[a | e] s1]; cbn [fst snd] in *.
  - destruct (Hk a Hp s1) as [Hcc' Hq]. split; [congruence | exact Hq].
  - split; [exact Hcc | exact I].
Qed.

Lemma completes_bind {A B} (P : A -> Prop) (Q : B -> Prop) (c : M A) (k : A -> M B) :
  completes view P c -> (forall a, P a -> completes view Q (k a)) -> completes view Q (bind c k).
Proof.
  intros Hc Hk s. destruct (Hc s) as (a & s1 & Hrun & Hcc & Hp).
  destruct (Hk a Hp s1) as (b & s2 & Hrun' & Hcc' & Hq).
  exists b, s2. unfold bind. rewrite Hrun, Hrun'. repeat split; congruence.
Qed.

(** A [try] whose [catch] block completes view normally does so itself. *)
Lemma completes_catch {A} (Q : A -> Prop) (c : M A) (h : JsError -> M A) :
  preserves view Q c -> (forall e, completes view Q (h e)) -> completes view Q (catch c h).
Proof.
  intros Hc Hh s. unfold catch. destruct (Hc s) as [Hcc Hq].
  destruct (c s) as [[a | e] s1]; cbn [fst snd] in *.
  - exists a, s1. repeat split; assumption.
  - destruct (Hh e s1) as (a & s2 & Hrun & Hcc' & Hq').
    exists a, s2. repeat split; congruence.
Qed.

Lemma completes_get_state : completes view (fun _ => True) get_state.
Proof. intros s. exists s, s. repeat split. Qed.

Lemma preserves_weaken {A} (P Q : A -> Prop) (c : M A) :
  (forall a, P a -> Q a) -> preserves view P c -> preserves view Q c.
Proof.
  intros H Hc s. destruct (Hc s) as [Hcc Hp]. split; [exact Hcc | ].
  destruct (fst (c s)); [apply H, Hp | exact I].
Qed.

Lemma completes_weaken {A} (P Q : A -> Prop) (c : M A) :
  (forall a, P a -> Q a) -> completes view P c -> completes view Q c.
Proof.
  intros H Hc s. destruct (Hc s) as (a & s' & Hrun & Hcc & Hp).
  exists a, s'. repeat split; auto.
Qed.

Lemma preserves_then {A B} (Q : B -> Prop) (c : M A) (k : A -> M B) :
  preserves view (fun _ => True) c -> (forall a, preserves view Q (k a)) -> preserves view Q (bind c k).
Proof. intros Hc Hk. apply (preserves_bind (fun _ => True)); auto. Qed.

Lemma preserves_any {A} (c : Completion A) : preserves view (fun _ => True) (lift c).
Proof. apply preserves_lift. auto. Qed.

Lemma completes_coarser {Y A} (g : X -> Y) (Q : A -> Prop) (c : M A) :
  completes view Q c -> completes (fun s => g (view s)) Q c.
Proof.
  intros H s. destruct (H s) as (a & s' & Hrun & Hv & Hq).
  exists a, s'. repeat split; [exact Hrun | | exact Hq]. rewrite Hv. reflexivity.
Qed.

End Preserving.

Section Primitives.

Variables Transaction Date : Type.
Variable env : Env Transaction Date.

Lemma returns_set_cachedTokenPrices (c : list (string * TokenPriceData)) :
  returns (fun _ => True) (set_cachedTokenPrices c).
Proof. intros s. eexists _, _. repeat split. Qed.

Lemma returns_random : returns (fun _ => True) (random env).
Proof. intros s. eexists _, _. repeat split. Qed.

Lemma completes_random : completes memory (fun _ => True) (random env).
Proof. intros s. eexists _, _. repeat split. Qed.

Lemma quiet_returns {A} (c : M A) : quiet c -> returns (fun _ => True) c.
Proof.
  intros H s. destruct (H s) as (a & s' & Hrun & Hcc & _).
  exists a, s'. repeat split; assumption.
Qed.

End Primitives.

Section Handlers.

Variables Transaction Date : Type.
Variable env : Env Transaction Date.

Implicit Types (mt : RegExpMatchArray) (context : Context) (s : State).

Lemma keeps_current_price (symbol : string) :
  keeps (fun _ => True) (current_price env symbol).
Proof.
  unfold current_price.
  apply preserves_then; [apply completes_preserves, completes_get_state | intros s0].
  match goal with |- keeps _ (if ?b then _ else _) => destruct b end;
    [ | apply preserves_ret; exact I].
  apply preserves_then; [apply preserves_any | intros [price | ]];
    [ | apply preserves_ret; exact I].
  destruct (JsNumber.truthy price); [ | apply preserves_ret; exact I].
  apply preserves_then; [apply completes_preserves, returns_set_cachedTokenPrices | intros _].
  apply preserves_ret; exact I.
Qed.

Lemma answers_null context (r : Response Transaction) :
  intent r = Some IntentNull -> answers context r.
Proof. intros H. exists IntentNull. split; [exact H | exact I]. Qed.

Lemma returns_swap mt context : returns (answers context) (@swap_handler Transaction mt context).
Proof.
  apply completes_ret. eexists. split; [reflexivity | exact I].
Qed.

Lemma returns_price mt context : returns (answers context) (@price_handler Transaction mt context).
Proof.
  apply completes_ret. eexists. split; [reflexivity | exact I].
Qed.

Lemma returns_marketTrends mt context :
  returns (answers context) (@marketTrends_handler Transaction mt context).
Proof.
  apply completes_ret. eexists. split; [reflexivity | exact I].
Qed.

Lemma returns_help mt context :
  returns (answers context) (@help_handler Transaction mt context).
Proof.
  apply completes_ret. eexists. split; [reflexivity | exact I].
Qed.

(** The price lookup of the balance and token-information handlers sits in
    a [try] whose [catch] yields no text. *)
Lemma returns_price_text (symbol : string) (k : option number -> M string) :
  (forall p, keeps (fun _ => True) (k p)) ->
  returns (fun _ => True)
    (catch (bind (current_price env symbol) k) (fun _ => ret "")).
Proof.
  intros Hk. apply completes_catch.
  - apply preserves_then; [apply keeps_current_price | exact Hk].
  - intros e. apply completes_ret. exact I.
Qed.

Lemma returns_balance mt context :
  returns (answers context) (balance_handler env mt context).
Proof.
  destruct (walletConnected context) eqn:Hc; unfold balance_handler; rewrite Hc;
    cbn [negb].
  - apply (completes_bind (fun _ => True)).
    + apply returns_price_text. intros p.
      destruct (truthy_price p); apply preserves_ret; exact I.
    + intros priceInfo _. apply completes_ret. eexists. split; [reflexivity | exact Hc].
  - apply completes_ret, answers_null. reflexivity.
Qed.

Lemma keeps_tokenInfo mt context :
  keeps (answers context) (tokenInfo_handler env mt context).
Proof.
  unfold tokenInfo_handler.
  apply preserves_then; [apply preserves_defined; auto | intros captured].
  destruct (lookup (toUpperCase captured) TOKEN_INFO) as [tokenInfo | ].
  - apply preserves_then.
    + apply completes_preserves, returns_price_text. intros p.
      destruct (truthy_price p); apply preserves_ret; exact I.
    + intros priceInfo. apply preserves_ret. eexists. split; [reflexivity | exact I].
  - apply preserves_ret, answers_null. reflexivity.
Qed.

Lemma returns_tokenInfo mt context (captured : string) :
  get mt 1 = Some captured ->
  returns (answers context) (tokenInfo_handler env mt context).
Proof.
  intros H1. unfold tokenInfo_handler. rewrite H1.
  apply (completes_bind (fun _ => True)); [apply completes_ret; exact I | intros c _].
  destruct (lookup (toUpperCase c) TOKEN_INFO) as [tokenInfo | ].
  - apply (completes_bind (fun _ => True)).
    + apply returns_price_text. intros p.
      destruct (truthy_price p); apply preserves_ret; exact I.
    + intros priceInfo _. apply completes_ret. eexists. split; [reflexivity | exact I].
  - apply completes_ret, answers_null. reflexivity.
Qed.

Lemma keeps_cryptoKnowledge mt context :
  keeps (answers context) (@cryptoKnowledge_handler Transaction mt context).
Proof.
  unfold cryptoKnowledge_handler.
  apply preserves_then; [apply preserves_defined; auto | intros captured].
  apply preserves_ret. eexists. split; [reflexivity | exact I].
Qed.

Lemma returns_cryptoKnowledge mt context (captured : string) :
  get mt 1 = Some captured ->
  returns (answers context) (@cryptoKnowledge_handler Transaction mt context).
Proof.
  intros H1. unfold cryptoKnowledge_handler. rewrite H1.
  apply (completes_bind (fun _ => True)); [apply completes_ret; exact I | intros c _].
  apply completes_ret. eexists. split; [reflexivity | exact I].
Qed.

Lemma keeps_marketAnalysis mt context :
  keeps (answers context) (marketAnalysis_handler env mt context).
Proof.
  unfold marketAnalysis_handler.
  apply preserves_then; [apply preserves_any | intros _].
  apply preserves_then; [apply preserves_any | intros _].
  apply preserves_ret. eexists. split; [reflexivity | exact I].
Qed.

Lemma keeps_investmentEducation mt context :
  keeps (answers context) (@investmentEducation_handler Transaction mt context).
Proof.
  unfold investmentEducation_handler.
  apply preserves_then; [apply preserves_defined; auto | intros captured].
  apply preserves_then.
  - destruct (lookup (toLowerCase captured) mockData); [apply preserves_ret; exact I | ].
    match goal with |- keeps _ (if ?b then _ else _) => destruct b end;
      [apply preserves_throw | apply preserves_ret; exact I].
  - intros response. apply preserves_ret. eexists. split; [reflexivity | exact I].
Qed.

Lemma returns_history mt context :
  returns (answers context) (history_handler env mt context).
Proof.
  destruct (walletConnected context) eqn:Hc; unfold history_handler; rewrite Hc;
    cbn [negb].
  - apply completes_catch.
    + cbv zeta. apply preserves_then.
      * match goal with |- keeps _ (match ?o with Some _ => _ | None => _ end) =>
          destruct o end; [ | apply preserves_ret; exact I].
        apply preserves_then; [apply preserves_any | intros dr].
        destruct (startDate dr), (endDate dr); apply preserves_ret; exact I.
      * intros range. apply preserves_then; [apply preserves_any | intros [[ | tx txs] | ]].
        -- apply preserves_ret. eexists. split; [reflexivity | exact Hc].
        -- apply preserves_then; [apply preserves_any | intros formatted].
           apply preserves_ret. eexists. split; [reflexivity | exact Hc].
        -- apply preserves_ret. eexists. split; [reflexivity | exact Hc].
    + intros e. apply completes_ret. eexists. split; [reflexivity | exact Hc].
  - apply completes_ret, answers_null. reflexivity.
Qed.

End Handlers.

Section Operations.

Variables Transaction Date : Type.
Variable env : Env Transaction Date.

Implicit Types (prompt : string) (mt : RegExpMatchArray) (context : Context) (s : State).

(** A number that passes the amount check is above zero. *)
Lemma valid_amount_positive (x : number) :
  isNaN x || le x zero = false -> gt x zero = true.
Proof.
  destruct x as [sx | sx | | sx m e]; try destruct sx; cbn; congruence.
Qed.

Lemma truthy_string_truthy (x : option string) (a : string) :
  truthy_string x = Some a -> JsString.truthy a = true.
Proof.
  destruct x as [b | ]; cbn; [ | discriminate].
  destruct (JsString.truthy b) eqn:Hb; [ | discriminate]. intros [= <-]. exact Hb.
Qed.

Lemma answers_confirmation context (recipient : string) (A : number) (token : string) :
  walletConnected context = true ->
  JsString.truthy recipient = true ->
  isNaN A || le A zero = false ->
  (if String.eqb token "SOL"
   then gt (add A transactionFee) (balance context) = false
   else lt (balance context) transactionFee = false) ->
  answers context (@confirmation_response Transaction recipient A token).
Proof.
  intros Hc Hr Hv Hf. eexists. split; [reflexivity | ].
  cbn [guarded]. repeat split; try assumption. apply valid_amount_positive, Hv.
Qed.

Lemma keeps_transfer mt context :
  keeps (answers context) (transfer_handler env mt context).
Proof.
  intros s.
  destruct (walletConnected context) eqn:Hc.
  2:{ rewrite transfer_not_connected by assumption. split; [reflexivity | ].
      now apply answers_null. }
  destruct (get mt 2) as [tok | ] eqn:Ht.
  2:{ rewrite transfer_no_token by assumption. split; [reflexivity | exact I]. }
  destruct (truthy_string (detectSolanaAddress env (transfer_message mt context)))
    as [recipient | ] eqn:Ha.
  2:{ rewrite (transfer_no_address _ _ env mt context s tok Hc Ht Ha).
      split; [reflexivity | ]. now apply answers_null. }
  destruct (isNaN (parseFloat_arg (get mt 1)) || le (parseFloat_arg (get mt 1)) zero)
    eqn:Hv.
  { rewrite (transfer_invalid_amount _ _ env mt context s tok Hc Ht recipient Ha Hv).
    split; [reflexivity | ]. now apply answers_null. }
  pose proof (truthy_string_truthy _ _ Ha) as Hr.
  destruct (String.eqb (toUpperCase tok) "SOL") eqn:Hsol.
  - destruct (gt (parseFloat_arg (get mt 1)) (balance context)) eqn:Hgt.
    { rewrite (transfer_sol_insufficient _ _ env mt context s tok Hc Ht recipient Ha Hv Hsol Hgt).
      split; [reflexivity | ]. now apply answers_null. }
    destruct (gt (add (parseFloat_arg (get mt 1)) transactionFee) (balance context))
      eqn:Hfee.
    { rewrite (transfer_sol_fees _ _ env mt context s tok Hc Ht recipient Ha Hv Hsol Hgt Hfee).
      split; [reflexivity | ]. now apply answers_null. }
    rewrite (transfer_sol_confirmed _ _ env mt context s tok Hc Ht recipient Ha Hv Hsol Hgt Hfee).
    split; [reflexivity | ]. cbn [fst].
    apply answers_confirmation; try assumption. rewrite Hsol. exact Hfee.
  - destruct (lt (balance context) transactionFee) eqn:Hlt.
    { rewrite (transfer_token_no_fee _ _ env mt context s tok Hc Ht recipient Ha Hv Hsol Hlt).
      split; [reflexivity | ]. now apply answers_null. }
    rewrite (transfer_token_confirmed _ _ env mt context s tok Hc Ht recipient Ha Hv Hsol Hlt).
    split; [reflexivity | ]. cbn [fst].
    apply answers_confirmation; try assumption. rewrite Hsol. exact Hlt.
Qed.

Lemma returns_transfer mt context (tok : string) :
  get mt 2 = Some tok ->
  returns (answers context) (transfer_handler env mt context).
Proof.
  intros Ht s. destruct (keeps_transfer mt context s) as [Hcc Hq].
  destruct (transfer_cases _ _ env mt context s) as [Hcases Hs].
  destruct (transfer_handler env mt context s) as [[r | e] s1]; cbn [fst snd] in *.
  - exists r, s1. repeat split; assumption.
  - inversion Hcases as [e' Hnone | | ]. congruence.
Qed.

Lemma first_match_captured (ps : list RegExp) prompt mt (i : nat) :
  forallb (fun p => sets i (expr p) && (0 <? i)%nat && (i <=? ngroups p)%nat) ps = true ->
  first_match ps prompt = Some mt ->
  exists t, get mt i = Some t.
Proof.
  intros Hall Hfirst. destruct (first_match_exec _ _ _ Hfirst) as (p & Hin & Hp).
  rewrite forallb_forall in Hall. specialize (Hall p Hin).
  apply andb_prop in Hall. destruct Hall as [Hall Hle].
  apply andb_prop in Hall. destruct Hall as [Hsets Hpos].
  apply Nat.ltb_lt in Hpos. apply Nat.leb_le in Hle.
  apply (exec_captured p prompt mt i Hsets); [lia | exact Hp].
Qed.

(** Every handler of the catalog leaves the conversation context alone and
    answers with a guarded intent when it returns. *)
Lemma operation_keeps (opName : string) (operation : Operation Transaction) mt context :
  In (opName, operation) (OPERATIONS env) ->
  keeps (answers context) (handler operation mt context).
Proof.
  intros Hin. unfold OPERATIONS in Hin. cbn [In] in Hin.
  repeat (destruct Hin as [Hin | Hin];
          [apply (f_equal snd) in Hin; cbn [snd] in Hin; subst operation;
           cbn [handler] | ]);
    [ apply completes_preserves, returns_swap
    | apply completes_preserves, returns_balance
    | apply keeps_tokenInfo
    | apply completes_preserves, returns_price
    | apply completes_preserves, returns_history
    | apply completes_preserves, returns_marketTrends
    | apply completes_preserves, returns_help
    | apply keeps_transfer
    | apply keeps_cryptoKnowledge
    | apply keeps_marketAnalysis
    | apply keeps_investmentEducation
    | destruct Hin ].
Qed.

(** On a match of its own patterns, every handler but those of the market
    analysis and of the investment education returns normally. *)
Lemma operation_returns prompt (opName : string) (operation : Operation Transaction)
  mt context :
  In (opName, operation) (OPERATIONS env) ->
  first_match (patterns operation) prompt = Some mt ->
  opName <> "marketAnalysis" -> opName <> "investmentEducation" ->
  returns (answers context) (handler operation mt context).
Proof.
  intros Hin Hfirst Hma Hie. unfold OPERATIONS in Hin. cbn [In] in Hin.
  repeat (destruct Hin as [Hin | Hin];
          [pose proof (f_equal fst Hin) as Hname; cbn [fst] in Hname;
           apply (f_equal snd) in Hin; cbn [snd] in Hin; subst operation;
           cbn [handler patterns] in * | ]);
    [ apply returns_swap
    | apply returns_balance
    | destruct (first_match_captured tokenInfo_patterns prompt mt 1 eq_refl Hfirst)
        as [t Ht]; apply (returns_tokenInfo _ _ env mt context t Ht)
    | apply returns_price
    | apply returns_history
    | apply returns_marketTrends
    | apply returns_help
    | destruct (first_match_captured transfer_patterns prompt mt 2 eq_refl Hfirst)
        as [t Ht]; apply (returns_transfer mt context t Ht)
    | destruct (first_match_captured cryptoKnowledge_patterns prompt mt 1 eq_refl Hfirst)
        as [t Ht]; apply (returns_cryptoKnowledge _ mt context t Ht)
    | congruence
    | congruence
    | destruct Hin ].
Qed.

Lemma completes_pick (xs : list string) : completes memory (fun _ => True) (pick env xs).
Proof.
  unfold pick. apply (completes_bind (fun _ => True)); [apply completes_random | intros r _].
  match goal with |- completes _ _ (match ?o with Some _ => _ | None => _ end) =>
    destruct o end; apply completes_ret; exact I.
Qed.

Lemma completes_general_reply (type : string) (reply : M (Response Transaction)) :
  general_reply env type = Some reply -> completes memory plain reply.
Proof.
  unfold general_reply.
  repeat match goal with
         | |- (if ?b then _ else _) = _ -> _ => destruct b
         end;
    intros [= <-];
    try (apply completes_ret; split; reflexivity);
    (apply (completes_bind (fun _ => True)); [apply completes_pick | intros msg _];
     apply completes_ret; split; reflexivity).
Qed.

Lemma completes_chat_loop (entries : list (string * list RegExp)) prompt :
  completes memory plain (chat_loop env entries prompt).
Proof.
  induction entries as [ | [type ps] entries IH]; cbn [chat_loop].
  - apply completes_ret. split; reflexivity.
  - destruct (matches_any ps prompt); [ | exact IH].
    destruct (general_reply env type) as [reply | ] eqn:Hreply; [ | exact IH].
    apply (completes_general_reply type reply Hreply).
Qed.

(** The general chat returns a plain reply, and leaves the conversation
    context and the price cache as they were. *)
Lemma completes_handleGeneralChat prompt :
  completes memory plain (handleGeneralChat env prompt).
Proof. apply completes_chat_loop. Qed.

Lemma returns_handleGeneralChat prompt : returns plain (handleGeneralChat env prompt).
Proof. exact (completes_coarser fst plain _ (completes_handleGeneralChat prompt)). Qed.

End Operations.

Section Turn.

Variables Transaction Date : Type.
Variable env : Env Transaction Date.

Implicit Types (prompt : string) (mt : RegExpMatchArray) (context : Context) (s : State).

Lemma general_path_outcome prompt context s :
  general_outcome env prompt context s (general_path env prompt context s).
Proof.
  destruct (find_operation (OPERATIONS env) prompt) as [[[opName operation] mt] | ]
    eqn:Hfind.
  - destruct (find_operation_in _ _ _ _ _ _ Hfind) as [Hin Hfirst].
    destruct (operation_keeps _ _ env opName operation mt context Hin
                (noted prompt opName s)) as [Hcc Hq].
    destruct (handler operation mt context (noted prompt opName s))
      as [[result | e] s1] eqn:Hrun; cbn [fst snd] in *.
    + destruct (general_path_matched _ _ env prompt context s opName operation mt
                  result s1 Hfind Hrun) as (tip & s2 & Hgen & Hcc2).
      rewrite Hgen. eapply outcome_answered; [exact Hfind | exact Hq | congruence].
    + rewrite (general_path_thrown _ _ env prompt context s opName operation mt e s1
                 Hfind Hrun).
      eapply outcome_thrown; [exact Hfind | exact Hrun | | exact Hcc].
      destruct (string_dec opName "marketAnalysis") as [ | Hma]; [left; assumption | ].
      destruct (string_dec opName "investmentEducation") as [ | Hie];
        [right; assumption | ].
      destruct (operation_returns _ _ env prompt opName operation mt context
                  Hin Hfirst Hma Hie (noted prompt opName s)) as (a & s' & Hrun' & _).
      congruence.
  - unfold general_path. rewrite Hfind.
    destruct (truthy_string (detectSolanaAddress env prompt)) as [address | ] eqn:Ha.
    + apply outcome_address; assumption.
    + destruct (completes_handleGeneralChat _ _ env prompt s)
        as (r & s1 & Hrun & Hm & Hp).
      rewrite Hrun. apply outcome_chat; assumption.
Qed.

Lemma memory_context (s1 s : State) :
  memory s1 = memory s -> conversationContext s1 = conversationContext s.
Proof. intros H. exact (f_equal fst H). Qed.

Lemma fast_path_exec prompt mt :
  fast_path prompt = Some mt ->
  exec transfer_fast_pattern (toLowerCase prompt) = Some mt.
Proof.
  unfold fast_path. destruct (starts_with_transfer_verb (toLowerCase prompt));
    [auto | discriminate].
Qed.

Lemma guarded_enhance context prompt (i : Intent Transaction) :
  guarded (enhance context prompt) i -> guarded context i.
Proof. destruct i; exact (fun H => H). Qed.

(** The fast path returns the transfer handler's response, which is
    guarded, and leaves the state as it was. *)
Lemma fast_path_outcome prompt context s mt :
  fast_path prompt = Some mt ->
  exists response,
    parseUserIntent_try env prompt context s = (Normal response, s) /\
    answers context response.
Proof.
  intros Hfast. pose proof (fast_path_exec prompt mt Hfast) as Hexec.
  destruct (lookup_transfer _ _ env) as (operation & Hlookup & Hhandler).
  destruct (transfer_returns _ _ env transfer_fast_pattern (toLowerCase prompt) mt
              (enhance context prompt) s (or_introl eq_refl) Hexec)
    as (response & Hrun & _).
  exists response. split.
  - unfold parseUserIntent_try. rewrite Hfast. run.
    rewrite Hlookup, Hhandler, Hrun. reflexivity.
  - destruct (keeps_transfer _ _ env mt (enhance context prompt) s) as [_ Hq].
    rewrite Hrun in Hq. destruct Hq as (i & Hi & Hg).
    exists i. split; [exact Hi | apply (guarded_enhance context prompt), Hg].
Qed.

Lemma slow_path prompt context :
  fast_path prompt = None ->
  parseUserIntent_try env prompt context = general_path env prompt context.
Proof. intros H. unfold parseUserIntent_try. rewrite H. reflexivity. Qed.

(** X3. The conversation memory after a request: untouched on the fast
    path and when no operation matches; otherwise updated with the name of
    the matched operation and with no token, whether the handler returns or
    throws. *)
Theorem parseUserIntent_memory prompt context s :
  conversationContext (snd (parseUserIntent env prompt context s)) =
  match fast_path prompt, find_operation (OPERATIONS env) prompt with
  | None, Some (opName, _, _) =>
      updateConversationContext prompt (Some opName) [] (conversationContext s)
  | _, _ => conversationContext s
  end.
Proof.
  unfold parseUserIntent. destruct (fast_path prompt) as [mt | ] eqn:Hfast.
  - destruct (fast_path_outcome prompt context s mt Hfast) as (r & Hrun & _).
    rewrite Hrun. reflexivity.
  - rewrite (slow_path prompt context Hfast).
    pose proof (general_path_outcome prompt context s) as H.
    inversion H as [opName operation mt result tip s2 Hfind _ Hcc
                   | opName operation mt e s1 Hfind _ _ Hcc
                   | address Hfind _
                   | r s1 Hfind _ _ Hm]; rewrite Hfind; cbn [snd];
      [exact Hcc | exact Hcc | reflexivity | exact (f_equal fst Hm)].
Qed.

(** Every intent that a request returns is guarded in the caller's
    context. *)
Lemma parseUserIntent_guarded prompt context s (i : Intent Transaction) :
  intent (fst (parseUserIntent env prompt context s)) = Some i ->
  guarded context i.
Proof.
  unfold parseUserIntent. destruct (fast_path prompt) as [mt | ] eqn:Hfast.
  - destruct (fast_path_outcome prompt context s mt Hfast) as (r & Hrun & Hq).
    rewrite Hrun. cbn [fst]. destruct Hq as (j & Hj & Hg). congruence.
  - rewrite (slow_path prompt context Hfast).
    pose proof (general_path_outcome prompt context s) as H.
    inversion H as [opName operation mt result tip s2 Hfind Hq Hcc
                   | opName operation mt e s1 Hfind _ _ Hcc
                   | address Hfind _
                   | r s1 Hfind _ [Hr _] _]; cbn [fst].
    + destruct Hq as (j & Hj & Hg). cbn [decorated intent]. congruence.
    + cbn [fallback_response intent]. intros [= <-]. exact I.
    + cbn [address_response intent]. intros [= <-]. exact I.
    + rewrite Hr. discriminate.
Qed.

(** X4. An intent to show the balance, to show the history or to transfer
    is returned only for a connected wallet. *)
Theorem wallet_intents_need_connection prompt context s (i : Intent Transaction) :
  intent (fst (parseUserIntent env prompt context s)) = Some i ->
  action i = Some "balance" \/ action i = Some "history" \/
  action i = Some "transfer" ->
  walletConnected context = true.
Proof.
  intros Hi Ha. pose proof (parseUserIntent_guarded prompt context s i Hi) as Hg.
  destruct i; cbn [action] in Ha; cbn [guarded] in Hg;
    try (destruct Ha as [Ha | [Ha | Ha]]; discriminate Ha);
    tauto.
Qed.

(** X5. A transfer intent, by whichever route it is returned, names a
    non-empty recipient and an amount above zero; for SOL the balance
    covers amount and fee, for another token it covers the fee. *)
Theorem transfer_intent_funded prompt context s
  (recipient : string) (amount : number) (token : string) :
  intent (fst (parseUserIntent env prompt context s)) =
    Some (TransferIntent recipient amount token) ->
  JsString.truthy recipient = true /\
  gt amount zero = true /\
  (token = "SOL" -> gt (add amount transactionFee) (balance context) = false) /\
  (token <> "SOL" -> lt (balance context) transactionFee = false).
Proof.
  intros Hi. pose proof (parseUserIntent_guarded prompt context s _ Hi) as Hg.
  cbn [guarded] in Hg. destruct Hg as (_ & Hr & Hpos & Hfunds).
  split; [exact Hr | split; [exact Hpos | split]].
  - intros ->. exact Hfunds.
  - intros Hne. destruct (String.eqb_spec token "SOL"); [contradiction | exact Hfunds].
Qed.

Lemma marketAnalysis_thrown mt context s (e : JsError) s1 :
  marketAnalysis_handler env mt context s = (Throw e, s1) ->
  getMarketAnalysis env "market cycles" = Throw e \/
  getMarketAnalysis env "sentiment" = Throw e.
Proof.
  unfold marketAnalysis_handler. run.
  destruct (getMarketAnalysis env "market cycles") as [u | e1]; [ | left; congruence].
  destruct (getMarketAnalysis env "sentiment") as [u' | e2]; [discriminate | ].
  right. congruence.
Qed.

Lemma operation_named (opName : string) (operation : Operation Transaction) :
  In (opName, operation) (OPERATIONS env) ->
  opName = "marketAnalysis" ->
  handler operation = marketAnalysis_handler env.
Proof.
  intros Hin ->. unfold OPERATIONS in Hin. cbn [In] in Hin.
  repeat (destruct Hin as [Hin | Hin];
          [first [ discriminate Hin
                 | apply (f_equal snd) in Hin; cbn [snd] in Hin; subst operation;
                   reflexivity ] | ]).
  destruct Hin.
Qed.

(** X1. The exceptions that reach the [catch] of [parseUserIntent]: the
    prompt is off the fast path and the catalog routes it to the investment
    education, or to the market analysis with the knowledge service
    failing for one of its two topics. *)
Theorem exceptions_come_from_two_operations prompt context s (e : JsError) s1 :
  parseUserIntent_try env prompt context s = (Throw e, s1) ->
  fast_path prompt = None /\
  exists operation mt,
    find_operation (OPERATIONS env) prompt = Some ("investmentEducation", operation, mt) \/
    (find_operation (OPERATIONS env) prompt = Some ("marketAnalysis", operation, mt) /\
     (getMarketAnalysis env "market cycles" = Throw e \/
      getMarketAnalysis env "sentiment" = Throw e)).
Proof.
  intros Hthrow. destruct (fast_path prompt) as [mt | ] eqn:Hfast.
  { destruct (fast_path_outcome prompt context s mt Hfast) as (r & Hrun & _).
    congruence. }
  split; [reflexivity | ].
  rewrite (slow_path prompt context Hfast) in Hthrow.
  pose proof (general_path_outcome prompt context s) as H.
  rewrite Hthrow in H.
  inversion H as [ | opName operation mt e' s' Hfind Hrun Hname Hcc | | ]; subst.
  exists operation, mt. destruct Hname as [-> | ->]; [right | left; exact Hfind].
  split; [exact Hfind | ].
  destruct (find_operation_in _ _ _ _ _ _ Hfind) as [Hin _].
  rewrite (operation_named _ operation Hin eq_refl) in Hrun.
  apply (marketAnalysis_thrown mt context _ e s1 Hrun).
Qed.

(** C8. Every exception of the [try] block of [parseUserIntent] is caught
    and converted into the fixed fallback response. The promise that
    [parseUserIntent] returns is never rejected, whatever the handlers and
    the services do: it is fulfilled with the response of [parseUserIntent].
    When the handler of the matched operation throws, whatever the
    exception, that response is the fallback, with its fixed message, a
    null intent and the two default suggestions; when the handler returns,
    it is the handler's answer and not the fallback; and the [try] block
    throws only when the handler of the matched operation does. *)
Theorem exceptions_become_fallback prompt context s :
  parseUserIntent_promise env prompt context s =
    (Normal (fst (parseUserIntent env prompt context s)),
     snd (parseUserIntent env prompt context s)) /\
  (forall opName operation mt e s1,
     fast_path prompt = None ->
     find_operation (OPERATIONS env) prompt = Some (opName, operation, mt) ->
     handler operation mt context (noted prompt opName s) = (Throw e, s1) ->
     parseUserIntent_promise env prompt context s = (Normal fallback_response, s1)) /\
  (forall opName operation mt result s1,
     fast_path prompt = None ->
     find_operation (OPERATIONS env) prompt = Some (opName, operation, mt) ->
     handler operation mt context (noted prompt opName s) = (Normal result, s1) ->
     exists tip s2,
       parseUserIntent_promise env prompt context s =
         (Normal (decorated result tip s2), s2)) /\
  (forall e s1,
     parseUserIntent_try env prompt context s = (Throw e, s1) ->
     fast_path prompt = None /\
     exists opName operation mt,
       find_operation (OPERATIONS env) prompt = Some (opName, operation, mt) /\
       handler operation mt context (noted prompt opName s) = (Throw e, s1)) /\
  @fallback_response Transaction =
    {| message := "Sorry, I couldn't understand that command. Please try something like 'Send 0.001 SOL to [wallet address]'.";
       intent := Some IntentNull;
       suggestions := Some ["Check my balance"; "What can you help me with?"] |}.
Proof.
  split; [ | split; [ | split; [ | split; [ | reflexivity]]]].
  - unfold parseUserIntent_promise, parseUserIntent, catch.
    destruct (parseUserIntent_try env prompt context s) as [[r | e] s1]; reflexivity.
  - intros opName operation mt e s1 Hfast Hfind Hrun.
    unfold parseUserIntent_promise, catch. rewrite (slow_path prompt context Hfast).
    rewrite (general_path_thrown _ _ env prompt context s opName operation mt e s1
               Hfind Hrun).
    reflexivity.
  - intros opName operation mt result s1 Hfast Hfind Hrun.
    destruct (general_path_matched _ _ env prompt context s opName operation mt
                result s1 Hfind Hrun) as (tip & s2 & Hgen & _).
    exists tip, s2. unfold parseUserIntent_promise, catch.
    rewrite (slow_path prompt context Hfast), Hgen. reflexivity.
  - intros e s1 Hthrow. destruct (fast_path prompt) as [mt | ] eqn:Hfast.
    { destruct (fast_path_outcome prompt context s mt Hfast) as (r & Hrun & _).
      congruence. }
    split; [reflexivity | ].
    rewrite (slow_path prompt context Hfast) in Hthrow.
    pose proof (general_path_outcome prompt context s) as H.
    rewrite Hthrow in H.
    inversion H as [ | opName operation mt e' s' Hfind Hrun _ _ | | ]; subst.
    exists opName, operation, mt. split; assumption.
Qed.

End Turn.

Section Preferences.

Implicit Types (c : ConversationContext) (xs : list string).

Lemma array_includes_false xs (x : string) :
  array_includes xs x = false -> ~ In x xs.
Proof.
  unfold array_includes. intros H Hin.
  assert (Ht : existsb (String.eqb x) xs = true).
  { apply existsb_exists. exists x. split; [exact Hin | apply String.eqb_refl]. }
  congruence.
Qed.

Lemma NoDup_removelast {A} (l : list A) : NoDup l -> NoDup (removelast l).
Proof.
  induction l as [ | a l IH]; intros H; [exact H | ].
  inversion H as [ | a' l' Hnotin Hl]; subst.
  destruct l as [ | b l]; [constructor | ].
  change (removelast (a :: b :: l)) with (a :: removelast (b :: l)).
  constructor; [ | apply IH, Hl].
  intros Hin. apply Hnotin.
  rewrite (app_removelast_last b (l := b :: l)) by discriminate.
  apply in_or_app. left. exact Hin.
Qed.

Lemma unshift_capped_NoDup (cap : nat) (x : string) xs :
  NoDup xs -> array_includes xs x = false -> NoDup (unshift_capped cap x xs).
Proof.
  intros Hnd Hx. unfold unshift_capped.
  assert (H : NoDup (x :: xs)).
  { constructor; [apply array_includes_false, Hx | exact Hnd]. }
  destruct (cap <? List.length (x :: xs))%nat; [apply NoDup_removelast, H | exact H].
Qed.

Lemma record_operation_distinct op c : distinct c -> distinct (record_operation op c).
Proof.
  intros [Hp Hf]. unfold record_operation.
  destruct op as [o | ]; [ | split; assumption].
  destruct (JsString.truthy o); [ | split; assumption].
  split; cbn [userPreferences preferredActions favoriteTokens]; [ | exact Hf].
  destruct (array_includes (preferredActions (userPreferences c)) o) eqn:Hin;
    cbn [negb]; [exact Hp | apply unshift_capped_NoDup; assumption].
Qed.

Lemma record_token_distinct c token : distinct c -> distinct (record_token c token).
Proof.
  intros [Hp Hf]. unfold record_token.
  split; cbn [userPreferences preferredActions favoriteTokens]; [exact Hp | ].
  destruct (array_includes (favoriteTokens (userPreferences c)) token) eqn:Hin;
    cbn [negb]; [exact Hf | apply unshift_capped_NoDup; assumption].
Qed.

Lemma record_tokens_distinct tokens c :
  distinct c -> distinct (fold_left record_token tokens c).
Proof.
  revert c. induction tokens as [ | t tokens IH]; intros c H; [exact H | ].
  cbn [fold_left]. apply IH, record_token_distinct, H.
Qed.

Lemma updateConversationContext_distinct userInput op tokens c :
  distinct c -> distinct (updateConversationContext userInput op tokens c).
Proof.
  intros H. unfold updateConversationContext.
  pose proof (record_tokens_distinct tokens _ (record_operation_distinct op c H)) as H'.
  exact H'.
Qed.

(** X13. [preferredActions] and [favoriteTokens] never hold an entry twice:
    calls of [updateConversationContext] keep both lists free of
    duplicates. *)
Theorem preferences_hold_no_duplicates (calls : list UpdateCall) c :
  NoDup (preferredActions (userPreferences c)) ->
  NoDup (favoriteTokens (userPreferences c)) ->
  NoDup (preferredActions (userPreferences (run_updates calls c))) /\
  NoDup (favoriteTokens (userPreferences (run_updates calls c))).
Proof.
  intros Hp Hf. assert (H : distinct c) by (split; assumption). clear Hp Hf.
  revert c H. induction calls as [ | call calls IH]; intros c H; [exact H | ].
  cbn [run_updates fold_left]. apply IH, updateConversationContext_distinct, H.
Qed.

Lemma record_tokens_topics tokens c :
  recentTopics (fold_left record_token tokens c) = recentTopics c.
Proof.
  revert c. induction tokens as [ | t tokens IH]; intros c; [reflexivity | ].
  cbn [fold_left]. rewrite IH. reflexivity.
Qed.

Lemma updateConversationContext_topics userInput op tokens c :
  recentTopics (updateConversationContext userInput op tokens c) =
  match truthy_string op with
  | Some o => unshift_capped 8 o (recentTopics c)
  | None => recentTopics c
  end.
Proof.
  unfold updateConversationContext.
  change (recentTopics (generateSuggestions ?x)) with (recentTopics x).
  cbn [generateSuggestions infer_style recentTopics].
  rewrite record_tokens_topics.
  destruct op as [o | ]; [ | reflexivity].
  unfold record_operation, truthy_string. destruct (JsString.truthy o); reflexivity.
Qed.

Lemma run_updates_topics calls c older :
  recentTopics c = firstn 8 (rev older) ->
  recentTopics (run_updates calls c) =
  firstn 8 (rev (older ++ recorded_operations calls)).
Proof.
  revert c older. induction calls as [ | call calls IH]; intros c older H.
  - cbn. rewrite app_nil_r. exact H.
  - cbn [run_updates fold_left recorded_operations flat_map].
    rewrite app_assoc. apply IH.
    rewrite updateConversationContext_topics, H.
    destruct (truthy_string (call_operation call)) as [o | ].
    + rewrite unshift_capped_firstn by lia.
      rewrite rev_app_distr. reflexivity.
    + rewrite app_nil_r. reflexivity.
Qed.

(** X12. After any sequence of calls from the context at module load,
    [recentTopics] is the list of the eight most recently recorded
    operations, the most recent first; a call whose operation is absent or
    the empty string records none. *)
Theorem recentTopics_newest_eight (now : Z) (calls : list UpdateCall) :
  recentTopics (run_updates calls (initialConversationContext now)) =
  firstn 8 (rev (recorded_operations calls)).
Proof.
  apply (run_updates_topics calls (initialConversationContext now) []). reflexivity.
Qed.

Lemma updateConversationContext_style userInput op tokens c :
  interactionStyle (userPreferences (updateConversationContext userInput op tokens c)) =
  interactionStyle (userPreferences (infer_style userInput c)).
Proof.
  unfold updateConversationContext.
  change (userPreferences (generateSuggestions ?x)) with (userPreferences x).
  cbn [infer_style userPreferences interactionStyle].
  assert (H : forall c', interactionStyle (userPreferences (fold_left record_token tokens c')) =
                         interactionStyle (userPreferences c')).
  { induction tokens as [ | t tokens IH]; intros c'; [reflexivity | ].
    cbn [fold_left]. rewrite IH. reflexivity. }
  rewrite H.
  destruct op as [o | ]; [ | reflexivity].
  unfold record_operation. destruct (JsString.truthy o); reflexivity.
Qed.

(** X14. The interaction style is one of neutral, technical and casual at
    all times: it starts neutral, and a call sets it to technical or to
    casual or leaves it. *)
Theorem interaction_style_values (now : Z) (calls : list UpdateCall) :
  In (interactionStyle (userPreferences
        (run_updates calls (initialConversationContext now))))
     ["neutral"; "technical"; "casual"].
Proof.
  assert (H : forall c,
             In (interactionStyle (userPreferences c)) ["neutral"; "technical"; "casual"] ->
             In (interactionStyle (userPreferences (run_updates calls c)))
                ["neutral"; "technical"; "casual"]).
  { induction calls as [ | call calls IH]; intros c Hc; [exact Hc | ].
    cbn [run_updates fold_left]. apply IH.
    rewrite updateConversationContext_style.
    cbn [infer_style userPreferences interactionStyle].
    match goal with |- In (if ?b then _ else _) _ => destruct b end;
      [cbn; tauto | ].
    match goal with |- In (if ?b then _ else _) _ => destruct b end;
      [cbn; tauto | exact Hc]. }
  apply H. cbn. tauto.
Qed.

(** X15. [generateSuggestions] offers the two suggestions of the latest
    topic, or the three defaults: its cut to three entries never drops
    one. *)
Theorem suggestions_two_or_default c :
  List.length (suggestedNextActions (generateSuggestions c)) = 2%nat \/
  suggestedNextActions (generateSuggestions c) = default_suggestions.
Proof.
  unfold generateSuggestions. cbn [suggestedNextActions].
  destruct (hd_error (recentTopics c)) as [t | ]; [ | right; reflexivity].
  destruct (String.eqb_spec t "balance") as [-> | Hb]; [left; reflexivity | ].
  destruct (String.eqb_spec t "tokenInfo") as [-> | Hti].
  { destruct (first_truthy (recentTokens c)); [left | right]; reflexivity. }
  destruct (String.eqb_spec t "marketTrends") as [-> | Hm]; [left; reflexivity | ].
  destruct (String.eqb_spec t "history") as [-> | Hh]; [left; reflexivity | ].
  destruct (String.eqb_spec t "swap") as [-> | Hs]; [left; reflexivity | ].
  right. reflexivity.
Qed.

End Preferences.

Section Session.

Variables Transaction Date : Type.
Variable env : Env Transaction Date.

Implicit Types (prompt : string) (context : Context) (s : State).

Lemma updateConversationContext_token_memory userInput (op : option string) c :
  token_memory (updateConversationContext userInput op [] c) = token_memory c.
Proof.
  unfold updateConversationContext, token_memory. cbn [fold_left].
  change (recentTokens (generateSuggestions ?x)) with (recentTokens x).
  change (userPreferences (generateSuggestions ?x)) with (userPreferences x).
  change (sessionStartTime (generateSuggestions ?x)) with (sessionStartTime x).
  cbn [infer_style recentTokens userPreferences favoriteTokens swapHistory
       sessionStartTime].
  destruct op as [o | ]; [ | reflexivity].
  unfold record_operation. destruct (JsString.truthy o); reflexivity.
Qed.

Lemma parseUserIntent_token_memory prompt context s :
  token_memory (conversationContext (snd (parseUserIntent env prompt context s))) =
  token_memory (conversationContext s).
Proof.
  unfold parseUserIntent. destruct (fast_path prompt) as [mt | ] eqn:Hfast.
  - destruct (fast_path_outcome _ _ env prompt context s mt Hfast) as (r & Hrun & _).
    rewrite Hrun. reflexivity.
  - rewrite (slow_path _ _ env prompt context Hfast).
    pose proof (general_path_outcome _ _ env prompt context s) as H.
    inversion H as [opName operation mt result tip s2 Hfind _ Hcc
                   | opName operation mt e s1 Hfind _ _ Hcc
                   | address Hfind _
                   | r s1 Hfind _ _ Hm]; cbn [snd];
      [ rewrite Hcc; apply updateConversationContext_token_memory
      | rewrite Hcc; apply updateConversationContext_token_memory
      | reflexivity
      | rewrite (memory_context _ _ Hm); reflexivity ].
Qed.

Lemma run_session_token_memory (turns : list Turn) s :
  token_memory (conversationContext (run_session env turns s)) =
  token_memory (conversationContext s).
Proof.
  revert s. induction turns as [ | t turns IH]; intros s; [reflexivity | ].
  cbn [run_session fold_left].
  change (fold_left _ turns ?s') with (run_session env turns s').
  rewrite IH. apply parseUserIntent_token_memory.
Qed.

(** X9. No request records a token: over any session, [recentTokens],
    [favoriteTokens], [swapHistory] and [sessionStartTime] stay as they
    were. *)
Theorem session_records_no_token (turns : list Turn) s :
  recentTokens (conversationContext (run_session env turns s)) =
    recentTokens (conversationContext s) /\
  favoriteTokens (userPreferences (conversationContext (run_session env turns s))) =
    favoriteTokens (userPreferences (conversationContext s)) /\
  swapHistory (userPreferences (conversationContext (run_session env turns s))) =
    swapHistory (userPreferences (conversationContext s)) /\
  sessionStartTime (conversationContext (run_session env turns s)) =
    sessionStartTime (conversationContext s).
Proof.
  pose proof (run_session_token_memory turns s) as H. unfold token_memory in H.
  injection H as H1 H2 H3 H4. repeat split; assumption.
Qed.

Lemma hd_unshift_capped (x : string) (xs : list string) :
  hd_error (unshift_capped 8 x xs) = Some x.
Proof.
  unfold unshift_capped. destruct (8 <? List.length (x :: xs))%nat eqn:E; [ | reflexivity].
  destruct xs as [ | y xs]; [discriminate E | reflexivity].
Qed.

Lemma tokenInfo_suggestions_without_token userInput c :
  recentTokens c = [] ->
  suggestedNextActions (updateConversationContext userInput (Some "tokenInfo") [] c) =
  default_suggestions.
Proof.
  intros Hnone. unfold updateConversationContext. cbn [fold_left].
  unfold generateSuggestions. cbn [suggestedNextActions].
  cbn [infer_style recentTopics recentTokens record_operation JsString.truthy
       String.eqb Ascii.eqb Bool.eqb negb].
  rewrite hd_unshift_capped, Hnone. reflexivity.
Qed.

(** X10. In a session that starts at module load, a request that the
    catalog routes to the token information is always answered with the
    three default suggestions: no request records a token, so the
    suggestions that [generateSuggestions] derives from the latest token
    are never offered. *)
Theorem tokenInfo_suggestions_default (now : Z) (turns : list Turn) prompt context
  (operation : Operation Transaction) (mt : RegExpMatchArray) :
  fast_path prompt = None ->
  find_operation (OPERATIONS env) prompt = Some ("tokenInfo", operation, mt) ->
  suggestions (fst (parseUserIntent env prompt context
                      (run_session env turns (initialState now)))) =
  Some default_suggestions.
Proof.
  intros Hfast Hfind.
  set (s := run_session env turns (initialState now)).
  assert (Hnone : recentTokens (conversationContext s) = []).
  { pose proof (run_session_token_memory turns (initialState now)) as H.
    apply (f_equal (fun m => fst (fst (fst m)))) in H. exact H. }
  unfold parseUserIntent. rewrite (slow_path _ _ env prompt context Hfast).
  pose proof (general_path_outcome _ _ env prompt context s) as H.
  inversion H as [opName operation' mt' result tip s2 Hfind' _ Hcc
                 | opName operation' mt' e s1 Hfind' _ Hname _
                 | address Hfind' _
                 | r s1 Hfind' _ _ _]; rewrite Hfind' in Hfind.
  - injection Hfind as -> _ _. cbn [fst decorated suggestions]. rewrite Hcc.
    cbn [noted conversationContext].
    rewrite (tokenInfo_suggestions_without_token prompt _ Hnone). reflexivity.
  - injection Hfind as -> _ _. destruct Hname; discriminate.
  - discriminate.
  - discriminate.
Qed.

End Session.

Section Topics.

Variables Transaction Date : Type.
Variable env : Env Transaction Date.

Implicit Types (prompt : string) (context : Context) (s : State).

Lemma operation_name_truthy (opName : string) (operation : Operation Transaction) :
  In (opName, operation) (OPERATIONS env) -> JsString.truthy opName = true.
Proof.
  intros Hin. unfold OPERATIONS in Hin. cbn [In] in Hin.
  repeat (destruct Hin as [Hin | Hin];
          [apply (f_equal fst) in Hin; cbn [fst] in Hin; subst opName; reflexivity | ]).
  destruct Hin.
Qed.

Lemma parseUserIntent_topics prompt context s :
  recentTopics (conversationContext (snd (parseUserIntent env prompt context s))) =
  match recorded_operation env {| turn_prompt := prompt; turn_context := context |} with
  | Some opName => unshift_capped 8 opName (recentTopics (conversationContext s))
  | None => recentTopics (conversationContext s)
  end.
Proof.
  unfold recorded_operation. cbn [turn_prompt].
  unfold parseUserIntent. destruct (fast_path prompt) as [mt | ] eqn:Hfast.
  - destruct (fast_path_outcome _ _ env prompt context s mt Hfast) as (r & Hrun & _).
    rewrite Hrun. reflexivity.
  - rewrite (slow_path _ _ env prompt context Hfast).
    pose proof (general_path_outcome _ _ env prompt context s) as H.
    inversion H as [opName operation mt result tip s2 Hfind _ Hcc
                   | opName operation mt e s1 Hfind _ _ Hcc
                   | address Hfind _
                   | r s1 Hfind _ _ Hm]; rewrite Hfind; cbn [snd];
      [ | | reflexivity | rewrite (memory_context _ _ Hm); reflexivity ];
      rewrite Hcc; cbn [noted conversationContext];
      rewrite updateConversationContext_topics;
      destruct (find_operation_in _ _ _ _ _ _ Hfind) as [Hin _];
      cbn [truthy_string]; rewrite (operation_name_truthy opName operation Hin);
      reflexivity.
Qed.

Lemma run_session_topics (turns : list Turn) s (older : list string) :
  recentTopics (conversationContext s) = firstn 8 (rev older) ->
  recentTopics (conversationContext (run_session env turns s)) =
  firstn 8 (rev (older ++ flat_map (fun t => match recorded_operation env t with
                                             | Some opName => [opName]
                                             | None => []
                                             end) turns)).
Proof.
  revert s older. induction turns as [ | [prompt context] turns IH]; intros s older H.
  - cbn. rewrite app_nil_r. exact H.
  - cbn [run_session fold_left flat_map turn_prompt turn_context].
    change (fold_left _ turns ?s') with (run_session env turns s').
    rewrite app_assoc. apply IH. rewrite parseUserIntent_topics, H.
    destruct (recorded_operation env _) as [opName | ].
    + rewrite unshift_capped_firstn by lia. rewrite rev_app_distr. reflexivity.
    + rewrite app_nil_r. reflexivity.
Qed.

(** X11. Over a session that starts at module load, [recentTopics] is the
    list of the eight most recent operations that the catalog matched, the
    most recent first: a transfer answered on the fast path, and a prompt
    that no operation matches, leave no topic. *)
Theorem session_topics_are_catalog_matches (now : Z) (turns : list Turn) :
  recentTopics (conversationContext (run_session env turns (initialState now))) =
  firstn 8 (rev (flat_map (fun t => match recorded_operation env t with
                                    | Some opName => [opName]
                                    | None => []
                                    end) turns)).
Proof. apply (run_session_topics turns (initialState now) []). reflexivity. Qed.

Lemma generated_suggestions_offer_no_confirmation (c : ConversationContext) :
  ~ In "Confirm" (suggestedNextActions (generateSuggestions c)) /\
  ~ In "Cancel" (suggestedNextActions (generateSuggestions c)).
Proof.
  unfold generateSuggestions. cbn [suggestedNextActions].
  destruct (hd_error (recentTopics c)) as [t | ];
    [ | cbn; split; intros H; repeat destruct H as [H | H]; discriminate || exact H].
  destruct (String.eqb t "balance"), (String.eqb t "tokenInfo"),
    (String.eqb t "marketTrends"), (String.eqb t "history"), (String.eqb t "swap");
    try destruct (first_truthy (recentTokens c)) as [token | ];
    try destruct (negb (String.eqb token "SOL"));
    cbn; split; intros H; repeat destruct H as [H | H]; discriminate || exact H.
Qed.

(** X6. Off the fast path no response offers to confirm or to cancel:
    the suggestions of a catalog match are those of [generateSuggestions],
    which replace the handler's own, also those of a transfer that awaits
    confirmation. *)
Theorem confirmation_offered_only_on_fast_path prompt context s
  (offered : list string) :
  fast_path prompt = None ->
  suggestions (fst (parseUserIntent env prompt context s)) = Some offered ->
  ~ In "Confirm" offered /\ ~ In "Cancel" offered.
Proof.
  intros Hfast. unfold parseUserIntent. rewrite (slow_path _ _ env prompt context Hfast).
  pose proof (general_path_outcome _ _ env prompt context s) as H.
  inversion H as [opName operation mt result tip s2 Hfind _ Hcc
                 | opName operation mt e s1 Hfind _ _ Hcc
                 | address Hfind _
                 | r s1 Hfind _ [_ Hnone] _]; cbn [fst].
  - cbn [decorated suggestions]. rewrite Hcc. intros [= <-].
    apply generated_suggestions_offer_no_confirmation.
  - cbn [fallback_response suggestions]. intros [= <-].
    cbn; split; intros Hin; repeat destruct Hin as [Hin | Hin]; discriminate || exact Hin.
  - cbn [address_response suggestions]. intros [= <-].
    cbn; split; intros Hin; repeat destruct Hin as [Hin | Hin]; discriminate || exact Hin.
  - rewrite Hnone. discriminate.
Qed.

End Topics.

Section PriceCache.

Variables Transaction Date : Type.

Implicit Types (env : Env Transaction Date) (mt : RegExpMatchArray)
  (context : Context) (s : State).

Lemma lookup_assign_same {A} (key : string) (v : A) (obj : list (string * A)) :
  lookup key (assign key v obj) = Some v.
Proof.
  induction obj as [ | [k w] obj IH]; cbn [assign lookup].
  - rewrite String.eqb_refl. reflexivity.
  - destruct (String.eqb k key) eqn:E; cbn [lookup]; rewrite E; [reflexivity | exact IH].
Qed.

Lemma current_price_fresh env (symbol : string) s (entry : TokenPriceData) :
  lookup symbol (cachedTokenPrices s) = Some entry ->
  (Date_now env - timestamp entry < 60000)%Z ->
  current_price env symbol s = (Normal (Some (cachedPrice entry)), s).
Proof.
  intros Hl Ht. apply Z.ltb_lt in Ht. unfold current_price. run.
  rewrite Hl, Ht. reflexivity.
Qed.

Lemma current_price_fetched env (symbol : string) s (p : number) :
  fresh (Date_now env) (cachedTokenPrices s) symbol = false ->
  fetchTokenPrice env symbol = Normal (Some p) ->
  JsNumber.truthy p = true ->
  current_price env symbol s =
    (Normal (Some p),
     {| conversationContext := conversationContext s;
        cachedTokenPrices :=
          assign symbol {| cachedPrice := p; timestamp := Date_now env |}
                 (cachedTokenPrices s);
        randomCalls := randomCalls s |}).
Proof.
  intros Hf Hp Ht. unfold current_price. run. unfold fresh in Hf.
  rewrite Hf, Hp, Ht. reflexivity.
Qed.

(** The lookup without a usable price: the feed throws, or yields nothing,
    or a falsy number. *)
Lemma current_price_unpriced env (symbol : string) s :
  fresh (Date_now env) (cachedTokenPrices s) symbol = false ->
  (forall p, fetchTokenPrice env symbol = Normal (Some p) -> JsNumber.truthy p = false) ->
  snd (current_price env symbol s) = s /\
  match fst (current_price env symbol s) with
  | Normal p => truthy_price p = None
  | Throw _ => True
  end.
Proof.
  intros Hf Hp. unfold current_price. run. unfold fresh in Hf. rewrite Hf.
  destruct (fetchTokenPrice env symbol) as [[p | ] | e]; cbn [negb fst snd].
  - rewrite (Hp p eq_refl). cbn [fst snd truthy_price]. rewrite (Hp p eq_refl).
    split; reflexivity.
  - split; reflexivity.
  - split; [reflexivity | exact I].
Qed.

(** The reply of the balance handler with the price text [priceInfo]. *)
Let balance_reply context (priceInfo : string) : Response Transaction :=
  {| message :=
       "Your current wallet balance is " ++ toFixed (balance context) 4 ++
       " SOL" ++ priceInfo ++ " (" ++ abbreviate (walletAddress context) ++
       "). You can use this balance to swap tokens or perform other operations.";
     intent := Some (BalanceIntent (walletAddress context));
     suggestions := None |}.

Lemma balance_priced env mt context s (p : number) s1 :
  walletConnected context = true ->
  current_price env "SOL" s = (Normal (Some p), s1) ->
  JsNumber.truthy p = true ->
  balance_handler env mt context s =
    (Normal (balance_reply context
               (" (≈$" ++ toFixed (mul (balance context) p) 2 ++ ")")), s1).
Proof.
  intros Hc Hp Ht. unfold balance_handler. rewrite Hc. cbn [negb]. run.
  rewrite Hp. cbn [truthy_price]. rewrite Ht. reflexivity.
Qed.

Lemma balance_unpriced env mt context s :
  walletConnected context = true ->
  snd (current_price env "SOL" s) = s ->
  match fst (current_price env "SOL" s) with
  | Normal p => truthy_price p = None
  | Throw _ => True
  end ->
  balance_handler env mt context s = (Normal (balance_reply context ""), s).
Proof.
  intros Hc Hs Hp. unfold balance_handler. rewrite Hc. cbn [negb]. run.
  destruct (current_price env "SOL" s) as [[p | e] s1]; cbn [fst snd] in *; subst s1.
  - rewrite Hp. reflexivity.
  - reflexivity.
Qed.

(** X17. The price cache of the balance handler: a price fetched by one
    call is stored under SOL with the time of the call, and a call within
    the next 60 seconds answers from it, whatever the feed then does. *)
Theorem balance_price_round_trip env (later : Env Transaction Date) mt context s
  (p : number) :
  walletConnected context = true ->
  fresh (Date_now env) (cachedTokenPrices s) "SOL" = false ->
  fetchTokenPrice env "SOL" = Normal (Some p) ->
  JsNumber.truthy p = true ->
  (Date_now later - Date_now env < 60000)%Z ->
  exists r s1,
    balance_handler env mt context s = (Normal r, s1) /\
    lookup "SOL" (cachedTokenPrices s1) =
      Some {| cachedPrice := p; timestamp := Date_now env |} /\
    balance_handler later mt context s1 = (Normal r, s1).
Proof.
  intros Hc Hstale Hfetch Ht Hsoon.
  pose proof (current_price_fetched env "SOL" s p Hstale Hfetch Ht) as Hfirst.
  set (s1 := {| conversationContext := conversationContext s;
                cachedTokenPrices :=
                  assign "SOL" {| cachedPrice := p; timestamp := Date_now env |}
                         (cachedTokenPrices s);
                randomCalls := randomCalls s |}) in *.
  assert (Hl : lookup "SOL" (cachedTokenPrices s1) =
               Some {| cachedPrice := p; timestamp := Date_now env |}).
  { apply lookup_assign_same. }
  exists (balance_reply context (" (≈$" ++ toFixed (mul (balance context) p) 2 ++ ")")), s1.
  split; [ | split; [exact Hl | ]].
  - apply (balance_priced env mt context s p s1 Hc Hfirst Ht).
  - apply (balance_priced later mt context s1 p s1 Hc); [ | exact Ht].
    apply (current_price_fresh later "SOL" s1 _ Hl). exact Hsoon.
Qed.

(** X18. A failing price feed does not fail the balance handler: when the
    cache holds no fresh price and the feed throws, or yields nothing or a
    falsy number, the reply states the balance without its value in
    dollars, and the state stays as it was. *)
Theorem balance_survives_price_failure env mt context s :
  walletConnected context = true ->
  fresh (Date_now env) (cachedTokenPrices s) "SOL" = false ->
  (forall p, fetchTokenPrice env "SOL" = Normal (Some p) -> JsNumber.truthy p = false) ->
  balance_handler env mt context s =
    (Normal {| message :=
                 "Your current wallet balance is " ++ toFixed (balance context) 4 ++
                 " SOL (" ++ abbreviate (walletAddress context) ++
                 "). You can use this balance to swap tokens or perform other operations.";
               intent := Some (BalanceIntent (walletAddress context));
               suggestions := None |}, s).
Proof.
  intros Hc Hstale Hfeed.
  destruct (current_price_unpriced env "SOL" s Hstale Hfeed) as [Hs Hp].
  apply (balance_unpriced env mt context s Hc Hs Hp).
Qed.

End PriceCache.

Section Answers.

Variables Transaction Date : Type.
Variable env : Env Transaction Date.

Implicit Types (prompt : string) (mt : RegExpMatchArray) (context : Context) (s : State).

Lemma lookup_none_keys {A} (key : string) (obj : list (string * A)) :
  lookup key obj = None <-> ~ In key (keys obj).
Proof.
  induction obj as [ | [k v] obj IH]; cbn [lookup keys map fst In].
  - tauto.
  - destruct (String.eqb_spec k key) as [-> | Hne].
    + split; [discriminate | tauto].
    + rewrite IH. unfold keys. tauto.
Qed.

Lemma tokenInfo_unknown mt context s (captured : string) :
  get mt 1 = Some captured ->
  lookup (toUpperCase captured) TOKEN_INFO = None ->
  tokenInfo_handler env mt context s =
    (Normal {| message :=
                 "I don't have information about " ++ captured ++
                 ". Currently I have data on: " ++ join ", " SUPPORTED_TOKENS;
               intent := Some IntentNull;
               suggestions := None |}, s).
Proof.
  intros H1 Hl. unfold tokenInfo_handler. run. rewrite H1, Hl. reflexivity.
Qed.

Lemma tokenInfo_known mt context (captured : string) (info : TokenInfo) :
  get mt 1 = Some captured ->
  lookup (toUpperCase captured) TOKEN_INFO = Some info ->
  returns (fun r => intent r = Some (TokenInfoIntent (toUpperCase captured)))
          (tokenInfo_handler env mt context).
Proof.
  intros H1 Hl. unfold tokenInfo_handler. rewrite H1.
  apply (completes_bind (fun c => c = captured));
    [apply completes_ret; reflexivity | intros c ->].
  rewrite Hl.
  apply (completes_bind (fun _ => True)).
  - apply returns_price_text. intros p.
    destruct (truthy_price p); apply preserves_ret; exact I.
  - intros priceInfo _. apply completes_ret. reflexivity.
Qed.

(** X19. The token-information handler answers with a token-information
    intent exactly for the symbols of the registry, whatever the case of
    the captured word; for any other word the intent is null, the reply
    lists the supported symbols, and the state stays as it was. *)
Theorem tokenInfo_answers_registry_symbols mt context s (captured : string) :
  get mt 1 = Some captured ->
  exists r s1,
    tokenInfo_handler env mt context s = (Normal r, s1) /\
    (In (toUpperCase captured) SUPPORTED_TOKENS ->
     intent r = Some (TokenInfoIntent (toUpperCase captured))) /\
    (~ In (toUpperCase captured) SUPPORTED_TOKENS ->
     s1 = s /\
     r = {| message :=
              "I don't have information about " ++ captured ++
              ". Currently I have data on: " ++ join ", " SUPPORTED_TOKENS;
            intent := Some IntentNull;
            suggestions := None |}).
Proof.
  intros H1.
  destruct (lookup (toUpperCase captured) TOKEN_INFO) as [info | ] eqn:Hl.
  - destruct (tokenInfo_known mt context captured info H1 Hl s)
      as (r & s1 & Hrun & _ & Hi).
    exists r, s1. split; [exact Hrun | split; [intros _; exact Hi | ]].
    intros Hnot. apply lookup_none_keys in Hnot. unfold SUPPORTED_TOKENS in *.
    congruence.
  - eexists _, s. split; [apply (tokenInfo_unknown mt context s captured H1 Hl) | ].
    split; [ | intros _; split; reflexivity].
    intros Hin. apply lookup_none_keys in Hl. contradiction.
Qed.

(** X20. The history handler returns normally and leaves the state as it
    was, whatever its services do; it reports success only with the
    non-empty list that the transaction service returned for a query of at
    most ten entries and that the formatter accepted. *)
Theorem history_never_throws mt context s :
  exists r,
    history_handler env mt context s = (Normal r, s) /\
    if walletConnected context then
      intent r = Some (HistoryIntent false None) \/
      exists tx txs query text,
        limit query = 10%Z /\
        getTransactionsForDateRange env (walletAddress context) query =
          Normal (Some (tx :: txs)) /\
        formatTransactionsForDisplay env (tx :: txs) = Normal text /\
        intent r = Some (HistoryIntent true (Some (tx :: txs)))
    else intent r = Some IntentNull.
Proof.
  enough (H : settles
                (fun r =>
                   if walletConnected context then
                     intent r = Some (HistoryIntent false None) \/
                     exists tx txs query text,
                       limit query = 10%Z /\
                       getTransactionsForDateRange env (walletAddress context) query =
                         Normal (Some (tx :: txs)) /\
                       formatTransactionsForDisplay env (tx :: txs) = Normal text /\
                       intent r = Some (HistoryIntent true (Some (tx :: txs)))
                   else intent r = Some IntentNull)
                (history_handler env mt context)).
  { destruct (H s) as (r & s1 & Hrun & Hs & Hq). cbn beta in Hs. subst s1.
    exists r. split; assumption. }
  destruct (walletConnected context) eqn:Hc; unfold history_handler; rewrite Hc;
    cbn [negb].
  - apply completes_catch.
    + cbv zeta. apply preserves_then.
      * match goal with |- preserves _ _ (match ?o with Some _ => _ | None => _ end) =>
          destruct o end; [ | apply preserves_ret; exact I].
        apply preserves_then; [apply preserves_any | intros dr].
        destruct (startDate dr), (endDate dr); apply preserves_ret; exact I.
      * intros range.
        eapply (preserves_bind (fun a => _ = Normal a));
          [apply preserves_lift; intros a Ha; exact Ha | ].
        intros [[ | tx txs] | ] Hget; try (apply preserves_ret; left; reflexivity).
        eapply (preserves_bind (fun a => _ = Normal a));
          [apply preserves_lift; intros a Ha; exact Ha | ].
        intros text Hformat. apply preserves_ret. right.
        eexists tx, txs, _, text.
        split; [ | split; [exact Hget | split; [exact Hformat | reflexivity]]].
        reflexivity.
    + intros e. apply completes_ret. left. reflexivity.
  - apply completes_ret. reflexivity.
Qed.

(** X7. The catalog is searched in declared order, and the patterns of an
    operation in listed order: the operation found is the first one with a
    matching pattern, and the match is that of its first matching
    pattern. *)
Theorem first_registered_match_wins (ops : list (string * Operation Transaction))
  prompt (opName : string) (operation : Operation Transaction) mt :
  find_operation ops prompt = Some (opName, operation, mt) ->
  (exists before after,
     ops = (before ++ (opName, operation) :: after)%list /\
     Forall (fun entry => first_match (patterns (snd entry)) prompt = None) before) /\
  (exists before pattern after,
     patterns operation = (before ++ pattern :: after)%list /\
     Forall (fun p => exec p prompt = None) before /\
     exec pattern prompt = Some mt).
Proof.
  intros Hfind. split.
  - revert Hfind. induction ops as [ | [name op] ops IH]; cbn [find_operation];
      [discriminate | ].
    destruct (first_match (patterns op) prompt) as [mo | ] eqn:Hm.
    + intros [= <- <- <-]. exists [], ops. split; [reflexivity | constructor].
    + intros H. destruct (IH H) as (before & after & -> & Hall).
      exists ((name, op) :: before), after. split; [reflexivity | ].
      constructor; [exact Hm | exact Hall].
  - destruct (find_operation_in _ _ _ _ _ _ Hfind) as [_ Hfirst].
    revert Hfirst. generalize (patterns operation) as ps.
    induction ps as [ | q ps IH]; cbn [first_match]; [discriminate | ].
    destruct (exec q prompt) as [mq | ] eqn:Hq.
    + intros [= <-]. exists [], q, ps. repeat split; [constructor | exact Hq].
    + intros H. destruct (IH H) as (before & p & after & -> & Hall & Hp).
      exists (q :: before), p, after. repeat split; [ | exact Hp].
      constructor; [exact Hq | exact Hall].
Qed.

End Answers.

Section Replies.

Variables Transaction Date : Type.
Variable env : Env Transaction Date.

Implicit Types (prompt : string) (context : Context) (s : State).

(** X8. A prompt that is off the fast path, that no operation matches and
    in which no address is detected gets a reply of the general chat,
    without intent and without suggestions; the conversation context and
    the price cache stay as they were. *)
Theorem unmatched_prompt_gets_plain_reply prompt context s :
  fast_path prompt = None ->
  find_operation (OPERATIONS env) prompt = None ->
  truthy_string (detectSolanaAddress env prompt) = None ->
  exists r s1,
    parseUserIntent env prompt context s = (r, s1) /\
    intent r = None /\ suggestions r = None /\
    conversationContext s1 = conversationContext s /\
    cachedTokenPrices s1 = cachedTokenPrices s.
Proof.
  intros Hfast Hfind Hnone.
  unfold parseUserIntent. rewrite (slow_path _ _ env prompt context Hfast).
  pose proof (general_path_outcome _ _ env prompt context s) as H.
  inversion H as [opName operation mt result tip s2 Hfind' _ _
                 | opName operation mt e s1 Hfind' _ _ _
                 | address _ Ha
                 | r s1 _ _ [Hi Hs] Hm]; try congruence.
  exists r, s1. unfold memory in Hm. injection Hm as Hcc Hcache.
  repeat split; assumption.
Qed.

(** X16. A connected wallet whose balance is below 0.05 SOL always gets a
    tip: whatever the memory holds and whatever the random draws are,
    [getPersonalizedTips] returns one. *)
Theorem low_balance_always_tipped context s :
  walletConnected context = true ->
  lt (balance context) (of_decimal false 5 (-2)) = true ->
  exists tip s1, getPersonalizedTips env context s = (Normal (Some tip), s1).
Proof.
  intros Hc Hlow.
  enough (H : returns (fun t => t <> None) (getPersonalizedTips env context)).
  { destruct (H s) as ([tip | ] & s1 & Hrun & _ & Hq); [ | congruence].
    exists tip, s1. exact Hrun. }
  unfold getPersonalizedTips.
  apply (completes_bind (fun _ => True)); [apply completes_get_state | intros s0 _].
  apply (completes_bind (fun _ => True));
    [apply quiet_returns, quiet_and_random_above | intros t1 _].
  destruct t1; [apply completes_ret; discriminate | ].
  apply (completes_bind (fun _ => True));
    [apply quiet_returns, quiet_and_random_above | intros t2 _].
  match goal with
  | |- completes _ _ (match ?o with Some _ => _ | None => _ end) => destruct o
  end; [apply completes_ret; discriminate | ].
  rewrite Hc, Hlow. cbn [andb]. apply completes_ret. discriminate.
Qed.

End Replies.

Section Utilities.

Lemma length_substring (n m : nat) (s : string) :
  (n + m <= String.length s)%nat -> String.length (String.substring n m s) = m.
Proof.
  revert n m. induction s as [ | c s IH]; intros n m H; cbn [String.length] in H.
  - assert (n = 0 /\ m = 0)%nat as [-> ->] by lia. reflexivity.
  - destruct n as [ | n]; cbn [String.substring].
    + destruct m as [ | m]; [reflexivity | ]. cbn [String.length].
      rewrite (IH 0%nat m) by lia. reflexivity.
    + apply IH. lia.
Qed.

Lemma length_append (a b : string) :
  String.length (a ++ b) = (String.length a + String.length b)%nat.
Proof. induction a as [ | c a IH]; cbn; [reflexivity | rewrite IH; reflexivity]. Qed.

Lemma truthy_length (s : string) :
  JsString.truthy s = true <-> (0 < String.length s)%nat.
Proof. destruct s; cbn; split; (discriminate || lia || reflexivity). Qed.

Lemma substring_all (s : string) : String.substring 0 (String.length s) s = s.
Proof. induction s as [ | c s IH]; cbn; [reflexivity | rewrite IH; reflexivity]. Qed.

Lemma slice_first (s : string) (n : nat) :
  (n <= String.length s)%nat ->
  slice s 0 (Some (Z.of_nat n)) = String.substring 0 n s.
Proof.
  intros H. unfold slice. cbv zeta. change (0 <? 0)%Z with false. cbv iota.
  destruct (Z.ltb_spec (Z.of_nat n) 0) as [Hneg | _]; [lia | ].
  f_equal; lia.
Qed.

Lemma slice_last_chars (s : string) (n : nat) :
  (0 < n <= String.length s)%nat ->
  slice s (- Z.of_nat n) None = String.substring (String.length s - n) n s.
Proof.
  intros H. unfold slice. cbv zeta.
  destruct (Z.ltb_spec (- Z.of_nat n) 0) as [_ | Hpos]; [ | lia].
  f_equal; lia.
Qed.

Lemma slice_from_start (s : string) : slice s 0 None = s.
Proof.
  unfold slice. cbv zeta. change (0 <? 0)%Z with false. cbv iota.
  replace (Z.to_nat (Z.min 0 (Z.of_nat (String.length s)))) with 0%nat by lia.
  replace (Z.to_nat (Z.max (Z.of_nat (String.length s) -
                            Z.min 0 (Z.of_nat (String.length s))) 0))
    with (String.length s) by lia.
  apply substring_all.
Qed.

(** X21. An address longer than [startChars + endChars], with
    [startChars >= 0] and [endChars > 0], is shortened to its first
    [startChars] characters, three dots and its last [endChars]
    characters, [startChars + endChars + 3] characters in all; any other
    address is returned as it is. *)
Theorem formatWalletAddress_shape (address : string) (startChars endChars : nat) :
  (0 < endChars)%nat ->
  let len := String.length address in
  formatWalletAddress address (Z.of_nat startChars) (Z.of_nat endChars) =
    (if (len <=? startChars + endChars)%nat then address
     else String.substring 0 startChars address ++ "..." ++
          String.substring (len - endChars) endChars address) /\
  String.length (formatWalletAddress address (Z.of_nat startChars) (Z.of_nat endChars)) =
    (if (len <=? startChars + endChars)%nat then len else startChars + endChars + 3)%nat.
Proof.
  intros Hend len. unfold formatWalletAddress.
  destruct (JsString.truthy address) eqn:Htruthy; cbn [negb].
  2:{ destruct address; [ | discriminate Htruthy]. split; reflexivity. }
  destruct (Nat.leb_spec len (startChars + endChars)) as [Hle | Hgt].
  - replace (Z.of_nat (String.length address) <=? Z.of_nat startChars + Z.of_nat endChars)%Z
      with true by (symmetry; apply Z.leb_le; fold len; lia).
    split; reflexivity.
  - replace (Z.of_nat (String.length address) <=? Z.of_nat startChars + Z.of_nat endChars)%Z
      with false by (symmetry; apply Z.leb_gt; fold len; lia).
    rewrite slice_first, slice_last_chars by (fold len; lia). fold len.
    split; [reflexivity | ].
    rewrite !length_append, !length_substring by (fold len; lia).
    cbn [String.length]. lia.
Qed.

(** X22. With [endChars = 0] the address is not shortened but lengthened:
    [slice(-0)] is the whole string, so the result is the first
    [startChars] characters, three dots and the whole address. *)
Theorem formatWalletAddress_without_end (address : string) (startChars : nat) :
  (startChars < String.length address)%nat ->
  formatWalletAddress address (Z.of_nat startChars) 0 =
    String.substring 0 startChars address ++ "..." ++ address.
Proof.
  intros Hlen. unfold formatWalletAddress.
  assert (Htruthy : JsString.truthy address = true) by (apply truthy_length; lia).
  rewrite Htruthy. cbn [negb].
  replace (Z.of_nat (String.length address) <=? Z.of_nat startChars + 0)%Z
    with false by (symmetry; apply Z.leb_gt; lia).
  change (- 0)%Z with 0%Z. rewrite slice_first, slice_from_start by lia. reflexivity.
Qed.

Lemma length_substring_min (n m : nat) (s : string) :
  String.length (String.substring n m s) = Nat.min m (String.length s - n).
Proof.
  revert n m. induction s as [ | c s IH]; intros n m; cbn [String.length].
  - destruct n, m; reflexivity.
  - destruct n as [ | n]; cbn [String.substring].
    + destruct m as [ | m]; [reflexivity | ]. cbn [String.length].
      rewrite (IH 0%nat m). rewrite Nat.sub_0_r. reflexivity.
    + rewrite IH. reflexivity.
Qed.

(** X23. The abbreviation that the handlers write in line agrees with
    [formatWalletAddress] at its default counts exactly on the addresses
    of more than 8 characters: a shorter address is returned whole by
    [formatWalletAddress], and repeated around the dots in line. *)
Theorem inline_abbreviation_agrees (address : string) :
  abbreviate (Some address) = formatWalletAddress address 4 4 <->
  (8 < String.length address)%nat.
Proof.
  split.
  - intros Heq. apply (f_equal String.length) in Heq.
    cbn [abbreviate] in Heq. unfold slice_to, slice_last in Heq.
    rewrite !length_append, !length_substring_min in Heq.
    cbn [String.length] in Heq.
    destruct (Nat.leb_spec (String.length address) 8) as [Hle | Hgt]; [ | exact Hgt].
    exfalso. unfold formatWalletAddress in Heq.
    destruct (JsString.truthy address) eqn:Htruthy; cbn [negb] in Heq.
    + replace (Z.of_nat (String.length address) <=? 4 + 4)%Z
        with true in Heq by (symmetry; apply Z.leb_le; lia).
      lia.
    + cbn [String.length] in Heq. lia.
  - intros Hlen. unfold formatWalletAddress.
    assert (Htruthy : JsString.truthy address = true) by (apply truthy_length; lia).
    rewrite Htruthy. cbn [negb].
    replace (Z.of_nat (String.length address) <=? 4 + 4)%Z
      with false by (symmetry; apply Z.leb_gt; lia).
    change 4%Z with (Z.of_nat 4).
    rewrite slice_first, slice_last_chars by lia. reflexivity.
Qed.

End Utilities.

Section Knowledge.

(** X24. The message of [cryptoKnowledgeHandler], whatever the match and
    the context, is the two lines [categories: [object Object]] and
    [trends: [object Object]]: [formatKnowledgeToText] prints the two
    nested objects of [getCryptoKnowledge] through a template literal, so
    that the message holds none of the texts of the knowledge. *)
Theorem cryptoKnowledgeHandler_shows_no_knowledge
  (mt : RegExpMatchArray) (context : Context) :
  knowledge_message (cryptoKnowledgeHandler mt context) =
    "categories: [object Object]" ++ nl ++ "trends: [object Object]" /\
  forallb (fun text =>
             negb (includes (knowledge_message (cryptoKnowledgeHandler mt context)) text))
          (leaves (VObject getCryptoKnowledge)) = true.
Proof.
  unfold cryptoKnowledgeHandler. cbn [knowledge_message].
  split; vm_compute; reflexivity.
Qed.

End Knowledge.

Section Mentions.

Import AdvancedAISystem.

Lemma array_includes_in (xs : list string) (x : string) :
  array_includes xs x = true <-> In x xs.
Proof.
  unfold array_includes. rewrite existsb_exists. split.
  - intros (y & Hin & Heq). apply String.eqb_eq in Heq. subst y. exact Hin.
  - intros Hin. exists x. split; [exact Hin | apply String.eqb_refl].
Qed.

Lemma names_mentioned_in (table : list (string * TokenInfo)) (normalized : string)
  (tokens : list string) (x : string) :
  In x (names_mentioned table normalized tokens) <->
  In x tokens \/
  exists info, In (x, info) table /\
               includes normalized (toLowerCase (name info)) = true.
Proof.
  revert tokens. induction table as [ | [k v] table IH]; intros tokens;
    cbn [names_mentioned fold_left].
  - split; [auto | intros [H | (info & [] & _)]; exact H].
  - change (fold_left _ table ?t) with (names_mentioned table normalized t).
    rewrite IH. cbn [fst snd In].
    destruct (includes normalized (toLowerCase (name v))) eqn:Hn; cbn [andb].
    + destruct (array_includes tokens k) eqn:Hk; cbn [negb].
      * apply array_includes_in in Hk. split.
        -- intros [H | (info & Hin & Hi)]; [left; exact H | ].
           right. exists info. split; [right; exact Hin | exact Hi].
        -- intros [H | (info & [Heq | Hin] & Hi)]; [left; exact H | | ].
           ++ injection Heq as <- <-. left. exact Hk.
           ++ right. exists info. split; assumption.
      * rewrite in_app_iff. cbn [In]. split.
        -- intros [[H | [<- | []]] | (info & Hin & Hi)].
           ++ left. exact H.
           ++ right. exists v. split; [left; reflexivity | exact Hn].
           ++ right. exists info. split; [right; exact Hin | exact Hi].
        -- intros [H | (info & [Heq | Hin] & Hi)].
           ++ left. left. exact H.
           ++ injection Heq as <- <-. left. right. left. reflexivity.
           ++ right. exists info. split; assumption.
    + split.
      * intros [H | (info & Hin & Hi)]; [left; exact H | ].
        right. exists info. split; [right; exact Hin | exact Hi].
      * intros [H | (info & [Heq | Hin] & Hi)]; [left; exact H | | ].
        -- injection Heq as <- <-. congruence.
        -- right. exists info. split; assumption.
Qed.

Lemma names_mentioned_NoDup (table : list (string * TokenInfo)) (normalized : string)
  (tokens : list string) :
  NoDup tokens -> NoDup (names_mentioned table normalized tokens).
Proof.
  revert tokens. induction table as [ | [k v] table IH]; intros tokens Hnd;
    cbn [names_mentioned fold_left]; [exact Hnd | ].
  change (fold_left _ table ?t) with (names_mentioned table normalized t).
  apply IH. cbn [fst snd].
  destruct (includes normalized (toLowerCase (name v)) &&
            negb (array_includes tokens k)) eqn:E; [ | exact Hnd].
  apply andb_prop in E. destruct E as [_ Hk]. apply negb_true_iff in Hk.
  apply NoDup_app; [exact Hnd | constructor; [intros [] | constructor] | ].
  intros x Hx [<- | []]. apply array_includes_in in Hx. congruence.
Qed.

Lemma in_keys {A} (x : string) (table : list (string * A)) :
  In x (keys table) <-> exists v, In (x, v) table.
Proof.
  unfold keys. rewrite in_map_iff. split.
  - intros ([k v] & <- & Hin). exists v. exact Hin.
  - intros (v & Hin). exists (x, v). split; [reflexivity | exact Hin].
Qed.

(** X25. [extractTokensFromMessage] returns, without repetition, the symbols
    of the table whose symbol or whose name occurs in the message, in
    whatever case and also inside a longer word. *)
Theorem extractTokensFromMessage_mentions (message : string) :
  NoDup (extractTokensFromMessage message) /\
  forall x,
    In x (extractTokensFromMessage message) <->
    exists info,
      In (x, info) ENHANCED_TOKEN_INFO /\
      (includes (toLowerCase message) (toLowerCase x) = true \/
       includes (toLowerCase message) (toLowerCase (name info)) = true).
Proof.
  unfold extractTokensFromMessage. cbv zeta. split.
  - apply names_mentioned_NoDup. unfold symbols_mentioned.
    apply NoDup_filter. cbn. repeat constructor; cbn; intuition discriminate.
  - intros x. rewrite names_mentioned_in. unfold symbols_mentioned.
    rewrite filter_In, in_keys. split.
    + intros [[(info & Hin) Hx] | (info & Hin & Hn)]; exists info;
        (split; [exact Hin | tauto]).
    + intros (info & Hin & [Hx | Hn]).
      * left. split; [exists info; exact Hin | exact Hx].
      * right. exists info. split; assumption.
Qed.

End Mentions.

(* ===================================================================== *)
(** * The properties at sample inputs *)

(** C1 at a prompt that holds no address. *)
Lemma transfer_requires_detected_address_witness :
  transfer_handler sample_env (sample_transfer_match prompt_without_address)
    (enhance (sample_context "10") prompt_without_address) sample_state =
    (Normal no_address_response, sample_state) /\
  intent (@no_address_response unit) = Some IntentNull.
Proof.
  apply (proj1 (transfer_requires_detected_address unit unit sample_env
                  (sample_transfer_match prompt_without_address)
                  (enhance (sample_context "10") prompt_without_address) sample_state)
           transfer_fast_pattern (toLowerCase prompt_without_address));
    [left; reflexivity | vm_compute; reflexivity ..].
Defined.

(** The fee-shortfall branch at a balance of 10 and an amount of 9.999999. *)
Lemma transfer_fee_shortfall_suggestion_witness :
  transfer_handler sample_env (sample_transfer_match (prompt_send "9.999999" "SOL"))
    (enhance (sample_context "10") (prompt_send "9.999999" "SOL")) sample_state =
    (Normal (insufficient_for_fees_response (parseFloat "10") (parseFloat "9.999999")), sample_state).
Proof.
  refine (proj1 (transfer_fee_shortfall_suggestion unit unit sample_env
                   (sample_transfer_match (prompt_send "9.999999" "SOL"))
                   (enhance (sample_context "10") (prompt_send "9.999999" "SOL")) sample_state
                   "9.999999" "sol" sample_address _ _ _ _ _ _ _ _ _));
    vm_compute; reflexivity.
Defined.

(** C2, on the code. At a balance of 10 SOL the request to send 9.999999
    SOL is refused for the fee, and the suggestion is to send 10.0000 SOL:
    [toFixed(4)] rounds the fee away, so that the suggested amount is the
    whole balance, above the balance less the fee; and the request to send
    that amount is refused for the fee in turn, with the same suggestion.
    This holds in every state of the conversation. *)
Theorem fee_suggestion_refused_again (s : State) :
  parseUserIntent sample_env (prompt_send "9.999999" "SOL") (sample_context "10") s =
    (insufficient_for_fees_response (parseFloat "10") (parseFloat "9.999999"), s) /\
  suggestions
    (@insufficient_for_fees_response unit (parseFloat "10") (parseFloat "9.999999")) =
    Some ["Send 10.0000 SOL"; "Check my balance"] /\
  gt (parseFloat "10.0000") (sub (parseFloat "10") transactionFee) = true /\
  parseUserIntent sample_env (prompt_send "10.0000" "SOL") (sample_context "10") s =
    (insufficient_for_fees_response (parseFloat "10") (parseFloat "10.0000"), s) /\
  suggestions
    (@insufficient_for_fees_response unit (parseFloat "10") (parseFloat "10.0000")) =
    Some ["Send 10.0000 SOL"; "Check my balance"].
Proof.
  assert (Hrefused : forall amount : string,
            gt (parseFloat amount) zero = true ->
            gt (parseFloat amount) (parseFloat "10") = false ->
            gt (add (parseFloat amount) transactionFee) (parseFloat "10") = true ->
            fast_path (prompt_send amount "SOL") =
              Some (sample_transfer_match (prompt_send amount "SOL")) ->
            get (sample_transfer_match (prompt_send amount "SOL")) 1 = Some amount ->
            get (sample_transfer_match (prompt_send amount "SOL")) 2 = Some "sol" ->
            detectSolanaAddress sample_env (prompt_send amount "SOL") =
              Some sample_address ->
            parseUserIntent sample_env (prompt_send amount "SOL") (sample_context "10") s =
              (insufficient_for_fees_response (parseFloat "10") (parseFloat amount), s)).
  { intros amount Hpos Hgt Hfee Hfast H1 H2 Hd.
    destruct (lookup_transfer unit unit sample_env) as (operation & Hlookup & Hhandler).
    unfold parseUserIntent, parseUserIntent_try. rewrite Hfast. run.
    rewrite Hlookup, Hhandler.
    rewrite (transfer_sol_fees unit unit sample_env
               (sample_transfer_match (prompt_send amount "SOL"))
               (enhance (sample_context "10") (prompt_send amount "SOL")) s "sol"
               eq_refl H2 sample_address).
    - rewrite H1. reflexivity.
    - change (transfer_message _ _) with (prompt_send amount "SOL").
      rewrite Hd. reflexivity.
    - rewrite H1. cbn [parseFloat_arg].
      destruct (gt_zero_positive _ Hpos) as [Hnan Hle]. rewrite Hnan, Hle. reflexivity.
    - reflexivity.
    - rewrite H1. exact Hgt.
    - rewrite H1. exact Hfee. }
  split; [apply Hrefused; vm_compute; reflexivity | ].
  split; [vm_compute; reflexivity | ].
  split; [vm_compute; reflexivity | ].
  split; [apply Hrefused; vm_compute; reflexivity | vm_compute; reflexivity].
Qed.

(** C3 at a prompt of the specification. *)
Lemma transfer_fast_path_wins_witness :
  exists response,
    transfer_handler sample_env (sample_transfer_match (prompt_send "5" "SOL"))
      (enhance (sample_context "10") (prompt_send "5" "SOL")) sample_state =
      (Normal response, sample_state) /\
    parseUserIntent sample_env (prompt_send "5" "SOL") (sample_context "10") sample_state =
      (response, sample_state) /\
    forall token price, intent response <> Some (SwapIntent token price).
Proof.
  refine (transfer_fast_path_wins unit unit sample_env
            (prompt_send "5" "SOL") (sample_context "10") sample_state
            (sample_transfer_match (prompt_send "5" "SOL")) _ _);
    vm_compute; reflexivity.
Defined.

(** The same prompt, evaluated: the confirmation request. *)
Lemma transfer_prompt_response :
  parseUserIntent sample_env (prompt_send "5" "SOL") (sample_context "10") sample_state =
    ({| message := "I'll help you send 5 SOL to 7xKX...gAsU. Please confirm this transaction.";
        intent := Some (TransferIntent sample_address (parseFloat "5") "SOL");
        suggestions := Some ["Confirm"; "Cancel"; "Check my balance"] |},
     sample_state).
Proof. vm_compute. reflexivity. Qed.

(** C4 at a SOL balance equal to the fee and no token balance at all. *)
Lemma transfer_token_checks_only_fee_witness :
  transfer_handler sample_env (sample_transfer_match (prompt_send "5" "USDC"))
    (with_tokenBalances (enhance (sample_context "0.000005") (prompt_send "5" "USDC")) [])
    sample_state =
    (Normal (confirmation_response sample_address (parseFloat "5") "USDC"), sample_state) /\
  intent (@confirmation_response unit sample_address (parseFloat "5") "USDC") =
    Some (TransferIntent sample_address (parseFloat "5") "USDC").
Proof.
  refine (proj2 (transfer_token_checks_only_fee unit unit sample_env
                   (sample_transfer_match (prompt_send "5" "USDC"))
                   (enhance (sample_context "0.000005") (prompt_send "5" "USDC"))
                   sample_state "5" "usdc" sample_address _ _ _ _ _ _ _) _ []);
    try (vm_compute; reflexivity).
  vm_compute. discriminate.
Defined.

(** C5 at a balance of 10 and an amount of 11. *)
Lemma transfer_sol_insufficient_balance_witness :
  transfer_handler sample_env (sample_transfer_match (prompt_send "11" "SOL"))
    (enhance (sample_context "10") (prompt_send "11" "SOL")) sample_state =
    (Normal (insufficient_balance_response (parseFloat "10") (parseFloat "11")), sample_state).
Proof.
  refine (proj1 (transfer_sol_insufficient_balance unit unit sample_env
                   (sample_transfer_match (prompt_send "11" "SOL"))
                   (enhance (sample_context "10") (prompt_send "11" "SOL")) sample_state
                   "11" "sol" sample_address _ _ _ _ _ _ _ _));
    vm_compute; reflexivity.
Defined.

(** C6 as stated fails: the token of the returned intent is "SOL". *)
Lemma swap_prompt_token_is_sol :
  intent (fst (parseUserIntent sample_env "Swap 1 SOL to USDC" (sample_context "10") sample_state)) =
    Some (SwapIntent (Some "SOL") (of_Z 1)) /\
  Some "SOL" <> Some "USDC".
Proof. split; [vm_compute; reflexivity | discriminate]. Qed.

(** C7 on the code, from the state at module load: the whole response. *)
Lemma info_prompt_response :
  fst (parseUserIntent sample_env "Tell me about JUP" (sample_context "10") sample_state) =
    {| message := "I don't have information about about. Currently I have data on: SOL, USDC, USDT, BONK, JUP, JTO, RAY, PYTH, MEME, WIF, AKT";
       intent := Some IntentNull;
       suggestions := Some ["What tokens do you support?"; "Check my balance";
                            "What are the market trends?"] |} /\
  includes
    (message (fst (parseUserIntent sample_env "Tell me about JUP" (sample_context "10") sample_state)))
    "DEX token" = false.
Proof. vm_compute. split; reflexivity. Qed.


(** C9 at eleven insertions, in three calls. *)
Lemma ring_buffers_bounded_witness :
  List.length (recentTokens (run_updates sample_calls (initialConversationContext 0))) =
    10%nat /\
  forall d,
    hd d (recentTokens (run_updates sample_calls (initialConversationContext 0))) =
    last (inserted_tokens sample_calls) d.
Proof.
  apply (proj2 (proj2 (ring_buffers_bounded 0 sample_calls))).
  vm_compute. lia.
Defined.

(** C10 at the prompt of the claim. *)
Lemma verbless_transfer_routed_to_swap_witness :
  exists mt' operation,
    find_operation (OPERATIONS sample_env) ("Please send 5 SOL to " ++ sample_address) =
      Some ("swap", operation, mt') /\
    handler operation = @swap_handler unit /\
    intent (fst (parseUserIntent sample_env ("Please send 5 SOL to " ++ sample_address)
                   (sample_context "10") sample_state)) =
      Some (SwapIntent (get mt' 2) (parseFloat_arg (get mt' 1))).
Proof.
  refine (verbless_transfer_routed_to_swap unit unit sample_env
            ("Please send 5 SOL to " ++ sample_address) (sample_context "10") sample_state
            (RegExp.Build_RegExpMatchArray 12 ("Please send 5 SOL to " ++ sample_address)
               [Some ("5 SOL to " ++ sample_address); Some "5"; Some "SOL";
                Some sample_address]) _ _);
    vm_compute; reflexivity.
Defined.

(** The same prompt, evaluated: a swap of 5 SOL, no transfer. *)
Lemma verbless_transfer_response :
  fst (parseUserIntent sample_env ("Please send 5 SOL to " ++ sample_address)
         (sample_context "10") sample_state) =
    {| message := "Swap operation initiated";
       intent := Some (SwapIntent (Some "SOL") (parseFloat "5"));
       suggestions := Some ["Check my balance"; "Show my transaction history"] |}.
Proof. vm_compute. reflexivity. Qed.

(** ** The further properties at sample inputs *)

(** The route of a prompt, from the name of the operation found. *)
Lemma sample_route_found (prompt name : string) :
  option_map (fun found => fst (fst found))
             (find_operation (OPERATIONS sample_env) prompt) = Some name ->
  find_operation (OPERATIONS sample_env) prompt =
    Some (name, snd (fst (sample_route prompt)), snd (sample_route prompt)).
Proof.
  unfold sample_route.
  destruct (find_operation (OPERATIONS sample_env) prompt) as [[[n op] mt] | ];
    cbn [option_map fst snd]; [ | discriminate].
  intros [= ->]. reflexivity.
Qed.

(** A market-analysis prompt while the knowledge service is unreachable. *)
Lemma exceptions_come_from_two_operations_witness :
  fast_path "market analysis" = None /\
  exists operation mt,
    find_operation (OPERATIONS sample_env) "market analysis" =
      Some ("investmentEducation", operation, mt) \/
    (find_operation (OPERATIONS sample_env) "market analysis" =
       Some ("marketAnalysis", operation, mt) /\
     (getMarketAnalysis sample_env "market cycles" = Throw (ExternalError "unreachable") \/
      getMarketAnalysis sample_env "sentiment" = Throw (ExternalError "unreachable"))).
Proof.
  refine (exceptions_come_from_two_operations unit unit sample_env "market analysis"
            (sample_context "10") sample_state (ExternalError "unreachable")
            (noted "market analysis" "marketAnalysis" sample_state) _).
  vm_compute. reflexivity.
Defined.

(** A prompt about portfolio management gets the fallback. *)
Lemma investment_prompts_fall_back_witness :
  parseUserIntent sample_env "portfolio management" (sample_context "10") sample_state =
    (fallback_response, noted "portfolio management" "investmentEducation" sample_state).
Proof.
  refine (investment_prompts_fall_back unit unit sample_env "portfolio management"
            (sample_context "10") sample_state
            (snd (fst (sample_route "portfolio management")))
            (snd (sample_route "portfolio management")) _
            (sample_route_found "portfolio management" "investmentEducation" _));
    vm_compute; reflexivity.
Defined.

(** The balance intent of a connected wallet. *)
Lemma wallet_intents_need_connection_witness :
  walletConnected (sample_context "10") = true.
Proof.
  refine (wallet_intents_need_connection unit unit sample_env "Check my balance"
            (sample_context "10") sample_state
            (BalanceIntent (walletAddress (sample_context "10"))) _ _).
  - vm_compute. reflexivity.
  - left. reflexivity.
Defined.

(** A transfer of 5 SOL from a balance of 10, through the catalog. *)
Lemma transfer_intent_funded_witness :
  JsString.truthy sample_address = true /\
  gt (parseFloat "5") zero = true /\
  ("SOL" = "SOL" ->
   gt (add (parseFloat "5") transactionFee) (balance (sample_context "10")) = false) /\
  ("SOL" <> "SOL" -> lt (balance (sample_context "10")) transactionFee = false).
Proof.
  refine (transfer_intent_funded unit unit sample_env
            ("please send 5 sol " ++ sample_address)
            (sample_context "10") sample_state sample_address (parseFloat "5") "SOL" _).
  vm_compute. reflexivity.
Defined.

(** That response offers no confirmation. *)
Lemma confirmation_offered_only_on_fast_path_witness :
  ~ In "Confirm" default_suggestions /\ ~ In "Cancel" default_suggestions.
Proof.
  refine (confirmation_offered_only_on_fast_path unit unit sample_env
            ("please send 5 sol " ++ sample_address)
            (sample_context "10") sample_state default_suggestions _ _);
    vm_compute; reflexivity.
Defined.

(** A token-information prompt at the end of a session of four turns. *)
Lemma tokenInfo_suggestions_default_witness :
  suggestions (fst (parseUserIntent sample_env "explain bonk" (sample_context "10")
                      (run_session sample_env sample_turns (initialState 0)))) =
  Some default_suggestions.
Proof.
  refine (tokenInfo_suggestions_default unit unit sample_env 0 sample_turns "explain bonk"
            (sample_context "10")
            (snd (fst (sample_route "explain bonk"))) (snd (sample_route "explain bonk"))
            _ (sample_route_found "explain bonk" "tokenInfo" _));
    vm_compute; reflexivity.
Defined.

(** The preference lists after the sample calls. *)
Lemma preferences_hold_no_duplicates_witness :
  NoDup (preferredActions (userPreferences
           (run_updates sample_calls (initialConversationContext 0)))) /\
  NoDup (favoriteTokens (userPreferences
           (run_updates sample_calls (initialConversationContext 0)))).
Proof.
  apply (preferences_hold_no_duplicates sample_calls (initialConversationContext 0));
    constructor.
Defined.

(** A balance request priced at 150, then one while the feed is
    unreachable. *)
Lemma balance_price_round_trip_witness :
  exists r s1,
    balance_handler priced_env (snd (sample_route "Check my balance"))
      (sample_context "10") sample_state = (Normal r, s1) /\
    lookup "SOL" (cachedTokenPrices s1) =
      Some {| cachedPrice := of_Z 150; timestamp := Date_now priced_env |} /\
    balance_handler sample_env (snd (sample_route "Check my balance"))
      (sample_context "10") s1 = (Normal r, s1).
Proof.
  refine (balance_price_round_trip unit unit priced_env sample_env
            (snd (sample_route "Check my balance")) (sample_context "10") sample_state
            (of_Z 150) _ _ _ _ _);
    vm_compute; reflexivity.
Defined.

(** A balance request while the feed is unreachable. *)
Lemma balance_survives_price_failure_witness :
  balance_handler sample_env (snd (sample_route "Check my balance"))
    (sample_context "10") sample_state =
    (Normal {| message :=
                 "Your current wallet balance is " ++
                 toFixed (balance (sample_context "10")) 4 ++
                 " SOL (" ++ abbreviate (walletAddress (sample_context "10")) ++
                 "). You can use this balance to swap tokens or perform other operations.";
               intent := Some (BalanceIntent (walletAddress (sample_context "10")));
               suggestions := None |}, sample_state).
Proof.
  refine (balance_survives_price_failure unit unit sample_env
            (snd (sample_route "Check my balance")) (sample_context "10") sample_state
            _ _ _).
  - vm_compute. reflexivity.
  - vm_compute. reflexivity.
  - intros p H. vm_compute in H. discriminate H.
Defined.

(** The word bonk, in lower case. *)
Lemma tokenInfo_answers_registry_symbols_witness :
  exists r s1,
    tokenInfo_handler sample_env (snd (sample_route "explain bonk"))
      (sample_context "10") sample_state = (Normal r, s1) /\
    (In (toUpperCase "bonk") SUPPORTED_TOKENS ->
     intent r = Some (TokenInfoIntent (toUpperCase "bonk"))) /\
    (~ In (toUpperCase "bonk") SUPPORTED_TOKENS ->
     s1 = sample_state /\
     r = {| message :=
              "I don't have information about " ++ "bonk" ++
              ". Currently I have data on: " ++ join ", " SUPPORTED_TOKENS;
            intent := Some IntentNull;
            suggestions := None |}).
Proof.
  refine (tokenInfo_answers_registry_symbols unit unit sample_env
            (snd (sample_route "explain bonk")) (sample_context "10") sample_state
            "bonk" _).
  vm_compute. reflexivity.
Defined.

(** The balance operation, the second of the catalog. *)
Lemma first_registered_match_wins_witness :
  (exists before after,
     OPERATIONS sample_env =
       (before ++ ("balance", snd (fst (sample_route "Check my balance"))) :: after)%list /\
     Forall (fun entry => first_match (patterns (snd entry)) "Check my balance" = None)
            before) /\
  (exists before pattern after,
     patterns (snd (fst (sample_route "Check my balance"))) =
       (before ++ pattern :: after)%list /\
     Forall (fun p => exec p "Check my balance" = None) before /\
     exec pattern "Check my balance" = Some (snd (sample_route "Check my balance"))).
Proof.
  refine (first_registered_match_wins unit (OPERATIONS sample_env) "Check my balance"
            "balance" (snd (fst (sample_route "Check my balance")))
            (snd (sample_route "Check my balance"))
            (sample_route_found "Check my balance" "balance" _)).
  vm_compute. reflexivity.
Defined.

(** A greeting. *)
Lemma unmatched_prompt_gets_plain_reply_witness :
  exists r s1,
    parseUserIntent sample_env "hello there" (sample_context "10") sample_state = (r, s1) /\
    intent r = None /\ suggestions r = None /\
    conversationContext s1 = conversationContext sample_state /\
    cachedTokenPrices s1 = cachedTokenPrices sample_state.
Proof.
  refine (unmatched_prompt_gets_plain_reply unit unit sample_env "hello there"
            (sample_context "10") sample_state _ _ _);
    vm_compute; reflexivity.
Defined.

(** A balance of 0.01 SOL. *)
Lemma low_balance_always_tipped_witness :
  exists tip s1,
    getPersonalizedTips sample_env (sample_context "0.01") sample_state =
      (Normal (Some tip), s1).
Proof.
  refine (low_balance_always_tipped unit unit sample_env (sample_context "0.01")
            sample_state _ _);
    vm_compute; reflexivity.
Defined.

(** The sample address at the default counts. *)
Lemma formatWalletAddress_shape_witness :
  formatWalletAddress sample_address 4 4 = "7xKX...gAsU" /\
  String.length (formatWalletAddress sample_address 4 4) = 11%nat.
Proof.
  exact (formatWalletAddress_shape sample_address 4 4 ltac:(vm_compute; lia)).
Defined.

(** The sample address with no character kept at the end. *)
Lemma formatWalletAddress_without_end_witness :
  formatWalletAddress sample_address 4 0 = "7xKX..." ++ sample_address.
Proof.
  exact (formatWalletAddress_without_end sample_address 4 ltac:(vm_compute; lia)).
Defined.

(** C8 at a prompt whose handler throws: the investment patterns capture
    nothing, and the handler reads the first capture. *)
Lemma exceptions_become_fallback_witness :
  parseUserIntent_promise sample_env "investment strategy" (sample_context "10")
    sample_state =
    (Normal fallback_response,
     noted "investment strategy" "investmentEducation" sample_state).
Proof.
  refine (proj1 (proj2 (exceptions_become_fallback unit unit sample_env
                          "investment strategy" (sample_context "10") sample_state))
            "investmentEducation"
            (snd (fst (sample_route "investment strategy")))
            (snd (sample_route "investment strategy"))
            (TypeError "toLowerCase") _ _
            (sample_route_found "investment strategy" "investmentEducation" _) _);
    vm_compute; reflexivity.
Defined.
